(** * Health-mediated deployments: the release orchestration engine

    A shallow embedding of the server side of workers-hmd together with the
    properties of its natural-language specification.  The classes are
    found in these sources:
    - [SLOEvaluator]: src/server/sloEvaluator.ts, lines 1-118;
    - [ReleaseWorkflow] (releaseWorkflow.ts): src/server/sloEvaluator.ts,
      from line 119;
    - [StageStorage]: src/server/stage.ts, lines 1-221;
    - [ReleaseHistory] (releaseHistory.ts): src/server/stage.ts, from line
      222;
    - [PlanStorage]: src/server/plan.ts;
    - the routes (index.ts): unnamed/part_001;
    - [PlanEditor]: unnamed/part_002;
    - [TimeInput]: react-app/TimeInput.tsx.

    Conventions of the embedding.
    - JavaScript numbers are IEEE-754 doubles.  Whole second counts, orders
      and percentages are in [Z]; latencies and the polling fraction are in
      [Q].  Where the source computes with a number that need not be whole
      (the margin of a violation, the product and the quotient that give
      the polling interval and the number of rounds) the operation is the
      one of [Js]: operands and result are rounded to the nearest double,
      ties to even.  Comparisons are exact.  Overflow to [Infinity] and
      [NaN] are not modelled.
    - The order of a stage inside a stage id is rendered by
      [Js.integerToString]: plain digits below 10^21, the exponent form
      from there on.  The counts inside messages are lengths of lists and
      are rendered by their digits.
    - An ISO timestamp string is the epoch-millisecond instant it denotes;
      the empty string (falsy in the source) is [None].
    - A Durable Object is the content of its storage; a namespace of
      Durable Objects is a [gmap] from the name given to [idFromName] to
      that content, a name never used standing for empty storage.
    - Every method takes the instant [now] that [Date.now()] and
      [new Date()] return while it runs.
    - [console.log] is left out, and so is the [catch] of a route, which
      answers 500 to an exception: no call of the embedding throws
      there. *)

From Stdlib Require Import ZArith QArith Qround Qpower Sorted Lia Lqa.
From stdpp Require Import base strings pretty list gmap.

(** Rendering of instants and numbers inside log lines and summaries. *)
Class JsFormat := {
  toISOString : Z -> string;
  numberToString : Q -> string
}.

(** ** JavaScript numbers

    A double is a rational [m * 2^e] with [|m| < 2^53] and [-1074 <= e].
    [number x] is the double nearest to [x], ties going to the even
    mantissa, as every arithmetic operation of the language rounds its
    exact result. *)
Module Js.
#[local] Open Scope Q_scope.

Definition pow2 (e : Z) : Q := 2 ^ e.

(** The nearest whole number, a tie going to the even one. *)
Definition roundHalfEven (x : Q) : Z :=
  let f := Qfloor x in
  match Qcompare (x - inject_Z f) (1 # 2) with
  | Lt => f
  | Gt => (f + 1)%Z
  | Eq => if Z.even f then f else (f + 1)%Z
  end.

(** For [0 < x] the [e] with [2^(e+52) <= x < 2^(e+53)]: the exponent that
    gives [x] a mantissa of 53 bits. *)
Definition exponentOf (x : Q) : Z :=
  let e0 := (Z.log2 (Qnum x) - Z.log2 (Zpos (Qden x)) - 53)%Z in
  if Qle_bool (pow2 (e0 + 53)) x then (e0 + 1)%Z else e0.

(** Rounding to the multiples of [2^e]. *)
Definition onGrid (e : Z) (x : Q) : Q :=
  inject_Z (roundHalfEven (x / pow2 e)) * pow2 e.

(** Rounding of a positive number; below [2^-1022] the grid is the
    subnormal one, of step [2^-1074]. *)
Definition roundPositive (x : Q) : Q :=
  onGrid (Z.max (exponentOf x) (-1074)) x.

Definition number (x : Q) : Q :=
  Qred match Qcompare x 0 with
       | Eq => 0
       | Gt => roundPositive x
       | Lt => - roundPositive (- x)
       end.

(** [a - b], [a * b] and [a / b]. *)
Definition sub (a b : Q) : Q := number (number a - number b).
Definition mul (a b : Q) : Q := number (number a * number b).
Definition div (a b : Q) : Q := number (number a / number b).

Definition isDouble (x : Q) : bool := Qeq_bool (number x) x.

(** *** Number::toString on a whole number

    Below 10^21 the digits of the number.  From 10^21 on, the exponent
    form: the fewest significant digits [s] (at most 17) with a power of ten
    [p] such that [s * 10^p] rounds to the number, the closest such [s]
    where there are two, written [d.ddde+NN]. *)

Definition roundsTo (n v : Z) : bool :=
  Qeq_bool (number (inject_Z v)) (inject_Z n).

(** The mantissa for the power of ten [p], when there is one: the
    candidates are the two multiples of [10^p] around [n]. *)
Definition candidate (n p : Z) : option Z :=
  let lo := (n / 10 ^ p)%Z in
  let hi := (lo + 1)%Z in
  match roundsTo n (lo * 10 ^ p) && (0 <=? p)%Z,
        roundsTo n (hi * 10 ^ p) && (0 <=? p)%Z with
  | true, true =>
      Some match Z.compare (n - lo * 10 ^ p) (hi * 10 ^ p - n) with
           | Lt => lo
           | Gt => hi
           | Eq => if Z.even lo then lo else hi
           end
  | true, false => Some lo
  | false, true => Some hi
  | false, false => None
  end.

(** The search from [k] significant digits upwards; [nd] is the number of
    digits of [n]. *)
Fixpoint shortest (fuel : nat) (k n nd : Z) : Z * Z :=
  match fuel with
  | O => (n, 0%Z)
  | S fuel' =>
      match candidate n (nd - k) with
      | Some s => (s, (nd - k)%Z)
      | None => shortest fuel' (k + 1) n nd
      end
  end.

Fixpoint stripZeros (fuel : nat) (s p : Z) : Z * Z :=
  match fuel with
  | O => (s, p)
  | S fuel' =>
      if (s mod 10 =? 0)%Z && negb (s =? 0)%Z
      then stripZeros fuel' (s / 10) (p + 1)
      else (s, p)
  end.

Definition exponentForm (digits : string) (e : Z) : string :=
  match digits with
  | EmptyString => EmptyString
  | String first rest =>
      String first
        (match rest with EmptyString => EmptyString | _ => "." +:+ rest end
         +:+ "e+" +:+ pretty e)
  end.

Definition exponential (n : Z) : string :=
  let nd := Z.of_nat (String.length (pretty n)) in
  let '(s, p) := shortest 17 1 n nd in
  let '(s, p) := stripZeros (String.length (pretty s)) s p in
  let digits := pretty s in
  exponentForm digits (Z.of_nat (String.length digits) - 1 + p).

(** The rendering of the number [n].  A whole [n] that is no double is not
    a value the program can hold; it is given its digits, which keeps the
    rendering one-to-one. *)
Definition integerToString (n : Z) : string :=
  if (Z.abs n <? 10 ^ 21)%Z then pretty n
  else if isDouble (inject_Z n)
       then (if (n <? 0)%Z then "-" else "") +:+ exponential (Z.abs n)
       else pretty n.

(** Whether the letter e occurs in a string. *)
Fixpoint hasExponent (s : string) : bool :=
  match s with
  | EmptyString => false
  | String c rest => Ascii.eqb c (Ascii.ascii_of_nat 101) || hasExponent rest
  end.

(** What the search for digits returns: a mantissa and a power of ten that
    stand for a number rounding to [n]. *)
Definition standsFor (n s p : Z) : Prop :=
  (0 <= s)%Z /\ (0 <= p)%Z
  /\ number (inject_Z (s * 10 ^ p)) == inject_Z n.

End Js.

(** ** SLOEvaluator *)
Module SLOEvaluator.

Inductive Percentile := P999 | P99 | P90 | Median.

Definition percentileName (p : Percentile) : string :=
  match p with
  | P999 => "p999"
  | P99 => "p99"
  | P90 => "p90"
  | Median => "median"
  end.

Record SLOConfig := {
  percentile : Percentile;
  latency_ms : Q
}.

Record ObservabilityMetrics := {
  p999 : Q;
  p99 : Q;
  p90 : Q;
  median : Q
}.

Record SLOViolation := {
  v_percentile : Percentile;
  expected_max_ms : Q;
  actual_ms : Q;
  violation_margin_ms : Q
}.

Record SLOEvaluationResult := {
  passed : bool;
  violations : list SLOViolation;
  polling_interval_seconds : option Z;
  summary : string
}.

(** [a > b] on numbers. *)
Definition gtb (a b : Q) : bool := negb (Qle_bool a b).

Definition getMetricValue (metrics : ObservabilityMetrics) (p : Percentile) : Q :=
  match p with
  | P999 => p999 metrics
  | P99 => p99 metrics
  | P90 => p90 metrics
  | Median => median metrics
  end.

(** The [for (const slo of sloConfigs)] loop, pushing in order. *)
Fixpoint checkEach (sloConfigs : list SLOConfig) (metrics : ObservabilityMetrics)
  : list SLOViolation :=
  match sloConfigs with
  | [] => []
  | slo :: rest =>
      let actualValue := getMetricValue metrics (percentile slo) in
      if gtb actualValue (latency_ms slo)
      then {| v_percentile := percentile slo;
              expected_max_ms := latency_ms slo;
              actual_ms := actualValue;
              violation_margin_ms := Js.sub actualValue (latency_ms slo) |}
           :: checkEach rest metrics
      else checkEach rest metrics
  end.

Section Rendering.
Context `{JsFormat}.

Definition renderViolation (v : SLOViolation) : string :=
  percentileName (v_percentile v) +:+ " " +:+ numberToString (actual_ms v)
  +:+ "ms > " +:+ numberToString (expected_max_ms v) +:+ "ms (+"
  +:+ numberToString (violation_margin_ms v) +:+ "ms)".

Definition evaluateSLOs (sloConfigs : list SLOConfig) (metrics : ObservabilityMetrics)
  : SLOEvaluationResult :=
  let violations := checkEach sloConfigs metrics in
  let passed := Nat.eqb (length violations) 0 in
  let summary :=
    if passed
    then "All " +:+ pretty (length sloConfigs) +:+ " SLO(s) passed"
    else pretty (length violations) +:+ " of " +:+ pretty (length sloConfigs)
         +:+ " SLO(s) violated: "
         +:+ String.concat ", " (map renderViolation violations) in
  {| passed := passed;
     violations := violations;
     polling_interval_seconds := None;
     summary := summary |}.

End Rendering.

(** A field of an entry of [plan.slos], as far as the parser tells values
    apart: a string, a number, or anything else (an absent field, [null], a
    boolean, an object). *)
Inductive RawField :=
  | rawString (s : string)
  | rawNumber (x : Q)
  | rawOther.

Record RawObject := {
  raw_percentile : RawField;
  raw_latency_ms : RawField
}.

(** An entry of [plan.slos] ([any] in the source): [null], whose [typeof]
    is ["object"] and on which reading [slo.percentile] throws a TypeError;
    a value that is no object, which the parser skips; or an object, of
    which the parser reads the two fields. *)
Inductive RawSLO :=
  | rawNull
  | rawPrimitive
  | rawObject (fields : RawObject).

Definition percentileOfName (s : string) : option Percentile :=
  if String.eqb s "p999" then Some P999
  else if String.eqb s "p99" then Some P99
  else if String.eqb s "p90" then Some P90
  else if String.eqb s "median" then Some Median
  else None.

Definition truthyString (s : string) : bool := negb (String.eqb s "").
Definition truthyNumber (x : Q) : bool := negb (Qeq_bool x 0).

(** The body of the loop on an object: the config pushed, if any.  A
    percentile that is no string is none of the four names, and a latency
    that is no number fails the [typeof] test. *)
Definition parsedEntry (slo : RawObject) : option SLOConfig :=
  match raw_percentile slo, raw_latency_ms slo with
  | rawString name, rawNumber latency =>
      if truthyString name && truthyNumber latency
      then match percentileOfName name with
           | Some p =>
               if gtb latency 0
               then Some {| percentile := p; latency_ms := latency |}
               else None
           | None => None
           end
      else None
  | _, _ => None
  end.

(** [None] is the TypeError thrown at a [null] entry. *)
Fixpoint parseSLOsFromPlan (slos : list RawSLO) : option (list SLOConfig) :=
  match slos with
  | [] => Some []
  | rawNull :: _ => None
  | rawPrimitive :: rest => parseSLOsFromPlan rest
  | rawObject slo :: rest =>
      match parseSLOsFromPlan rest with
      | Some parsedSLOs =>
          Some match parsedEntry slo with
               | Some config => config :: parsedSLOs
               | None => parsedSLOs
               end
      | None => None
      end
  end.

End SLOEvaluator.

(** ** StageStorage *)
Module StageStorage.

(** Modelled from the spec: the states of [ReleaseStage] in types/api, which
    is not among the sources (section 4.2; the same six names appear in the
    transition keys of [getVerboseStateMessage]). *)
Inductive StageState :=
  | queued | running | awaiting_approval
  | done_successful | done_failed | done_cancelled.

#[export] Instance StageState_eq_dec : EqDecision StageState.
Proof. solve_decision. Defined.

Definition stateName (s : StageState) : string :=
  match s with
  | queued => "queued"
  | running => "running"
  | awaiting_approval => "awaiting_approval"
  | done_successful => "done_successful"
  | done_failed => "done_failed"
  | done_cancelled => "done_cancelled"
  end.

(** Modelled from the spec: the type [ReleaseStage] of types/api (section
    3); the fields are those of the object that [POST /release/create]
    passes to [initialize]. *)
Record Stage := {
  id : string;
  order : Z;
  releaseId : string;
  state : StageState;
  time_started : option Z;
  time_elapsed : Z;
  time_done : option Z;
  logs : string
}.

(** [Partial<Stage>]: the fields an update carries. *)
Record StageUpdates := {
  u_id : option string;
  u_order : option Z;
  u_releaseId : option string;
  u_state : option StageState;
  u_time_started : option (option Z);
  u_time_elapsed : option Z;
  u_time_done : option (option Z);
  u_logs : option string
}.

(** [{ ...stage, ...updates }] *)
Definition spread (stage : Stage) (updates : StageUpdates) : Stage :=
  {| id := default (id stage) (u_id updates);
     order := default (order stage) (u_order updates);
     releaseId := default (releaseId stage) (u_releaseId updates);
     state := default (state stage) (u_state updates);
     time_started := default (time_started stage) (u_time_started updates);
     time_elapsed := default (time_elapsed stage) (u_time_elapsed updates);
     time_done := default (time_done stage) (u_time_done updates);
     logs := default (logs stage) (u_logs updates) |}.

(** Assignments to one field. *)
Definition set_state (v : StageState) (stage : Stage) : Stage :=
  {| id := id stage; order := order stage; releaseId := releaseId stage;
     state := v; time_started := time_started stage;
     time_elapsed := time_elapsed stage; time_done := time_done stage;
     logs := logs stage |}.

Definition set_time_started (v : option Z) (stage : Stage) : Stage :=
  {| id := id stage; order := order stage; releaseId := releaseId stage;
     state := state stage; time_started := v;
     time_elapsed := time_elapsed stage; time_done := time_done stage;
     logs := logs stage |}.

Definition set_time_elapsed (v : Z) (stage : Stage) : Stage :=
  {| id := id stage; order := order stage; releaseId := releaseId stage;
     state := state stage; time_started := time_started stage;
     time_elapsed := v; time_done := time_done stage;
     logs := logs stage |}.

Definition set_time_done (v : option Z) (stage : Stage) : Stage :=
  {| id := id stage; order := order stage; releaseId := releaseId stage;
     state := state stage; time_started := time_started stage;
     time_elapsed := time_elapsed stage; time_done := v;
     logs := logs stage |}.

Definition set_logs (v : string) (stage : Stage) : Stage :=
  {| id := id stage; order := order stage; releaseId := releaseId stage;
     state := state stage; time_started := time_started stage;
     time_elapsed := time_elapsed stage; time_done := time_done stage;
     logs := v |}.

(** The update [{ logs: l }]. *)
Definition logsOnly (l : string) : StageUpdates :=
  {| u_id := None; u_order := None; u_releaseId := None; u_state := None;
     u_time_started := None; u_time_elapsed := None; u_time_done := None;
     u_logs := Some l |}.

(** The storage of one StageStorage object: the value under ["main"] and
    the instant of the pending alarm. *)
Record Storage := {
  main : option Stage;
  alarmAt : option Z
}.

Definition empty : Storage := {| main := None; alarmAt := None |}.

Definition ALARM_INTERVAL : Z := 1000.

Definition get (st : Storage) : option Stage := main st.

Definition save (stage : Stage) (st : Storage) : Storage :=
  {| main := Some stage; alarmAt := alarmAt st |}.

Definition calculateElapsedTime (now : Z) (startTime : Z) (endTime : option Z) : Z :=
  let start := startTime in
  let end_ := match endTime with Some e => e | None => now end in
  ((end_ - start) / 1000)%Z.

Definition setAlarmIfNeeded (now : Z) (st : Storage) : Storage :=
  {| main := main st; alarmAt := Some (now + ALARM_INTERVAL)%Z |}.

Definition clearAlarmIfNeeded (st : Storage) : Storage :=
  {| main := main st; alarmAt := None |}.

Definition handleStateTransition (now : Z) (stage : Stage) (newState : StageState)
    (st : Storage) : Stage * Storage :=
  let updatedStage := set_state newState stage in
  let '(updatedStage, st) :=
    if bool_decide (newState = running) && bool_decide (state stage = queued)
    then (set_time_elapsed 0 (set_time_started (Some now) updatedStage),
          setAlarmIfNeeded now st)
    else (updatedStage, st) in
  if (bool_decide (newState = done_failed) || bool_decide (newState = done_successful))
     && (bool_decide (state stage = running)
         || bool_decide (state stage = awaiting_approval))
  then
    let updatedStage := set_time_done (Some now) updatedStage in
    let updatedStage :=
      match time_started stage with
      | Some started =>
          set_time_elapsed (calculateElapsedTime now started (Some now)) updatedStage
      | None => updatedStage
      end in
    (updatedStage, clearAlarmIfNeeded st)
  else (updatedStage, st).

Definition initialize (stage : Stage) (st : Storage) : Stage * Storage :=
  (stage, save stage st).

(** [state.startsWith("done_")] *)
Definition startsWithDone (s : StageState) : bool :=
  String.prefix "done_" (stateName s).

Definition getVerboseStateMessage (newState : StageState) (previousState : StageState)
  : option string :=
  match previousState, newState with
  | queued, running => Some "🚀 Stage started - beginning soak period"
  | running, awaiting_approval =>
      Some "⏸️ Stage soak period completed - awaiting manual approval to continue"
  | awaiting_approval, running => Some "✅ Stage approved by user - continuing"
  | running, done_successful =>
      Some "🎉 Stage completed successfully and auto progressed"
  | awaiting_approval, done_successful => Some "🎉 Stage completed successfully"
  | running, done_failed => Some "❌ Stage failed SLOs"
  | awaiting_approval, done_cancelled =>
      Some "🚫 Stage cancelled by user - release stopped"
  | awaiting_approval, done_failed => Some "❌ Stage failed while awaiting approval"
  | queued, done_failed => Some "❌ Previous stage failed. This stage will not run."
  | queued, done_cancelled =>
      Some "🚫 Previous stage failed or cancelled. This stage will not run."
  | _, _ => None
  end.

Definition newline : string := String (Ascii.ascii_of_nat 10) EmptyString.

Section Logging.
Context `{JsFormat}.

Definition logEntry (now : Z) (message : string) : string :=
  newline +:+ "[" +:+ toISOString now +:+ "] " +:+ message.

Definition updateStage (now : Z) (updates : StageUpdates) (st : Storage)
  : option Stage * Storage :=
  match get st with
  | None => (None, st)
  | Some stage =>
      let previousState := state stage in
      let partiallyUpdated := spread stage updates in
      let newState := state partiallyUpdated in
      let '(updatedStage, st) :=
        if negb (bool_decide (previousState = newState))
        then handleStateTransition now stage newState st
        else (partiallyUpdated, st) in
      let finalStage := spread updatedStage updates in
      (Some finalStage, save finalStage st)
  end.

(** [addLog] from the point where its [await this.get()] has produced
    [read]. *)
Definition addLogAfterGet (read : option Stage) (now : Z) (message : string)
    (st : Storage) : option Stage * Storage :=
  match read with
  | None => (None, st)
  | Some stage =>
      let updatedLogs := logs stage +:+ logEntry now message in
      updateStage now (logsOnly updatedLogs) st
  end.

Definition addLog (now : Z) (message : string) (st : Storage)
  : option Stage * Storage :=
  addLogAfterGet (get st) now message st.

(** [updateStageState] calls [this.addLog] without awaiting it.  The
    storage serves operations in the order they are issued: the read of
    [addLog] is issued before the [save] of [updateStageState] and sees the
    stage as it was, and the rest of [addLog] runs once that [save] is
    done. *)
Definition updateStageState (now : Z) (newState : StageState) (logs_ : option string)
    (st : Storage) : option Stage * Storage :=
  match get st with
  | None => (None, st)
  | Some stage =>
      let '(updatedStage, st) := handleStateTransition now stage newState st in
      let newLogs :=
        match logs_ with
        | Some l => if SLOEvaluator.truthyString l then l else logs stage
        | None => logs stage
        end in
      let updatedStage := set_logs newLogs updatedStage in
      let verboseLogMessage := getVerboseStateMessage newState (state stage) in
      let st := save updatedStage st in
      let st :=
        match verboseLogMessage with
        | Some message => snd (addLogAfterGet (Some stage) now message st)
        | None => st
        end in
      (Some updatedStage, st)
  end.

Inductive Command := approve | deny.

Definition progressStage (now : Z) (command : Command) (st : Storage)
  : option Stage * Storage :=
  match get st with
  | None => (None, st)
  | Some stage =>
      let newState :=
        match command with approve => done_successful | deny => done_cancelled end in
      let message :=
        match command with
        | approve => "Stage approved."
        | deny => "Stage not approved. Cancelling release..."
        end in
      let logs_ := logs stage +:+ logEntry now message in
      updateStageState now newState (Some logs_) st
  end.

End Logging.

(** The alarm that fires is no longer pending while its handler runs. *)
Definition alarm (now : Z) (st : Storage) : Storage :=
  let st := clearAlarmIfNeeded st in
  match get st with
  | None => st
  | Some stage =>
      match time_started stage with
      | Some started =>
          if bool_decide (state stage = running)
          then
            let elapsedSeconds := calculateElapsedTime now started None in
            let updatedStage := set_time_elapsed elapsedSeconds stage in
            {| main := Some updatedStage; alarmAt := Some (now + 1000)%Z |}
          else st
      | None => st
      end
  end.

End StageStorage.

(** ** PlanStorage *)
Module PlanStorage.

(** Modelled from the spec: the types [PlanStage] and [Plan] of types/api
    (section 3); the fields are those of the default plan below. *)
Record PlanStage := {
  order : Z;
  description : string;
  target_percent : Z;
  soak_time : Z;
  auto_progress : bool
}.

Record Plan := {
  stages : list PlanStage;
  slos : list SLOEvaluator.RawSLO;
  worker_name : string;
  polling_fraction : Q;
  time_last_saved : option Z
}.

(** The value stored under ["main"]. *)
Definition Storage := option Plan.

Definition empty : Storage := None.

Definition defaultPlan : Plan :=
  {| stages :=
       [ {| order := 1; description := ""; target_percent := 10;
            soak_time := 60; auto_progress := false |};
         {| order := 2; description := ""; target_percent := 50;
            soak_time := 60; auto_progress := false |};
         {| order := 3; description := ""; target_percent := 100;
            soak_time := 60; auto_progress := false |} ];
     slos := [ SLOEvaluator.rawObject
                 {| SLOEvaluator.raw_percentile := SLOEvaluator.rawString "p999";
                    SLOEvaluator.raw_latency_ms := SLOEvaluator.rawNumber 100 |} ];
     worker_name := "my-worker";
     polling_fraction := 0.5;
     time_last_saved := None |}.

Definition get (st : Storage) : Plan * Storage :=
  match st with
  | Some plan => (plan, st)
  | None => (defaultPlan, Some defaultPlan)
  end.

Definition updatePlan (now : Z) (plan : Plan) (st : Storage) : Plan * Storage :=
  let _plan :=
    {| stages := stages plan; slos := slos plan; worker_name := worker_name plan;
       polling_fraction := polling_fraction plan;
       time_last_saved := Some now |} in
  (_plan, Some _plan).

End PlanStorage.

(** ** ReleaseHistory *)
Module ReleaseHistory.

(** Modelled from the spec: the states of [Release] in types/api (section
    4.1). *)
Inductive ReleaseState :=
  | not_started | running
  | done_successful | done_stopped_manually | done_failed_slo | error.

#[export] Instance ReleaseState_eq_dec : EqDecision ReleaseState.
Proof. solve_decision. Defined.

Definition stateName (s : ReleaseState) : string :=
  match s with
  | not_started => "not_started"
  | running => "running"
  | done_successful => "done_successful"
  | done_stopped_manually => "done_stopped_manually"
  | done_failed_slo => "done_failed_slo"
  | error => "error"
  end.

(** Modelled from the spec: the types [StageRef] and [Release] of types/api
    (section 3); the fields are those of the object that
    [POST /release/create] builds. *)
Module StageRef.
Record t := { id : string; order : Z }.
End StageRef.

Record Release := {
  id : string;
  state : ReleaseState;
  plan_record : PlanStorage.Plan;
  old_version : string;
  new_version : string;
  stages : list StageRef.t;
  time_created : Z;
  time_started : option Z;
  time_elapsed : Z;
  time_done : option Z
}.

Definition set_state (v : ReleaseState) (r : Release) : Release :=
  {| id := id r; state := v; plan_record := plan_record r;
     old_version := old_version r; new_version := new_version r;
     stages := stages r; time_created := time_created r;
     time_started := time_started r; time_elapsed := time_elapsed r;
     time_done := time_done r |}.

Definition set_time_started (v : option Z) (r : Release) : Release :=
  {| id := id r; state := state r; plan_record := plan_record r;
     old_version := old_version r; new_version := new_version r;
     stages := stages r; time_created := time_created r;
     time_started := v; time_elapsed := time_elapsed r;
     time_done := time_done r |}.

Definition set_time_elapsed (v : Z) (r : Release) : Release :=
  {| id := id r; state := state r; plan_record := plan_record r;
     old_version := old_version r; new_version := new_version r;
     stages := stages r; time_created := time_created r;
     time_started := time_started r; time_elapsed := v;
     time_done := time_done r |}.

Definition set_time_done (v : option Z) (r : Release) : Release :=
  {| id := id r; state := state r; plan_record := plan_record r;
     old_version := old_version r; new_version := new_version r;
     stages := stages r; time_created := time_created r;
     time_started := time_started r; time_elapsed := time_elapsed r;
     time_done := v |}.

(** The storage of the ReleaseHistory object: the [releases] of the value
    under ["history"] and the instant of the pending alarm. *)
Record Storage := {
  history : option (list Release);
  alarmAt : option Z
}.

Definition empty : Storage := {| history := None; alarmAt := None |}.

Definition MAX_RELEASES : nat := 100.
Definition ALARM_INTERVAL : Z := 1000.

Definition getReleaseHistory (st : Storage) : list Release :=
  default [] (history st).

Definition saveReleaseHistory (releases : list Release) (st : Storage) : Storage :=
  {| history := Some releases; alarmAt := alarmAt st |}.

(** [releases.findIndex((r) => r.id === id)], [None] for -1. *)
Fixpoint findIndex (id_ : string) (releases : list Release) : option nat :=
  match releases with
  | [] => None
  | r :: rest =>
      if String.eqb (id r) id_ then Some O else S <$> findIndex id_ rest
  end.

Definition findReleaseIndex (id_ : string) (st : Storage)
  : list Release * option nat :=
  let releases := getReleaseHistory st in
  (releases, findIndex id_ releases).

Definition calculateElapsedTime (now : Z) (startTime : Z) (endTime : option Z) : Z :=
  let start := startTime in
  let end_ := match endTime with Some e => e | None => now end in
  ((end_ - start) / 1000)%Z.

Definition setAlarmIfNeeded (now : Z) (st : Storage) : Storage :=
  {| history := history st; alarmAt := Some (now + ALARM_INTERVAL)%Z |}.

Definition clearAlarmIfNeeded (st : Storage) : Storage :=
  {| history := history st; alarmAt := None |}.

Definition startsWithDone (s : ReleaseState) : bool :=
  String.prefix "done_" (stateName s).

Definition handleStateTransition (now : Z) (release : Release)
    (previousState newState : ReleaseState) (st : Storage) : Release * Storage :=
  let updatedRelease := release in
  let '(updatedRelease, st) :=
    if negb (bool_decide (previousState = running))
       && bool_decide (newState = running)
    then (set_time_elapsed 0 (set_time_started (Some now) updatedRelease),
          setAlarmIfNeeded now st)
    else (updatedRelease, st) in
  let '(updatedRelease, st) :=
    if bool_decide (previousState = running) && startsWithDone newState
    then
      let updatedRelease :=
        match time_done updatedRelease with
        | None => set_time_done (Some now) updatedRelease
        | Some _ => updatedRelease
        end in
      let updatedRelease :=
        match time_started updatedRelease with
        | Some started =>
            set_time_elapsed
              (calculateElapsedTime now started (time_done updatedRelease))
              updatedRelease
        | None => updatedRelease
        end in
      (updatedRelease, clearAlarmIfNeeded st)
    else (updatedRelease, st) in
  (set_state newState updatedRelease, st).

Definition trimReleaseHistory (releases : list Release) : list Release :=
  if Nat.ltb MAX_RELEASES (length releases)
  then take MAX_RELEASES releases
  else releases.

Definition createRelease (release : Release) (st : Storage) : Release * Storage :=
  let releases := getReleaseHistory st in
  let releases := release :: releases in
  let releases := trimReleaseHistory releases in
  (release, saveReleaseHistory releases st).

Definition addRelease (release : Release) (st : Storage) : Storage :=
  snd (createRelease release st).

(** [updateRelease] throws when the id is unknown: [None]. *)
Definition updateRelease (now : Z) (id_ : string) (release : Release) (st : Storage)
  : option Release * Storage :=
  match findReleaseIndex id_ st with
  | (_, None) => (None, st)
  | (releases, Some index) =>
      match releases !! index with
      | None => (None, st)
      | Some stored =>
          let previousState := state stored in
          let '(updatedRelease, st) :=
            handleStateTransition now release previousState (state release) st in
          (Some updatedRelease,
           saveReleaseHistory (<[index := updatedRelease]> releases) st)
      end
  end.

Definition updateReleaseState (now : Z) (id_ : string) (state_ : ReleaseState)
    (st : Storage) : bool * Storage :=
  match findReleaseIndex id_ st with
  | (_, None) => (false, st)
  | (releases, Some index) =>
      match releases !! index with
      | None => (false, st)
      | Some stored =>
          let previousState := state stored in
          let '(updatedRelease, st) :=
            handleStateTransition now stored previousState state_ st in
          (true, saveReleaseHistory (<[index := updatedRelease]> releases) st)
      end
  end.

Definition isActive (release : Release) : bool :=
  bool_decide (state release = not_started)
  || bool_decide (state release = running).

Definition getActiveRelease (st : Storage) : option Release :=
  List.find isActive (getReleaseHistory st).

Definition hasActiveRelease (st : Storage) : bool :=
  match getActiveRelease st with Some _ => true | None => false end.

Definition getAllReleases (st : Storage) : list Release :=
  getReleaseHistory st.

(** The alarm that fires is no longer pending while its handler runs. *)
Definition alarm (now : Z) (st : Storage) : Storage :=
  let st := clearAlarmIfNeeded st in
  let releases := getReleaseHistory st in
  let tick (release : Release) : Release :=
    match time_started release with
    | Some started =>
        if bool_decide (state release = running)
        then set_time_elapsed (calculateElapsedTime now started None) release
        else release
    | None => release
    end in
  let hasRunningRelease :=
    existsb (fun release =>
               bool_decide (state release = running)
               && match time_started release with Some _ => true | None => false end)
            releases in
  let st := saveReleaseHistory (map tick releases) st in
  if hasRunningRelease then setAlarmIfNeeded now st else st.

Definition getRelease (id_ : string) (st : Storage) : option Release :=
  List.find (fun release => String.eqb (id release) id_) (getReleaseHistory st).

Definition removeRelease (id_ : string) (st : Storage) : bool * Storage :=
  let releases := getReleaseHistory st in
  let initialLength := length releases in
  let releases :=
    List.filter (fun release => negb (String.eqb (id release) id_)) releases in
  if Nat.ltb (length releases) initialLength
  then (true, saveReleaseHistory releases st)
  else (false, st).

Definition clearHistory (st : Storage) : Storage :=
  saveReleaseHistory [] st.

End ReleaseHistory.

(** ** The bindings of [Cloudflare.Env] *)
Module Env.

Record t := {
  PLAN_STORAGE : gmap string PlanStorage.Storage;
  RELEASE_HISTORY : gmap string ReleaseHistory.Storage;
  STAGE_STORAGE : gmap string StageStorage.Storage
}.

Definition fresh : t :=
  {| PLAN_STORAGE := ∅; RELEASE_HISTORY := ∅; STAGE_STORAGE := ∅ |}.

(** [env.X.get(env.X.idFromName(name))]: the storage behind the stub. *)
Definition getPlanStorage (env : t) (connectionId : string) : PlanStorage.Storage :=
  default PlanStorage.empty (PLAN_STORAGE env !! connectionId).

Definition getReleaseHistory (env : t) (connectionId : string)
  : ReleaseHistory.Storage :=
  default ReleaseHistory.empty (RELEASE_HISTORY env !! connectionId).

Definition getStageStorage (env : t) (stageId : string) : StageStorage.Storage :=
  default StageStorage.empty (STAGE_STORAGE env !! stageId).

Definition setPlanStorage (connectionId : string) (st : PlanStorage.Storage)
    (env : t) : t :=
  {| PLAN_STORAGE := <[connectionId := st]> (PLAN_STORAGE env);
     RELEASE_HISTORY := RELEASE_HISTORY env;
     STAGE_STORAGE := STAGE_STORAGE env |}.

Definition setReleaseHistory (connectionId : string) (st : ReleaseHistory.Storage)
    (env : t) : t :=
  {| PLAN_STORAGE := PLAN_STORAGE env;
     RELEASE_HISTORY := <[connectionId := st]> (RELEASE_HISTORY env);
     STAGE_STORAGE := STAGE_STORAGE env |}.

Definition setStageStorage (stageId : string) (st : StageStorage.Storage)
    (env : t) : t :=
  {| PLAN_STORAGE := PLAN_STORAGE env;
     RELEASE_HISTORY := RELEASE_HISTORY env;
     STAGE_STORAGE := <[stageId := st]> (STAGE_STORAGE env) |}.

(** A method call on a stub: run it on the storage and keep what it leaves. *)
Definition onPlanStorage {A} (connectionId : string)
    (method : PlanStorage.Storage -> A * PlanStorage.Storage) (env : t) : A * t :=
  let '(a, st) := method (getPlanStorage env connectionId) in
  (a, setPlanStorage connectionId st env).

Definition onReleaseHistory {A} (connectionId : string)
    (method : ReleaseHistory.Storage -> A * ReleaseHistory.Storage) (env : t)
  : A * t :=
  let '(a, st) := method (getReleaseHistory env connectionId) in
  (a, setReleaseHistory connectionId st env).

Definition onStageStorage {A} (stageId : string)
    (method : StageStorage.Storage -> A * StageStorage.Storage) (env : t) : A * t :=
  let '(a, st) := method (getStageStorage env stageId) in
  (a, setStageStorage stageId st env).

End Env.

(** ** The routes that save a plan and create and delete a release *)
Module Api.
Import PlanStorage ReleaseHistory.

Definition getStageId (releaseId : string) (stageOrder : Z) : string :=
  "release-" +:+ releaseId +:+ "-order-" +:+ Js.integerToString stageOrder.

Definition quote : string := String (Ascii.ascii_of_nat 34) EmptyString.

Inductive Response :=
  | jsonMessage (status : Z) (message : string)
  | jsonPlan (status : Z) (plan : Plan)
  | jsonRelease (status : Z) (release : Release)
  | text (status : Z) (body : string).

(** A property that must be an array: missing or falsy, present but not an
    array, or an array. *)
Inductive ArrayField (A : Type) :=
  | missing
  | notAnArray
  | array (items : list A).
Arguments missing {A}.
Arguments notAnArray {A}.
Arguments array {A} items.

Record PlanBody := {
  body_stages : ArrayField PlanStage;
  body_slos : ArrayField SLOEvaluator.RawSLO;
  body_worker_name : string;
  body_polling_fraction : Q;
  body_time_last_saved : option Z
}.

Record PutPlanBody := {
  put_connectionId : option string;
  put_plan : option PlanBody
}.

Definition truthy (s : option string) : bool :=
  match s with Some v => SLOEvaluator.truthyString v | None => false end.

(** The [validator] of [PUT /plan]: the error response, or the connection
    and the plan the handler receives. *)
Definition putPlanValidator (body : PutPlanBody) : Response + (string * Plan) :=
  match put_connectionId body with
  | Some connectionId =>
      if SLOEvaluator.truthyString connectionId
      then
        match put_plan body with
        | Some plan =>
            match body_stages plan, body_slos plan with
            | array stages_, array slos_ =>
                inr (connectionId,
                     {| PlanStorage.stages := stages_; slos := slos_;
                        worker_name := body_worker_name plan;
                        polling_fraction := body_polling_fraction plan;
                        time_last_saved := body_time_last_saved plan |})
            | _, _ =>
                inl (jsonMessage 400
                       "Invalid plan: must include stages and slos arrays")
            end
        | None =>
            inl (jsonMessage 400
                   "Invalid plan: must include stages and slos arrays")
        end
      else inl (jsonMessage 400 "Missing required connectionId field")
  | None => inl (jsonMessage 400 "Missing required connectionId field")
  end.

Definition putPlan (now : Z) (body : PutPlanBody) (env : Env.t) : Response * Env.t :=
  match putPlanValidator body with
  | inl response => (response, env)
  | inr (connectionId, plan) =>
      let '(updatedPlan, env) :=
        Env.onPlanStorage connectionId (updatePlan now plan) env in
      (jsonPlan 200 updatedPlan, env)
  end.

Record CreateBody := {
  create_connectionId : option string;
  create_old_version : option string;
  create_new_version : option string
}.

(** [old_version || ""] *)
Definition orEmpty (s : option string) : string := default "" s.

(** The loop that initializes one StageStorage per plan stage. *)
Fixpoint initializeStages (releaseId_ : string) (planStages : list PlanStage)
    (env : Env.t) : Env.t :=
  match planStages with
  | [] => env
  | planStage :: rest =>
      let stageId := getStageId releaseId_ (PlanStorage.order planStage) in
      let '(_, env) :=
        Env.onStageStorage stageId
          (StageStorage.initialize
             {| StageStorage.id := stageId;
                StageStorage.order := PlanStorage.order planStage;
                StageStorage.releaseId := releaseId_;
                StageStorage.state := StageStorage.queued;
                StageStorage.time_started := None;
                StageStorage.time_elapsed := 0;
                StageStorage.time_done := None;
                StageStorage.logs := "" |})
          env in
      initializeStages releaseId_ rest env
  end.

(** [POST /release/create]; [releaseId_] is the identifier drawn from
    [crypto.randomUUID()]. *)
Definition postReleaseCreate (now : Z) (releaseId_ : string) (body : CreateBody)
    (env : Env.t) : Response * Env.t :=
  match create_connectionId body with
  | Some connectionId =>
      if SLOEvaluator.truthyString connectionId
      then
        let releaseHistory := Env.getReleaseHistory env connectionId in
        if hasActiveRelease releaseHistory
        then (jsonMessage 409 "A release is already staged", env)
        else
          let '(plan, env) := Env.onPlanStorage connectionId PlanStorage.get env in
          let currentTime := now in
          let newRelease :=
            {| id := releaseId_;
               state := not_started;
               plan_record := plan;
               old_version := orEmpty (create_old_version body);
               new_version := orEmpty (create_new_version body);
               stages :=
                 map (fun stage =>
                        {| StageRef.id :=
                             getStageId releaseId_ (PlanStorage.order stage);
                           StageRef.order := PlanStorage.order stage |})
                     (PlanStorage.stages plan);
               time_created := currentTime;
               time_started := None;
               time_elapsed := 0;
               time_done := None |} in
          let env := initializeStages releaseId_ (PlanStorage.stages plan) env in
          let '(createdRelease, env) :=
            Env.onReleaseHistory connectionId (createRelease newRelease) env in
          (jsonRelease 200 createdRelease, env)
      else
        (jsonMessage 400
           "Missing required connection fields: connectionId is required", env)
  | None =>
      (jsonMessage 400
         "Missing required connection fields: connectionId is required", env)
  end.

(** [DELETE /release/active] *)
Definition deleteReleaseActive (connectionId_ : option string) (env : Env.t)
  : Response * Env.t :=
  match connectionId_ with
  | Some connectionId =>
      if SLOEvaluator.truthyString connectionId
      then
        let releaseHistory := Env.getReleaseHistory env connectionId in
        match getActiveRelease releaseHistory with
        | None => (jsonMessage 404 "No active release found", env)
        | Some activeRelease =>
            if negb (bool_decide (state activeRelease = not_started))
            then (jsonMessage 409
                    ("Release has to be in a " +:+ quote +:+ "not_started"
                     +:+ quote +:+ " state"), env)
            else
              let '(deleted, env) :=
                Env.onReleaseHistory connectionId
                  (removeRelease (id activeRelease)) env in
              if negb deleted
              then (jsonMessage 404 "Release not found", env)
              else (text 200 "Release deleted", env)
        end
      else (jsonMessage 400 "Missing required field: connectionId is required", env)
  | None => (jsonMessage 400 "Missing required field: connectionId is required", env)
  end.

End Api.

(** ** ReleaseWorkflow *)
Module ReleaseWorkflow.
Import PlanStorage ReleaseHistory.

Record ReleaseWorkflowParams := {
  releaseId : string;
  accountId : string;
  workerName : string;
  apiToken : string;
  connectionId : string
}.

(** A call of [client.workers.scripts.deployments.create]. *)
Record Deployment := {
  script_name : string;
  account_id : string;
  versions : list (Z * string);
  annotation : string
}.

(** What the workflow acts on: the Durable Objects, the time, and the
    calls made so far to the deployment API and to the telemetry API (the
    window of each query), oldest first. *)
Record World := {
  env : Env.t;
  clock : Z;
  deployments : list Deployment;
  queries : list (Z * Z)
}.

Definition setEnv (e : Env.t) (w : World) : World :=
  {| env := e; clock := clock w; deployments := deployments w;
     queries := queries w |}.

(** The collaborators of the workflow: whether the deployment API accepts a
    call, what the telemetry API answers for a window ([None] when the
    request fails), what other requests do to the Durable Objects during a
    one-second sleep that ends at the given instant, and the delivery of an
    awaited event ([None] when it never comes): its payload, the instant of
    delivery and the Durable Objects as they are by then. *)
Record Collaborators := {
  deploymentsCreate : Deployment -> bool;
  telemetryQuery : Z -> Z -> option SLOEvaluator.ObservabilityMetrics;
  whileAsleep : Z -> Env.t -> Env.t;
  waitForEvent : string -> Z -> Env.t -> option (StageStorage.Command * Z * Env.t)
}.

(** A run of workflow code returns, throws, or stays suspended on an event
    that never comes. *)
Inductive Outcome (A : Type) :=
  | Returned (a : A)
  | Thrown
  | Suspended.
Arguments Returned {A} a.
Arguments Thrown {A}.
Arguments Suspended {A}.

Definition M (A : Type) : Type := World -> Outcome A * World.

Definition ret {A} (a : A) : M A := fun w => (Returned a, w).

Definition bind {A B} (m : M A) (k : A -> M B) : M B :=
  fun w =>
    match m w with
    | (Returned a, w') => k a w'
    | (Thrown, w') => (Thrown, w')
    | (Suspended, w') => (Suspended, w')
    end.

Definition throw {A} : M A := fun w => (Thrown, w).

(** [try { m } catch { handler; throw error }] *)
Definition catchAndRethrow {A} (m : M A) (handler : M unit) : M A :=
  fun w =>
    match m w with
    | (Thrown, w') =>
        match handler w' with
        | (Returned _, w'') => (Thrown, w'')
        | (Thrown, w'') => (Thrown, w'')
        | (Suspended, w'') => (Suspended, w'')
        end
    | r => r
    end.

Notation "x <- m ;; k" := (bind m (fun x => k))
  (at level 100, m at next level, right associativity).
Notation "m ;;; k" := (bind m (fun _ => k))
  (at level 100, right associativity).

Inductive Verdict := continue | exit.

Section Workflow.
Context `{JsFormat}.
Variable ext : Collaborators.
Variable this : ReleaseWorkflowParams.

(** Calls on the stubs.  A step of the workflow runs its body once. *)
Definition onReleaseHistory {A}
    (method : Z -> ReleaseHistory.Storage -> A * ReleaseHistory.Storage) : M A :=
  fun w =>
    let '(a, e) :=
      Env.onReleaseHistory (connectionId this) (method (clock w)) (env w) in
    (Returned a, setEnv e w).

Definition getRelease (releaseId_ : string) : M (option Release) :=
  fun w =>
    (Returned (ReleaseHistory.getRelease releaseId_
                 (Env.getReleaseHistory (env w) (connectionId this))), w).

Definition onStageStorage {A} (stageId : string)
    (method : Z -> StageStorage.Storage -> A * StageStorage.Storage) : M A :=
  fun w =>
    let '(a, e) := Env.onStageStorage stageId (method (clock w)) (env w) in
    (Returned a, setEnv e w).

Definition stageGet (stageId : string) : M (option StageStorage.Stage) :=
  fun w => (Returned (StageStorage.get (Env.getStageStorage (env w) stageId)), w).

Definition stageName (releaseId_ : string) (stageOrder : Z) : string :=
  "release-" +:+ releaseId_ +:+ "-order-" +:+ Js.integerToString stageOrder.

Definition create (d : Deployment) : M unit :=
  fun w =>
    if deploymentsCreate ext d
    then (Returned tt,
          {| env := env w; clock := clock w;
             deployments := deployments w ++ [d]; queries := queries w |})
    else (Thrown, w).

Definition sleepOneSecond : M unit :=
  fun w =>
    let woke := (clock w + 1000)%Z in
    (Returned tt,
     {| env := whileAsleep ext woke (env w); clock := woke;
        deployments := deployments w; queries := queries w |}).

Definition setDeploymentTarget (releaseId_ : string) (target_percent_ : Z)
    (old_version_id new_version_id : string) : M unit :=
  create {| script_name := workerName this;
            account_id := accountId this;
            versions := [ (target_percent_, new_version_id);
                          ((100 - target_percent_)%Z, old_version_id) ];
            annotation :=
              "Workers HMD Release " +:+ releaseId_ +:+ " - in progress" |}.

Definition finishDeployment (releaseId_ : string) (new_version_id : string)
  : M unit :=
  create {| script_name := workerName this;
            account_id := accountId this;
            versions := [ (100%Z, new_version_id) ];
            annotation :=
              "Workers HMD Release " +:+ releaseId_ +:+ " - complete" |}.

Definition revertDeployment (releaseId_ : string) (old_version_id : string)
  : M unit :=
  create {| script_name := workerName this;
            account_id := accountId this;
            versions := [ (100%Z, old_version_id) ];
            annotation :=
              "Workers HMD Release " +:+ releaseId_ +:+ " - reverted" |}.

Definition getWallTimes (from to : Z) : M SLOEvaluator.ObservabilityMetrics :=
  fun w =>
    let w := {| env := env w; clock := clock w; deployments := deployments w;
                queries := queries w ++ [(from, to)] |} in
    match telemetryQuery ext from to with
    | Some metrics => (Returned metrics, w)
    | None => (Thrown, w)
    end.

Fixpoint updateStagesStateBad (releaseId_ : string) (stages_ : list PlanStage)
    (state_ : StageStorage.StageState) (excludeCompleted : bool) : M unit :=
  match stages_ with
  | [] => ret tt
  | planStage :: rest =>
      let stage := stageName releaseId_ (PlanStorage.order planStage) in
      currentStageData <- stageGet stage ;;
      match currentStageData with
      | Some data =>
          if negb excludeCompleted
             || negb (StageStorage.startsWithDone (StageStorage.state data))
          then
            onStageStorage stage
              (fun now => StageStorage.updateStageState now state_ None) ;;;
            updateStagesStateBad releaseId_ rest state_ excludeCompleted
          else updateStagesStateBad releaseId_ rest state_ excludeCompleted
      | None => updateStagesStateBad releaseId_ rest state_ excludeCompleted
      end
  end.

Definition handleExternalCancellation (releaseId_ : string) (currentStageOrder : Z)
  : M unit :=
  release <- getRelease releaseId_ ;;
  match release with
  | Some release =>
      let remainingStages :=
        List.filter (fun s => (currentStageOrder <=? PlanStorage.order s)%Z)
          (PlanStorage.stages (plan_record release)) in
      updateStagesStateBad releaseId_ remainingStages
        StageStorage.done_cancelled true ;;;
      onReleaseHistory
        (fun now => updateReleaseState now releaseId_ done_stopped_manually) ;;;
      revertDeployment releaseId_ (old_version release)
  | None => ret tt
  end.

Definition handleSLOViolation (releaseId_ : string) (currentStageOrder : Z)
    (currentStageId : string) : M unit :=
  release <- getRelease releaseId_ ;;
  match release with
  | Some release =>
      onStageStorage currentStageId
        (fun now =>
           StageStorage.updateStageState now StageStorage.done_failed None) ;;;
      let remainingStages :=
        List.filter (fun s => (currentStageOrder <? PlanStorage.order s)%Z)
          (PlanStorage.stages (plan_record release)) in
      updateStagesStateBad releaseId_ remainingStages
        StageStorage.done_cancelled true ;;;
      onReleaseHistory
        (fun now => updateReleaseState now releaseId_ done_failed_slo) ;;;
      ret tt
  | None => ret tt
  end.

(** [release?.id || ""] *)
Definition idOrEmpty (release : option Release) : string :=
  match release with Some r => id r | None => "" end.

(** The inner loop of the soak: [j] one-second cancellation checks. *)
Fixpoint checkCancellation (releaseId_ : string) (stageRef : StageRef.t) (j : nat)
  : M Verdict :=
  match j with
  | O => ret continue
  | S j' =>
      release <- getRelease releaseId_ ;;
      if match release with
         | Some r => negb (bool_decide (state r = running))
         | None => true
         end
      then
        handleExternalCancellation (idOrEmpty release) (StageRef.order stageRef) ;;;
        ret exit
      else
        sleepOneSecond ;;;
        checkCancellation releaseId_ stageRef j'
  end.

Definition renderViolationShort (v : SLOEvaluator.SLOViolation) : string :=
  SLOEvaluator.percentileName (SLOEvaluator.v_percentile v) +:+ " "
  +:+ numberToString (SLOEvaluator.actual_ms v) +:+ "ms > "
  +:+ numberToString (SLOEvaluator.expected_max_ms v) +:+ "ms".

(** One polling round: the cancellation checks, then the SLO check.
    [release] is the one read when the soak began. *)
Definition soakRound (releaseId_ : string) (stageRef : StageRef.t)
    (release : option Release) (intervalTimeSeconds : Z) : M Verdict :=
  checked <- checkCancellation releaseId_ stageRef (Z.to_nat intervalTimeSeconds) ;;
  match checked with
  | exit => ret exit
  | continue =>
      now <- (fun w => (Returned (clock w), w)) ;;
      wallTimes <- getWallTimes (now - intervalTimeSeconds * 1000)%Z now ;;
      match release with
      | None => throw
      | Some release =>
          match SLOEvaluator.parseSLOsFromPlan
                  (PlanStorage.slos (plan_record release)) with
          | None => throw
          | Some sloConfigs =>
              if Nat.ltb 0 (length sloConfigs)
              then
                let sloResult := SLOEvaluator.evaluateSLOs sloConfigs wallTimes in
                if negb (SLOEvaluator.passed sloResult)
                then
                  onStageStorage (StageRef.id stageRef)
                    (fun now =>
                       StageStorage.addLog now
                         ("🛑 SLO violations: "
                          +:+ String.concat ", "
                                (map renderViolationShort
                                   (SLOEvaluator.violations sloResult)))) ;;;
                  handleSLOViolation (idOrEmpty (Some release))
                    (StageRef.order stageRef) (StageRef.id stageRef) ;;;
                  ret exit
                else ret continue
              else ret continue
          end
      end
  end.

(** The outer loop of the soak: [i] polling rounds. *)
Fixpoint soakRounds (releaseId_ : string) (stageRef : StageRef.t)
    (release : option Release) (intervalTimeSeconds : Z) (i : nat) : M Verdict :=
  match i with
  | O => ret continue
  | S i' =>
      round <- soakRound releaseId_ stageRef release intervalTimeSeconds ;;
      match round with
      | exit => ret exit
      | continue => soakRounds releaseId_ stageRef release intervalTimeSeconds i'
      end
  end.

(** [release?.plan_record?.polling_fraction || 0.5] *)
Definition pollingFractionOf (release : option Release) : Q :=
  match release with
  | Some r =>
      let fraction := Js.number (polling_fraction (plan_record r)) in
      if SLOEvaluator.truthyNumber fraction then fraction else 0.5
  | None => 0.5
  end.

(** [Math.max(1, Math.floor(stagePlan.soak_time * pollingFraction))] *)
Definition intervalTimeSecondsOf (stagePlan : PlanStage) (pollingFraction : Q) : Z :=
  Z.max 1 (Qfloor (Js.mul (inject_Z (soak_time stagePlan)) pollingFraction)).

(** The rounds are counted by
    [i < Math.floor(stagePlan.soak_time / intervalTimeSeconds)]. *)
Definition processStageSoak (releaseId_ : string) (stageRef : StageRef.t)
    (stagePlan : PlanStage) : M Verdict :=
  release <- getRelease releaseId_ ;;
  let pollingFraction := pollingFractionOf release in
  let intervalTimeSeconds := intervalTimeSecondsOf stagePlan pollingFraction in
  soakRounds releaseId_ stageRef release intervalTimeSeconds
    (Z.to_nat (Qfloor (Js.div (inject_Z (soak_time stagePlan))
                         (inject_Z intervalTimeSeconds)))).

(** [Math.max(...orders)], [None] for the empty list. *)
Fixpoint maxOrder (planStages : list PlanStage) : option Z :=
  match planStages with
  | [] => None
  | s :: rest =>
      match maxOrder rest with
      | None => Some (PlanStorage.order s)
      | Some m => Some (Z.max (PlanStorage.order s) m)
      end
  end.

Definition updateRemainingStages (release : Release) (releaseId_ : string)
    (failureState : StageStorage.StageState) (currentStageOrder : Z) : M unit :=
  let remainingStages :=
    List.filter (fun s => (currentStageOrder <? PlanStorage.order s)%Z)
      (PlanStorage.stages (plan_record release)) in
  updateStagesStateBad releaseId_ remainingStages failureState true.

Definition awaitEvent (type : string) : M StageStorage.Command :=
  fun w =>
    match waitForEvent ext type (clock w) (env w) with
    | Some (payload, at_, e) =>
        (Returned payload,
         {| env := e; clock := at_; deployments := deployments w;
            queries := queries w |})
    | None => (Suspended, w)
    end.

Definition handleStageApproval (stageRef : StageRef.t) (stagePlan : PlanStage)
    (release : Release) (releaseId_ : string) : M Verdict :=
  let stage := StageRef.id stageRef in
  let isLastStage :=
    bool_decide (Some (StageRef.order stageRef)
                 = maxOrder (PlanStorage.stages (plan_record release))) in
  if negb (auto_progress stagePlan) && negb isLastStage
  then
    onStageStorage stage
      (fun now =>
         StageStorage.updateStageState now StageStorage.awaiting_approval None) ;;;
    currentRelease <- getRelease releaseId_ ;;
    if match currentRelease with
       | Some r => negb (bool_decide (state r = running))
       | None => true
       end
    then
      handleExternalCancellation releaseId_ (StageRef.order stageRef) ;;;
      ret exit
    else
      payload <- awaitEvent (StageRef.id stageRef +:+ "-user-progress-command") ;;
      match payload with
      | StageStorage.approve => ret continue
      | StageStorage.deny =>
          onStageStorage stage
            (fun now =>
               StageStorage.updateStageState now StageStorage.done_cancelled None) ;;;
          updateRemainingStages release releaseId_ StageStorage.done_cancelled
            (StageRef.order stageRef) ;;;
          onReleaseHistory
            (fun now => updateReleaseState now releaseId_ done_stopped_manually) ;;;
          revertDeployment releaseId_ (old_version release) ;;;
          ret exit
      end
  else ret continue.

(** The [for (const stageRef of release.stages)] loop of [processStages]. *)
Fixpoint processStages (releaseId_ : string) (release : Release)
    (stageRefs : list StageRef.t) : M unit :=
  match stageRefs with
  | [] => ret tt
  | stageRef :: rest =>
      match List.find (fun s => (PlanStorage.order s =? StageRef.order stageRef)%Z)
              (PlanStorage.stages (plan_record release)) with
      | None => processStages releaseId_ release rest
      | Some stagePlan =>
          let stage := StageRef.id stageRef in
          (onStageStorage stage
             (fun now =>
                StageStorage.updateStageState now StageStorage.running None) ;;;
           setDeploymentTarget releaseId_ (target_percent stagePlan)
             (old_version release) (new_version release)) ;;;
          soakResult <- processStageSoak releaseId_ stageRef stagePlan ;;
          match soakResult with
          | exit => ret tt
          | continue =>
              shouldWaitForApproval <-
                handleStageApproval stageRef stagePlan release releaseId_ ;;
              match shouldWaitForApproval with
              | exit => ret tt
              | continue =>
                  onStageStorage stage
                    (fun now =>
                       StageStorage.updateStageState now
                         StageStorage.done_successful None) ;;;
                  processStages releaseId_ release rest
              end
          end
      end
  end.

(** [run]: the payload of the event is what the fields of [this] hold. *)
Definition run : M unit :=
  let releaseId_ := releaseId this in
  found <- getRelease releaseId_ ;;
  match found with
  | None => ret tt
  | Some release =>
      catchAndRethrow
        (onReleaseHistory
           (fun now => updateReleaseState now releaseId_ running) ;;;
         processStages releaseId_ release (stages release) ;;;
         specificRelease <- getRelease releaseId_ ;;
         match state <$> specificRelease with
         | Some done_stopped_manually =>
             revertDeployment releaseId_ (old_version release)
         | Some done_failed_slo =>
             revertDeployment releaseId_ (old_version release)
         | _ =>
             onReleaseHistory
               (fun now => updateReleaseState now releaseId_ done_successful) ;;;
             finishDeployment releaseId_ (new_version release)
         end)
        (currentRelease <- getRelease releaseId_ ;;
         match currentRelease with
         | Some current =>
             updateStagesStateBad releaseId_
               (PlanStorage.stages (plan_record current))
               StageStorage.done_cancelled true ;;;
             onReleaseHistory
               (fun now => updateReleaseState now releaseId_ error) ;;;
             ret tt
         | None => ret tt
         end ;;;
         revertDeployment releaseId_ (old_version release))
  end.

End Workflow.

(** Reading the world: the record a StageStorage holds, and the release the
    history of a connection holds under an id. *)
Definition stageRecord (w : World) (stageId : string) : option StageStorage.Stage :=
  StageStorage.get (Env.getStageStorage (env w) stageId).

Definition releaseRecord (this : ReleaseWorkflowParams) (w : World)
    (releaseId_ : string) : option Release :=
  ReleaseHistory.getRelease releaseId_
    (Env.getReleaseHistory (env w) (connectionId this)).

(** Two worlds that differ at most in the StageStorage objects. *)
Definition onlyStagesDiffer (w w' : World) : Prop :=
  clock w' = clock w
  /\ queries w' = queries w
  /\ deployments w' = deployments w
  /\ Env.RELEASE_HISTORY (env w') = Env.RELEASE_HISTORY (env w)
  /\ Env.PLAN_STORAGE (env w') = Env.PLAN_STORAGE (env w).

(** Two worlds at the same instant with the same telemetry queries made. *)
Definition sameTime (w w' : World) : Prop :=
  clock w' = clock w /\ queries w' = queries w.

End ReleaseWorkflow.

(** ** How typed values are stored *)
Module Encoding.

(** The entry of [plan.slos] that holds an SLO. *)
Definition rawOfConfig (slo : SLOEvaluator.SLOConfig) : SLOEvaluator.RawSLO :=
  SLOEvaluator.rawObject
    {| SLOEvaluator.raw_percentile :=
         SLOEvaluator.rawString
           (SLOEvaluator.percentileName (SLOEvaluator.percentile slo));
       SLOEvaluator.raw_latency_ms :=
         SLOEvaluator.rawNumber (SLOEvaluator.latency_ms slo) |}.

(** [a <= b] on every percentile. *)
Definition metricsLe (a b : SLOEvaluator.ObservabilityMetrics) : Prop :=
  (SLOEvaluator.p999 a <= SLOEvaluator.p999 b)%Q
  /\ (SLOEvaluator.p99 a <= SLOEvaluator.p99 b)%Q
  /\ (SLOEvaluator.p90 a <= SLOEvaluator.p90 b)%Q
  /\ (SLOEvaluator.median a <= SLOEvaluator.median b)%Q.

End Encoding.

(** ** The other routes (unnamed/part_001) *)
Module Routes.
Import PlanStorage ReleaseHistory.

(** The character classes [[0-9a-fA-F]] and [[0-9]]. *)
Definition isHexDigit (c : Ascii.ascii) : bool :=
  let n := Ascii.nat_of_ascii c in
  (Nat.leb 48 n && Nat.leb n 57)
  || (Nat.leb 97 n && Nat.leb n 102)
  || (Nat.leb 65 n && Nat.leb n 70).

Definition isDigit (c : Ascii.ascii) : bool :=
  let n := Ascii.nat_of_ascii c in
  Nat.leb 48 n && Nat.leb n 57.

Fixpoint allChars (class : Ascii.ascii -> bool) (s : string) : bool :=
  match s with
  | EmptyString => true
  | String c rest => class c && allChars class rest
  end.

(** What follows a literal prefix, when the string begins with it. *)
Fixpoint stripPrefix (literal s : string) : option string :=
  match literal with
  | EmptyString => Some s
  | String a literal' =>
      match s with
      | String b s' => if Ascii.eqb a b then stripPrefix literal' s' else None
      | EmptyString => None
      end
  end.

(** [/^[0-9a-fA-F]{8}$/] *)
Definition isValidId (value : string) : bool :=
  Nat.eqb (String.length value) 8 && allChars isHexDigit value.

(** [/^release-[0-9a-fA-F]{8}-order-[0-9]+$/]: the literal, eight
    hexadecimal digits, the literal, and one or more digits to the end. *)
Definition isValidStageId (value : string) : bool :=
  match stripPrefix "release-" value with
  | None => false
  | Some rest =>
      let hex := String.substring 0 8 rest in
      Nat.eqb (String.length hex) 8
      && allChars isHexDigit hex
      && match stripPrefix "-order-"
                 (String.substring 8 (String.length rest - 8) rest) with
         | None => false
         | Some digits => negb (String.eqb digits "") && allChars isDigit digits
         end
  end.

Definition VALID_STATES : list string :=
  [ "not_started"; "running"; "done_successful"; "done_stopped_manually";
    "done_failed_slo" ].

(** [POST /plan] *)
Definition postPlan (connectionId_ : option string) (env : Env.t)
  : Api.Response * Env.t :=
  if Api.truthy connectionId_
  then
    let '(plan, env) :=
      Env.onPlanStorage (default "" connectionId_) PlanStorage.get env in
    (Api.jsonPlan 200 plan, env)
  else (Api.jsonMessage 400 "Missing required field: connectionId", env).

(** The body of [POST /release].  [limit] and [offset] are absent or
    numbers; [since] and [until] are absent (or empty), or a string that
    [new Date] turns into an instant, or one it cannot read ([None], the
    invalid date); [state] is absent or a string. *)
Record ListBody := {
  list_connectionId : option string;
  list_limit : option Z;
  list_offset : option Z;
  list_since : option (option Z);
  list_until : option (option Z);
  list_state : option string
}.

Inductive ListResponse :=
  | listError (status : Z) (message : string)
  | listed (releases : list Release).

Definition stateIs (state_ : string) (release : Release) : bool :=
  String.eqb (stateName (state release)) state_.

Definition includes (items : list string) (item : string) : bool :=
  existsb (String.eqb item) items.

(** [POST /release] *)
Definition postRelease (body : ListBody) (env : Env.t) : ListResponse :=
  if negb (Api.truthy (list_connectionId body))
  then listError 400 "Missing required connectionId field"
  else
    let connectionId := default "" (list_connectionId body) in
    let limit := default 50%Z (list_limit body) in
    let offset := default 0%Z (list_offset body) in
    if (limit <? 1)%Z || (100 <? limit)%Z
    then listError 400 "Limit must be between 1 and 100"
    else if (offset <? 0)%Z
    then listError 400 "Offset must be non-negative"
    else
      let releases := getAllReleases (Env.getReleaseHistory env connectionId) in
      match list_since body with
      | Some None => listError 400 "Invalid 'since' timestamp format"
      | since =>
          let releases :=
            match since with
            | Some (Some sinceDate) =>
                List.filter (fun release => (sinceDate <=? time_created release)%Z)
                  releases
            | _ => releases
            end in
          match list_until body with
          | Some None => listError 400 "Invalid 'until' timestamp format"
          | until =>
              let releases :=
                match until with
                | Some (Some untilDate) =>
                    List.filter
                      (fun release => (time_created release <=? untilDate)%Z)
                      releases
                | _ => releases
                end in
              if Api.truthy (list_state body)
              then
                let state_ := default "" (list_state body) in
                if negb (includes VALID_STATES state_)
                then listError 400
                       ("Invalid state. Must be one of: "
                        +:+ String.concat ", " VALID_STATES)
                else
                  let releases := List.filter (stateIs state_) releases in
                  listed (take (Z.to_nat limit) (drop (Z.to_nat offset) releases))
              else listed (take (Z.to_nat limit) (drop (Z.to_nat offset) releases))
          end
      end.

(** [POST /release/active/get]: the active release or null, always with
    status 200. *)
Definition postReleaseActiveGet (connectionId_ : option string) (env : Env.t)
  : Api.Response + option Release :=
  if Api.truthy connectionId_
  then inr (getActiveRelease
              (Env.getReleaseHistory env (default "" connectionId_)))
  else inl (Api.jsonMessage 400
              "Missing required connection fields: connectionId is required").

(** A call on the [RELEASE_WORKFLOW] binding: the creation of an instance,
    or an event sent to one ([None] is the null payload). *)
Inductive WorkflowCall :=
  | createInstance (id_ : string) (params : ReleaseWorkflow.ReleaseWorkflowParams)
  | sendEvent (instance : string) (type : string)
      (payload : option StageStorage.Command).

Record ControlBody := {
  control_accountId : option string;
  control_workerName : option string;
  control_apiToken : option string;
  control_command : option string;
  control_connectionId : string
}.

(** The deny event for every stage of the release, in order. *)
Definition denyEvents (release : Release) : list WorkflowCall :=
  map (fun stageRef =>
         sendEvent (id release)
           (Api.getStageId (id release) (StageRef.order stageRef)
            +:+ "-user-progress-command")
           (Some StageStorage.deny))
      (stages release).

(** [POST /release/active]: start or stop the active release.  The answer,
    the calls made on the workflow binding, and the environment. *)
Definition postReleaseActive (now : Z) (body : ControlBody) (env : Env.t)
  : Api.Response * list WorkflowCall * Env.t :=
  if negb (Api.truthy (control_accountId body))
     || negb (Api.truthy (control_workerName body))
     || negb (Api.truthy (control_apiToken body))
  then (Api.jsonMessage 400
          "Missing required connection fields: accountId, workerName, and apiToken are required",
        [], env)
  else
    let connectionId := control_connectionId body in
    match getActiveRelease (Env.getReleaseHistory env connectionId) with
    | None => (Api.jsonMessage 404 "No active release found", [], env)
    | Some activeRelease =>
        let command := default "" (control_command body) in
        if String.eqb command "start"
        then
          if negb (bool_decide (state activeRelease = not_started))
          then (Api.jsonMessage 400
                  ("Cannot start release in '"
                   +:+ stateName (state activeRelease) +:+ "' state"),
                [], env)
          else
            let activeReleaseId := id activeRelease in
            let created :=
              createInstance activeReleaseId
                {| ReleaseWorkflow.releaseId := activeReleaseId;
                   ReleaseWorkflow.accountId :=
                     default "" (control_accountId body);
                   ReleaseWorkflow.workerName :=
                     default "" (control_workerName body);
                   ReleaseWorkflow.apiToken := default "" (control_apiToken body);
                   ReleaseWorkflow.connectionId := connectionId |} in
            let '(_, env) :=
              Env.onReleaseHistory connectionId
                (updateReleaseState now activeReleaseId running) env in
            (Api.text 200 "Release started successfully",
             [created; sendEvent activeReleaseId "release-start" None], env)
        else if String.eqb command "stop"
        then
          if negb (bool_decide (state activeRelease = running))
          then (Api.jsonMessage 400
                  ("Cannot stop release in '"
                   +:+ stateName (state activeRelease) +:+ "' state"),
                [], env)
          else
            let '(_, env) :=
              Env.onReleaseHistory connectionId
                (updateReleaseState now (id activeRelease) done_stopped_manually)
                env in
            (Api.text 200 "Release stopping async", denyEvents activeRelease, env)
        else (Api.jsonMessage 400 "Invalid command: must be 'start' or 'stop'",
              [], env)
    end.

(** [POST /release/:releaseId] *)
Definition postReleaseById (releaseId_ : string) (connectionId_ : option string)
    (env : Env.t) : Api.Response :=
  if negb (Api.truthy connectionId_)
  then Api.jsonMessage 400 "Missing required field: connectionId is required"
  else if negb (isValidId releaseId_)
  then Api.jsonMessage 404 "Release not found"
  else
    match getRelease releaseId_
            (Env.getReleaseHistory env (default "" connectionId_)) with
    | None => Api.jsonMessage 404 "Release not found"
    | Some release => Api.jsonRelease 200 release
    end.

(** [GET /stage/:stageId]: the stage, or the 404 answer. *)
Definition getStage (stageId : string) (env : Env.t)
  : Api.Response + StageStorage.Stage :=
  if negb (isValidStageId stageId)
  then inl (Api.jsonMessage 404 "Stage not found")
  else
    match StageStorage.get (Env.getStageStorage env stageId) with
    | None => inl (Api.jsonMessage 404 "Stage not found")
    | Some stageData => inr stageData
    end.

Definition commandOf (text_ : string) : option StageStorage.Command :=
  if String.eqb text_ "approve" then Some StageStorage.approve
  else if String.eqb text_ "deny" then Some StageStorage.deny
  else None.

Section WithFormat.
Context `{JsFormat}.

(** [POST /stage/:stageId]: approve or deny a stage. *)
Definition postStage (now : Z) (stageId : string) (command : string) (env : Env.t)
  : Api.Response * list WorkflowCall * Env.t :=
  if negb (isValidStageId stageId)
  then (Api.jsonMessage 404 "Stage not found", [], env)
  else
    match commandOf command with
    | None =>
        (Api.jsonMessage 400 "Invalid command: must be 'approve' or 'deny'",
         [], env)
    | Some command_ =>
        let '(_, env) :=
          Env.onStageStorage stageId (StageStorage.progressStage now command_) env in
        match StageStorage.get (Env.getStageStorage env stageId) with
        | Some stage =>
            if SLOEvaluator.truthyString (StageStorage.releaseId stage)
            then (Api.text 200 "Stage progressed successfully",
                  [ sendEvent (StageStorage.releaseId stage)
                      (stageId +:+ "-user-progress-command") (Some command_) ],
                  env)
            else (Api.jsonMessage 404 "Stage not found", [], env)
        | None => (Api.jsonMessage 404 "Stage not found", [], env)
        end
    end.

End WithFormat.

End Routes.

(** ** What the workflow leaves behind *)
Module WorkflowLog.
Import ReleaseWorkflow.

(** The share of the traffic a deployment hands out, in percent. *)
Definition totalPercent (d : Deployment) : Z :=
  fold_right Z.add 0%Z (map fst (versions d)).

(** A deployment of the worker of this workflow that hands out all of the
    traffic. *)
Definition ownDeployment (this : ReleaseWorkflowParams) (d : Deployment) : Prop :=
  script_name d = workerName this
  /\ account_id d = accountId this
  /\ totalPercent d = 100%Z.

(** From [w] to [w'] the two logs have only grown, and by deployments of
    that kind. *)
Definition appendsOnly (this : ReleaseWorkflowParams) (w w' : World) : Prop :=
  exists made asked,
    deployments w' = deployments w ++ made
    /\ Forall (ownDeployment this) made
    /\ queries w' = queries w ++ asked.

Definition keepsLog (this : ReleaseWorkflowParams) {A} (m : M A) : Prop :=
  forall w, appendsOnly this w (snd (m w)).

End WorkflowLog.


(** ** The plan editor (unnamed/part_002) *)
Module PlanEditor.
Import PlanStorage.

(** [[...stages].sort((a, b) => a.order - b.order)].  [Array.prototype.sort]
    is stable, so with this comparator the result is the stable sorting by
    [order]: each stage, taken from the last to the first, goes in front of
    the first stage already placed whose order is not smaller. *)
Fixpoint insertByOrder (stage : PlanStage) (sorted : list PlanStage)
  : list PlanStage :=
  match sorted with
  | [] => [stage]
  | first :: rest =>
      if (order stage <=? order first)%Z
      then stage :: sorted
      else first :: insertByOrder stage rest
  end.

Definition sortByOrder (stages_ : list PlanStage) : list PlanStage :=
  fold_right insertByOrder [] stages_.

(** The loop over [i] from 1: the first index whose stage does not have a
    higher percentage than the stage before it. *)
Fixpoint firstNotAscending (i : nat) (previous : PlanStage) (rest : list PlanStage)
  : option nat :=
  match rest with
  | [] => None
  | current :: rest' =>
      if (target_percent current <=? target_percent previous)%Z
      then Some i
      else firstNotAscending (S i) current rest'
  end.

Inductive SaveOutcome :=
  | saveValidationError (message : string)
  | onSave (validatedPlan : Plan).

(** [handleSave]; [getCurrentPlan] is what [getCurrentPlanRef.current]
    returns when it is set. *)
Definition handleSave (getCurrentPlan : option Plan) : SaveOutcome :=
  match getCurrentPlan with
  | None => saveValidationError "Unable to get current plan data"
  | Some currentPlan =>
      let sortedStages := sortByOrder (stages currentPlan) in
      match match sortedStages with
            | [] => None
            | first :: rest => firstNotAscending 1 first rest
            end with
      | Some i =>
          saveValidationError
            ("Stage " +:+ pretty (i + 1)%nat
             +:+ " must have a higher target percentage than stage "
             +:+ pretty i)
      | None =>
          onSave {| stages := sortedStages;
                    slos := slos currentPlan;
                    worker_name := worker_name currentPlan;
                    polling_fraction := polling_fraction currentPlan;
                    time_last_saved := None |}
      end
  end.

End PlanEditor.

(** ** Times as hours, minutes and seconds (react-app/TimeInput.tsx) *)
Module TimeInput.



End TimeInput.


(** ** Concrete data for the examples *)
Module Samples.

Definition plainFormat : JsFormat :=
  {| toISOString := pretty;
     numberToString := fun q => pretty (Qnum q) +:+ "/" +:+ pretty (Zpos (Qden q)) |}.

(** A release of the default plan, as [POST /release/create] builds it. *)
Definition release (id_ : string) (state_ : ReleaseHistory.ReleaseState)
  : ReleaseHistory.Release :=
  {| ReleaseHistory.id := id_;
     ReleaseHistory.state := state_;
     ReleaseHistory.plan_record := PlanStorage.defaultPlan;
     ReleaseHistory.old_version := "old";
     ReleaseHistory.new_version := "new";
     ReleaseHistory.stages :=
       map (fun stage =>
              {| ReleaseHistory.StageRef.id :=
                   Api.getStageId id_ (PlanStorage.order stage);
                 ReleaseHistory.StageRef.order := PlanStorage.order stage |})
           (PlanStorage.stages PlanStorage.defaultPlan);
     ReleaseHistory.time_created := 0;
     ReleaseHistory.time_started := None;
     ReleaseHistory.time_elapsed := 0;
     ReleaseHistory.time_done := None |}.

Definition historyOf (releases : list ReleaseHistory.Release)
  : ReleaseHistory.Storage :=
  {| ReleaseHistory.history := Some releases; ReleaseHistory.alarmAt := None |}.

Definition stage (releaseId_ : string) (order_ : Z) (state_ : StageStorage.StageState)
    (started : option Z) (elapsed : Z) : StageStorage.Stage :=
  {| StageStorage.id := Api.getStageId releaseId_ order_;
     StageStorage.order := order_;
     StageStorage.releaseId := releaseId_;
     StageStorage.state := state_;
     StageStorage.time_started := started;
     StageStorage.time_elapsed := elapsed;
     StageStorage.time_done := None;
     StageStorage.logs := "" |}.

Definition stageStorageOf (stage_ : StageStorage.Stage) : StageStorage.Storage :=
  {| StageStorage.main := Some stage_; StageStorage.alarmAt := None |}.

(** A workflow for release ["aaaaaaaa"] of the default plan: stage 1 is
    running, stage 2 is queued, stage 3 has been closed by hand. *)
Definition this : ReleaseWorkflow.ReleaseWorkflowParams :=
  {| ReleaseWorkflow.releaseId := "aaaaaaaa";
     ReleaseWorkflow.accountId := "account";
     ReleaseWorkflow.workerName := "my-worker";
     ReleaseWorkflow.apiToken := "token";
     ReleaseWorkflow.connectionId := "connection" |}.

Definition env : Env.t :=
  {| Env.PLAN_STORAGE := ∅;
     Env.RELEASE_HISTORY :=
       {[ "connection" := historyOf [release "aaaaaaaa" ReleaseHistory.running] ]};
     Env.STAGE_STORAGE :=
       {[ Api.getStageId "aaaaaaaa" 1 :=
            stageStorageOf (stage "aaaaaaaa" 1 StageStorage.running (Some 0%Z) 0);
          Api.getStageId "aaaaaaaa" 2 :=
            stageStorageOf (stage "aaaaaaaa" 2 StageStorage.queued None 0);
          Api.getStageId "aaaaaaaa" 3 :=
            stageStorageOf (stage "aaaaaaaa" 3 StageStorage.done_successful None 0)
       ]} |}.

Definition world : ReleaseWorkflow.World :=
  {| ReleaseWorkflow.env := env; ReleaseWorkflow.clock := 0;
     ReleaseWorkflow.deployments := []; ReleaseWorkflow.queries := [] |}.

Definition firstStage : ReleaseHistory.StageRef.t :=
  {| ReleaseHistory.StageRef.id := Api.getStageId "aaaaaaaa" 1;
     ReleaseHistory.StageRef.order := 1 |}.

Definition firstPlanStage : PlanStorage.PlanStage :=
  {| PlanStorage.order := 1; PlanStorage.description := "";
     PlanStorage.target_percent := 10; PlanStorage.soak_time := 60;
     PlanStorage.auto_progress := false |}.

Definition metrics (p999_ : Q) : SLOEvaluator.ObservabilityMetrics :=
  {| SLOEvaluator.p999 := p999_; SLOEvaluator.p99 := 20;
     SLOEvaluator.p90 := 10; SLOEvaluator.median := 5 |}.

(** Collaborators that leave the workflow alone: every deployment is
    accepted, nothing happens during a sleep, no event comes, and the
    telemetry always reports the given p999. *)
Definition collaborators (p999_ : Q) : ReleaseWorkflow.Collaborators :=
  {| ReleaseWorkflow.deploymentsCreate := fun _ => true;
     ReleaseWorkflow.telemetryQuery := fun _ _ => Some (metrics p999_);
     ReleaseWorkflow.whileAsleep := fun _ e => e;
     ReleaseWorkflow.waitForEvent := fun _ _ _ => None |}.

(** The world after the thirty cancellation checks of the first round. *)
Definition afterChecks : ReleaseWorkflow.World :=
  snd (@ReleaseWorkflow.checkCancellation plainFormat (collaborators 150) this
         "aaaaaaaa" firstStage 30 world).

(** A plan whose percentages go down and never reach 100. *)
Definition descendingPlan : Api.PlanBody :=
  {| Api.body_stages :=
       Api.array
         [ {| PlanStorage.order := 1; PlanStorage.description := "";
              PlanStorage.target_percent := 50; PlanStorage.soak_time := 60;
              PlanStorage.auto_progress := false |};
           {| PlanStorage.order := 2; PlanStorage.description := "";
              PlanStorage.target_percent := 10; PlanStorage.soak_time := 60;
              PlanStorage.auto_progress := false |} ];
     Api.body_slos := Api.array [];
     Api.body_worker_name := "my-worker";
     Api.body_polling_fraction := 0.5;
     Api.body_time_last_saved := None |}.

(** The two-stage plan of the scenarios: 10% with manual approval, then
    100%, each soaking 60 seconds, with the SLO p99 <= 100 ms. *)
Definition scenarioPlan : Api.PlanBody :=
  {| Api.body_stages :=
       Api.array
         [ {| PlanStorage.order := 1; PlanStorage.description := "";
              PlanStorage.target_percent := 10; PlanStorage.soak_time := 60;
              PlanStorage.auto_progress := false |};
           {| PlanStorage.order := 2; PlanStorage.description := "";
              PlanStorage.target_percent := 100; PlanStorage.soak_time := 60;
              PlanStorage.auto_progress := true |} ];
     Api.body_slos :=
       Api.array
         [ SLOEvaluator.rawObject
             {| SLOEvaluator.raw_percentile := SLOEvaluator.rawString "p99";
                SLOEvaluator.raw_latency_ms := SLOEvaluator.rawNumber 100 |} ];
     Api.body_worker_name := "my-worker";
     Api.body_polling_fraction := 0.5;
     Api.body_time_last_saved := None |}.

(** The world once the plan is saved and release ["aaaaaaaa"] created
    through the routes. *)
Definition scenarioWorld : ReleaseWorkflow.World :=
  let saved :=
    snd (Api.putPlan 1000
           {| Api.put_connectionId := Some "connection";
              Api.put_plan := Some scenarioPlan |} Env.fresh) in
  let created :=
    snd (@Api.postReleaseCreate 2000 "aaaaaaaa"
           {| Api.create_connectionId := Some "connection";
              Api.create_old_version := Some "old";
              Api.create_new_version := Some "new" |} saved) in
  {| ReleaseWorkflow.env := created; ReleaseWorkflow.clock := 3000;
     ReleaseWorkflow.deployments := []; ReleaseWorkflow.queries := [] |}.

(** Collaborators of the scenarios: the telemetry always reports the given
    p99, and the awaited event is an approval that the stage route has
    recorded five seconds after the wait began. *)
Definition scenarioCollaborators (p99_ : Q) : ReleaseWorkflow.Collaborators :=
  {| ReleaseWorkflow.deploymentsCreate := fun _ => true;
     ReleaseWorkflow.telemetryQuery :=
       fun _ _ =>
         Some {| SLOEvaluator.p999 := p99_; SLOEvaluator.p99 := p99_;
                 SLOEvaluator.p90 := 10; SLOEvaluator.median := 5 |};
     ReleaseWorkflow.whileAsleep := fun _ e => e;
     ReleaseWorkflow.waitForEvent :=
       fun _ now e =>
         Some (StageStorage.approve, (now + 5000)%Z,
               snd (Env.onStageStorage (Api.getStageId "aaaaaaaa" 1)
                      (@StageStorage.progressStage plainFormat (now + 5000)
                         StageStorage.approve) e)) |}.

(** What a run leaves: the states of the two stages and of the release, and
    the traffic splits requested, oldest first. *)
Definition outcomeOf (result : ReleaseWorkflow.Outcome unit * ReleaseWorkflow.World)
  : ReleaseWorkflow.Outcome unit
    * list (option StageStorage.StageState)
    * option ReleaseHistory.ReleaseState
    * list (list (Z * string)) :=
  (fst result,
   map (fun order_ =>
          StageStorage.state
            <$> ReleaseWorkflow.stageRecord (snd result)
                  (Api.getStageId "aaaaaaaa" order_))
       [1%Z; 2%Z],
   ReleaseHistory.state
     <$> ReleaseWorkflow.releaseRecord this (snd result) "aaaaaaaa",
   map ReleaseWorkflow.versions (ReleaseWorkflow.deployments (snd result))).

End Samples.

(** * Properties *)

(** ** Doubles *)
Module JsFacts.
Import Js.
#[local] Open Scope Q_scope.

Lemma pow2_pos e : 0 < pow2 e.
Proof. apply Qpower_0_lt. reflexivity. Qed.

Lemma pow2_plus a b : pow2 (a + b) == pow2 a * pow2 b.
Proof. apply Qpower_plus. discriminate. Qed.

Lemma pow2_le a b : (a <= b)%Z -> pow2 a <= pow2 b.
Proof. intros. apply Qpower_le_compat_l; [assumption | discriminate]. Qed.

Lemma pow2_lt a b : (a < b)%Z -> pow2 a < pow2 b.
Proof. intros. apply Qpower_lt_compat_l; [assumption | reflexivity]. Qed.

Lemma pow2_Z n : (0 <= n)%Z -> pow2 n == inject_Z (2 ^ n).
Proof. intros. unfold pow2. now rewrite Zpower_Qpower. Qed.

Ltac compare_to_order H :=
  match type of H with
  | _ = Eq => apply Qeq_alt in H
  | _ = Lt => apply Qlt_alt in H
  | _ = Gt => apply Qgt_alt in H
  end.

Lemma roundHalfEven_cases x :
  roundHalfEven x = Qfloor x \/ roundHalfEven x = (Qfloor x + 1)%Z.
Proof.
  unfold roundHalfEven. destruct (Qcompare _ _); [destruct (Z.even _) | |]; auto.
Qed.

Lemma roundHalfEven_Z n : roundHalfEven (inject_Z n) = n.
Proof.
  unfold roundHalfEven. rewrite Qfloor_Z.
  replace (Qcompare (inject_Z n - inject_Z n) (1 # 2)) with Lt; [reflexivity |].
  symmetry. apply Qlt_alt. unfold Qminus. rewrite Qplus_opp_r. reflexivity.
Qed.

Lemma roundHalfEven_mono x y : x <= y -> (roundHalfEven x <= roundHalfEven y)%Z.
Proof.
  intros Hle. pose proof (Qfloor_resp_le _ _ Hle) as Hfloor.
  destruct (Z.eq_dec (Qfloor x) (Qfloor y)) as [Heq | Hne].
  - unfold roundHalfEven. rewrite <- Heq.
    destruct (Qcompare (x - inject_Z (Qfloor x)) (1 # 2)) eqn:Hx;
      destruct (Qcompare (y - inject_Z (Qfloor x)) (1 # 2)) eqn:Hy;
      try destruct (Z.even (Qfloor x)); try lia;
      compare_to_order Hx; compare_to_order Hy; lra.
  - destruct (roundHalfEven_cases x) as [-> | ->];
      destruct (roundHalfEven_cases y) as [-> | ->]; lia.
Qed.

Lemma roundHalfEven_compat x y : x == y -> roundHalfEven x = roundHalfEven y.
Proof.
  intros Heq. apply Z.le_antisymm; apply roundHalfEven_mono; rewrite Heq; apply Qle_refl.
Qed.

Lemma exponentOf_spec x :
  0 < x -> pow2 (exponentOf x + 52) <= x /\ x < pow2 (exponentOf x + 53).
Proof.
  intros Hpos. destruct x as [p q]. unfold exponentOf. cbn [Qnum Qden].
  assert (Hp : (0 < p)%Z) by (unfold Qlt in Hpos; cbn in Hpos; lia).
  set (lp := Z.log2 p). set (lq := Z.log2 (Z.pos q)).
  destruct (Z.log2_spec p Hp) as [Hp1 Hp2]. fold lp in Hp1, Hp2.
  destruct (Z.log2_spec (Z.pos q) ltac:(lia)) as [Hq1 Hq2]. fold lq in Hq1, Hq2.
  assert (Hlp : (0 <= lp)%Z) by apply Z.log2_nonneg.
  assert (Hlq : (0 <= lq)%Z) by apply Z.log2_nonneg.
  assert (HA : 0 < pow2 lp) by apply pow2_pos.
  assert (HB : 0 < pow2 lq) by apply pow2_pos.
  assert (Hx : p # q == inject_Z p / inject_Z (Z.pos q)) by apply Qmake_Qdiv.
  assert (HP1 : pow2 lp <= inject_Z p).
  { rewrite pow2_Z by lia. rewrite <- Zle_Qle. exact Hp1. }
  assert (HP2 : inject_Z p < 2 * pow2 lp).
  { rewrite pow2_Z by lia. change 2 with (inject_Z 2). rewrite <- inject_Z_mult.
    rewrite <- Zlt_Qlt. rewrite Z.pow_succ_r in Hp2 by lia. lia. }
  assert (HQ1 : pow2 lq <= inject_Z (Z.pos q)).
  { rewrite pow2_Z by lia. rewrite <- Zle_Qle. exact Hq1. }
  assert (HQ2 : inject_Z (Z.pos q) < 2 * pow2 lq).
  { rewrite pow2_Z by lia. change 2 with (inject_Z 2). rewrite <- inject_Z_mult.
    rewrite <- Zlt_Qlt. rewrite Z.pow_succ_r in Hq2 by lia. lia. }
  assert (Hq0 : 0 < inject_Z (Z.pos q)) by (apply Qlt_le_trans with (pow2 lq); assumption).
  assert (Hlow : pow2 (lp - lq - 1) < p # q).
  { rewrite Hx. apply Qlt_shift_div_l; [exact Hq0 |].
    replace (lp - lq - 1)%Z with (lp + (- (lq + 1)))%Z by lia.
    rewrite pow2_plus. unfold pow2 at 2. rewrite Qpower_opp. fold (pow2 (lq + 1)).
    rewrite pow2_plus. change (pow2 1) with 2.
    apply Qlt_le_trans with (pow2 lp); [| exact HP1].
    assert (H2B : 0 < pow2 lq * 2) by lra.
    apply Qlt_shift_div_r with (b := pow2 lq * 2) (a := pow2 lp * inject_Z (Z.pos q))
                               (c := pow2 lp) in H2B.
    - unfold Qdiv in H2B. rewrite <- Qmult_assoc in H2B.
      rewrite (Qmult_comm (inject_Z (Z.pos q))) in H2B.
      rewrite Qmult_assoc in H2B. exact H2B.
    - nra. }
  assert (Hhigh : p # q < pow2 (lp - lq + 1)).
  { rewrite Hx. apply Qlt_shift_div_r; [exact Hq0 |].
    replace (lp - lq + 1)%Z with (lp + 1 + (- lq))%Z by lia.
    rewrite pow2_plus. unfold pow2 at 2. rewrite Qpower_opp. fold (pow2 lq).
    rewrite pow2_plus. change (pow2 1) with 2.
    apply Qlt_le_trans with (pow2 lp * 2); [lra |].
    assert (Hinv : 0 < / pow2 lq) by (apply Qinv_lt_0_compat; exact HB).
    assert (Hone : 1 <= / pow2 lq * inject_Z (Z.pos q)).
    { apply Qle_shift_div_l with (c := pow2 lq) (a := 1) (b := inject_Z (Z.pos q)) in HB.
      - unfold Qdiv in HB. rewrite Qmult_comm in HB. exact HB.
      - lra. }
    rewrite <- Qmult_assoc. nra. }
  destruct (Qle_bool (pow2 (lp - lq - 53 + 53)) (p # q)) eqn:Htest.
  - apply Qle_bool_iff in Htest. split.
    + replace (lp - lq - 53 + 1 + 52)%Z with (lp - lq - 53 + 53)%Z by lia. exact Htest.
    + replace (lp - lq - 53 + 1 + 53)%Z with (lp - lq + 1)%Z by lia. exact Hhigh.
  - assert (Hlt : p # q < pow2 (lp - lq - 53 + 53)).
    { apply Qnot_le_lt. intros Hle. apply Qle_bool_iff in Hle. congruence. }
    split; [| exact Hlt].
    replace (lp - lq - 53 + 52)%Z with (lp - lq - 1)%Z by lia. now apply Qlt_le_weak.
Qed.

Lemma exponentOf_mono x y : 0 < x -> x <= y -> (exponentOf x <= exponentOf y)%Z.
Proof.
  intros Hx Hle.
  destruct (exponentOf_spec x Hx) as [Hx1 _].
  destruct (exponentOf_spec y (Qlt_le_trans _ _ _ Hx Hle)) as [_ Hy2].
  destruct (Z_le_gt_dec (exponentOf x) (exponentOf y)) as [| Hgt]; [assumption |].
  exfalso. pose proof (pow2_le (exponentOf y + 53) (exponentOf x + 52) ltac:(lia)).
  lra.
Qed.

Lemma roundHalfEven_ge n t : inject_Z n <= t -> (n <= roundHalfEven t)%Z.
Proof. intros H. rewrite <- (roundHalfEven_Z n). now apply roundHalfEven_mono. Qed.

Lemma roundHalfEven_le n t : t <= inject_Z n -> (roundHalfEven t <= n)%Z.
Proof. intros H. rewrite <- (roundHalfEven_Z n). now apply roundHalfEven_mono. Qed.

Lemma div_pow2 x e : x / pow2 e * pow2 e == x.
Proof. unfold Qdiv. rewrite <- Qmult_assoc, (Qmult_comm (/ _)), Qmult_inv_r, Qmult_1_r;
  [reflexivity |]. pose proof (pow2_pos e). lra. Qed.

Lemma div_pow2_le x y e : x <= y -> x / pow2 e <= y / pow2 e.
Proof.
  intros H. unfold Qdiv. apply Qmult_le_compat_r; [exact H |].
  apply Qlt_le_weak, Qinv_lt_0_compat, pow2_pos.
Qed.

Lemma div_pow2_pow2 a e : pow2 a / pow2 e == pow2 (a - e).
Proof. unfold pow2. rewrite Qpower_minus; [reflexivity | discriminate]. Qed.

(** Rounding on the grid of step [2^e]. *)
Lemma onGrid_mono e x y : x <= y -> onGrid e x <= onGrid e y.
Proof.
  intros H. unfold onGrid. apply Qmult_le_compat_r; [| apply Qlt_le_weak, pow2_pos].
  rewrite <- Zle_Qle. apply roundHalfEven_mono. now apply div_pow2_le.
Qed.

Lemma onGrid_point e k : onGrid e (inject_Z k * pow2 e) == inject_Z k * pow2 e.
Proof.
  unfold onGrid.
  rewrite (roundHalfEven_compat _ (inject_Z k)); [now rewrite roundHalfEven_Z |].
  unfold Qdiv. rewrite <- Qmult_assoc, Qmult_inv_r, Qmult_1_r; [reflexivity |].
  pose proof (pow2_pos e). lra.
Qed.

Lemma onGrid_pow2 e a : (e <= a)%Z -> onGrid e (pow2 a) == pow2 a.
Proof.
  intros H. assert (Heq : pow2 a == inject_Z (2 ^ (a - e)) * pow2 e).
  { rewrite <- pow2_Z by lia. rewrite <- pow2_plus. now replace (a - e + e)%Z with a by lia. }
  unfold onGrid.
  rewrite (roundHalfEven_compat _ (inject_Z (2 ^ (a - e)))).
  - now rewrite roundHalfEven_Z, Heq.
  - rewrite div_pow2_pow2. now apply pow2_Z; lia.
Qed.

Lemma roundPositive_onGrid x :
  roundPositive x = onGrid (Z.max (exponentOf x) (-1074)) x.
Proof. reflexivity. Qed.

Lemma onGrid_upper e a x : (e <= a)%Z -> x <= pow2 a -> onGrid e x <= pow2 a.
Proof.
  intros He Hx. rewrite <- (onGrid_pow2 e a He). now apply onGrid_mono.
Qed.

Lemma onGrid_lower e a x : (e <= a)%Z -> pow2 a <= x -> pow2 a <= onGrid e x.
Proof.
  intros He Hx. rewrite <- (onGrid_pow2 e a He). now apply onGrid_mono.
Qed.

Lemma roundPositive_mono x y :
  0 < x -> x <= y -> roundPositive x <= roundPositive y.
Proof.
  intros Hx Hle. rewrite !roundPositive_onGrid.
  pose proof (exponentOf_mono x y Hx Hle) as He.
  set (ex := Z.max (exponentOf x) (-1074)). set (ey := Z.max (exponentOf y) (-1074)).
  destruct (Z.eq_dec ex ey) as [<- | Hne]; [now apply onGrid_mono |].
  assert (Hlt : (ex < ey)%Z) by lia.
  assert (Hey : ey = exponentOf y) by lia.
  destruct (exponentOf_spec x Hx) as [_ Hx2].
  destruct (exponentOf_spec y (Qlt_le_trans _ _ _ Hx Hle)) as [Hy1 _].
  apply Qle_trans with (pow2 (ey + 52)).
  - apply onGrid_upper; [lia |].
    apply Qle_trans with (pow2 (exponentOf x + 53)); [lra |]. apply pow2_le. lia.
  - apply onGrid_lower; [lia |]. now rewrite Hey.
Qed.

Lemma roundPositive_fixed M s :
  (0 < M <= 2 ^ 53)%Z -> (-1074 <= s)%Z ->
  roundPositive (inject_Z M * pow2 s) == inject_Z M * pow2 s.
Proof.
  intros HM Hs. set (x := inject_Z M * pow2 s).
  assert (Hx : 0 < x).
  { subst x. apply Qmult_lt_0_compat; [| apply pow2_pos].
    change 0 with (inject_Z 0). rewrite <- Zlt_Qlt. lia. }
  rewrite roundPositive_onGrid.
  set (e := Z.max (exponentOf x) (-1074)).
  destruct (Z_le_gt_dec e s) as [Hle | Hgt].
  - assert (Heq : x == inject_Z (M * 2 ^ (s - e)) * pow2 e).
    { subst x. rewrite inject_Z_mult, <- pow2_Z by lia.
      rewrite <- Qmult_assoc, <- pow2_plus. now replace (s - e + e)%Z with s by lia. }
    assert (Hsame : onGrid e x == onGrid e (inject_Z (M * 2 ^ (s - e)) * pow2 e)).
    { apply Qle_antisym; apply onGrid_mono; rewrite Heq; apply Qle_refl. }
    rewrite Hsame, onGrid_point. now rewrite Heq.
  - assert (He : e = exponentOf x) by lia.
    destruct (exponentOf_spec x Hx) as [Hx1 _]. rewrite <- He in Hx1.
    assert (Hup : x <= pow2 (53 + s)).
    { subst x. rewrite pow2_plus. apply Qmult_le_compat_r;
        [| apply Qlt_le_weak, pow2_pos].
      rewrite pow2_Z by lia. rewrite <- Zle_Qle. lia. }
    assert (Hes : e = (s + 1)%Z).
    { assert (Hpow : pow2 (e + 52) <= pow2 (53 + s)) by lra.
      apply Qpower_le_compat_l_inv in Hpow; [lia | reflexivity]. }
    assert (Heq : x == pow2 (e + 52)).
    { apply Qle_antisym; [| exact Hx1]. now replace (e + 52)%Z with (53 + s)%Z by lia. }
    assert (Hsame : onGrid e x == onGrid e (pow2 (e + 52))).
    { apply Qle_antisym; apply onGrid_mono; rewrite Heq; apply Qle_refl. }
    rewrite Hsame, onGrid_pow2 by lia. now rewrite Heq.
Qed.

Lemma roundPositive_form x :
  0 < x ->
  exists M s, (0 <= M <= 2 ^ 53)%Z /\ (-1074 <= s)%Z
              /\ roundPositive x == inject_Z M * pow2 s.
Proof.
  intros Hx. rewrite roundPositive_onGrid.
  set (e := Z.max (exponentOf x) (-1074)).
  exists (roundHalfEven (x / pow2 e)), e. split; [| split; [lia | reflexivity]].
  destruct (exponentOf_spec x Hx) as [_ Hx2]. split.
  - apply roundHalfEven_ge. apply Qle_shift_div_l; [apply pow2_pos |].
    rewrite Qmult_0_l. now apply Qlt_le_weak.
  - apply roundHalfEven_le. apply Qle_shift_div_r; [apply pow2_pos |].
    rewrite <- pow2_Z by lia. rewrite <- pow2_plus.
    apply Qle_trans with (pow2 (exponentOf x + 53)); [lra |]. apply pow2_le. lia.
Qed.

Lemma roundPositive_nonneg x : 0 < x -> 0 <= roundPositive x.
Proof.
  intros Hx. destruct (roundPositive_form x Hx) as (M & s & HM & _ & ->).
  apply Qmult_le_0_compat; [| apply Qlt_le_weak, pow2_pos].
  change 0 with (inject_Z 0). rewrite <- Zle_Qle. lia.
Qed.

Lemma number_pos x : 0 < x -> number x == roundPositive x.
Proof.
  intros Hx. unfold number. rewrite Qred_correct.
  replace (Qcompare x 0) with Gt; [reflexivity |]. symmetry. now apply Qgt_alt.
Qed.

Lemma number_0 x : x == 0 -> number x == 0.
Proof.
  intros Hx. unfold number. rewrite Qred_correct.
  replace (Qcompare x 0) with Eq; [reflexivity |]. symmetry. now apply Qeq_alt.
Qed.

Lemma number_nonneg x : 0 <= x -> 0 <= number x.
Proof.
  intros Hx. destruct (Qlt_le_dec 0 x) as [Hpos | Hle].
  - rewrite number_pos by exact Hpos. now apply roundPositive_nonneg.
  - rewrite number_0; [apply Qle_refl | lra].
Qed.

Lemma number_mono x y : 0 <= x -> x <= y -> number x <= number y.
Proof.
  intros Hx Hle. destruct (Qlt_le_dec 0 x) as [Hpos | Hzero].
  - rewrite !number_pos by lra. now apply roundPositive_mono.
  - rewrite (number_0 x) by lra. apply number_nonneg. lra.
Qed.

Lemma number_compat x y : 0 <= x -> x == y -> number x == number y.
Proof.
  intros Hx Heq. apply Qle_antisym; apply number_mono; lra.
Qed.

Lemma number_fixed M s :
  (0 <= M <= 2 ^ 53)%Z -> (-1074 <= s)%Z ->
  number (inject_Z M * pow2 s) == inject_Z M * pow2 s.
Proof.
  intros HM Hs. destruct (Z.eq_dec M 0%Z) as [-> | Hne].
  - rewrite number_0; [| apply Qmult_0_l]. now rewrite Qmult_0_l.
  - rewrite number_pos.
    + apply roundPositive_fixed; lia.
    + apply Qmult_lt_0_compat; [| apply pow2_pos].
      change 0 with (inject_Z 0). rewrite <- Zlt_Qlt. lia.
Qed.

Lemma number_Z n : (0 <= n <= 2 ^ 53)%Z -> number (inject_Z n) == inject_Z n.
Proof.
  intros Hn.
  assert (Heq : inject_Z n == inject_Z n * pow2 0).
  { change (pow2 0) with 1. now rewrite Qmult_1_r. }
  assert (Hpos : 0 <= inject_Z n).
  { change 0 with (inject_Z 0). rewrite <- Zle_Qle. lia. }
  rewrite (number_compat _ _ Hpos Heq), number_fixed by lia. now rewrite <- Heq.
Qed.

Lemma number_idempotent x : 0 <= x -> number (number x) == number x.
Proof.
  intros Hx. destruct (Qlt_le_dec 0 x) as [Hpos | Hzero].
  - destruct (roundPositive_form x Hpos) as (M & s & HM & Hs & Hform).
    assert (Heq : number x == inject_Z M * pow2 s) by (now rewrite number_pos).
    rewrite (number_compat (number x) (inject_Z M * pow2 s)); [| now apply number_nonneg | exact Heq].
    rewrite number_fixed by assumption. now rewrite Heq.
  - assert (H0 : number x == 0) by (apply number_0; lra).
    rewrite (number_compat (number x) 0); [| now apply number_nonneg | exact H0].
    rewrite H0. now apply number_0.
Qed.

(** Division of whole numbers: the floor of the rounded quotient is the
    quotient of the division with remainder. *)
Lemma floor_div a b :
  (0 < b <= a)%Z -> (a <= 2 ^ 51)%Z ->
  Qfloor (div (inject_Z a) (inject_Z b)) = (a / b)%Z.
Proof.
  intros Hb Ha. unfold div.
  assert (Ha53 : (0 <= a <= 2 ^ 53)%Z).
  { split; [lia |]. apply Z.le_trans with (2 ^ 51)%Z; [exact Ha |].
    apply Z.pow_le_mono_r; lia. }
  assert (Hb53 : (0 <= b <= 2 ^ 53)%Z) by lia.
  assert (HbQ : 0 < inject_Z b).
  { change 0 with (inject_Z 0). rewrite <- Zlt_Qlt. lia. }
  assert (HaQ : 0 < inject_Z a).
  { change 0 with (inject_Z 0). rewrite <- Zlt_Qlt. lia. }
  set (x := inject_Z a / inject_Z b).
  assert (Hx : 0 < x).
  { subst x. apply Qlt_shift_div_l; [exact HbQ | lra]. }
  assert (Harg : number (number (inject_Z a) / number (inject_Z b)) == number x).
  { apply number_compat.
    - rewrite !number_Z by assumption. subst x. lra.
    - rewrite !number_Z by assumption. reflexivity. }
  rewrite (Qfloor_comp _ _ Harg).
  set (q := (a / b)%Z). set (r := (a mod b)%Z).
  pose proof (Z.div_mod a b ltac:(lia)) as Hdm. fold q r in Hdm.
  pose proof (Z.mod_pos_bound a b ltac:(lia)) as Hr. fold r in Hr.
  assert (Hq : (1 <= q)%Z) by (subst q; apply Z.div_le_lower_bound; lia).
  assert (Hqa : (q <= a)%Z) by nia.
  assert (Hxeq : x * inject_Z b == inject_Z a).
  { subst x. unfold Qdiv. rewrite <- Qmult_assoc, (Qmult_comm (/ _)), Qmult_inv_r; lra. }
  assert (Hlow : inject_Z q <= x).
  { subst x. apply Qle_shift_div_l; [exact HbQ |].
    rewrite <- inject_Z_mult, <- Zle_Qle. nia. }
  apply Z.le_antisymm.
  - (* the rounded quotient stays below q + 1 *)
    apply Z.lt_succ_r. apply Z.lt_nge. intros Hge.
    assert (Hfloor : inject_Z (Z.succ q) <= number x).
    { apply Qle_trans with (inject_Z (Qfloor (number x)));
        [rewrite <- Zle_Qle; exact Hge | apply Qfloor_le]. }
    destruct (Z.eq_dec r 0%Z) as [Hr0 | Hrpos].
    + assert (Hxq : x == inject_Z q).
      { subst x. apply Qeq_sym.
        rewrite <- (Qmult_1_r (inject_Z q)).
        rewrite <- (Qmult_inv_r (inject_Z b)) by lra.
        unfold Qdiv. rewrite Qmult_assoc, <- inject_Z_mult.
        replace (q * b)%Z with a by lia. reflexivity. }
      assert (Hnum : number x == inject_Z q).
      { rewrite (number_compat x (inject_Z q)); [| lra | exact Hxq].
        apply number_Z. lia. }
      rewrite Hnum in Hfloor. rewrite <- Zle_Qle in Hfloor. lia.
    + set (k := Z.log2_up b).
      assert (Hb2 : (2 <= b)%Z).
      { destruct (Z.eq_dec b 1%Z) as [-> |]; [| lia].
        subst r. rewrite Z.mod_1_r in Hrpos. lia. }
      assert (Hk : (0 < k)%Z) by (subst k; apply Z.log2_up_pos; lia).
      destruct (Z.log2_up_spec b ltac:(lia)) as [Hk1 Hk2]. fold k in Hk1, Hk2.
      assert (Hpow : (2 ^ k < 2 * b)%Z).
      { replace k with (Z.succ (Z.pred k)) by lia.
        rewrite Z.pow_succ_r by lia. lia. }
      assert (Hk52 : (k <= 53)%Z).
      { apply Z.log2_up_le_pow2; lia. }
      set (M := (Z.succ q * 2 ^ k - 1)%Z).
      assert (Hpk : (0 < 2 ^ k)%Z) by (apply Z.pow_pos_nonneg; lia).
      assert (HM : (0 <= M <= 2 ^ 53)%Z).
      { subst M. split; [nia |].
        assert (Z.succ q * 2 ^ k <= 4 * a)%Z by nia.
        assert (4 * a <= 2 ^ 53)%Z.
        { replace (2 ^ 53)%Z with (4 * 2 ^ 51)%Z by reflexivity. lia. }
        lia. }
      assert (Hd : number (inject_Z M * pow2 (- k)) == inject_Z M * pow2 (- k)).
      { apply number_fixed; [exact HM | lia]. }
      assert (Hkinv : pow2 (- k) * inject_Z (2 ^ k) == 1).
      { rewrite <- pow2_Z by lia. rewrite <- pow2_plus.
        now replace (- k + k)%Z with 0%Z by lia. }
      assert (HdM : inject_Z M * pow2 (- k) == inject_Z (Z.succ q) - pow2 (- k)).
      { assert (HMq : inject_Z M == inject_Z (Z.succ q) * inject_Z (2 ^ k) - 1).
        { subst M. unfold Z.sub. rewrite inject_Z_plus, inject_Z_mult. reflexivity. }
        rewrite HMq.
        transitivity (inject_Z (Z.succ q) * (pow2 (- k) * inject_Z (2 ^ k)) - pow2 (- k));
          [ring | rewrite Hkinv; ring]. }
      assert (Hxd : x <= inject_Z M * pow2 (- k)).
      { rewrite HdM.
        assert (Hinvb : pow2 (- k) * inject_Z b <= 1).
        { rewrite <- Hkinv. apply Qmult_le_l; [apply pow2_pos |].
          rewrite <- Zle_Qle. lia. }
        assert (Hstep : x * inject_Z b
                        <= (inject_Z (Z.succ q) - pow2 (- k)) * inject_Z b).
        { rewrite Hxeq.
          assert (Hexp : (inject_Z (Z.succ q) - pow2 (- k)) * inject_Z b
                         == inject_Z (Z.succ q) * inject_Z b - pow2 (- k) * inject_Z b)
            by ring.
          rewrite Hexp.
          assert (inject_Z a <= inject_Z (Z.succ q) * inject_Z b - 1).
          { change 1 with (inject_Z 1). rewrite <- inject_Z_mult.
            unfold Qminus. rewrite <- inject_Z_opp, <- inject_Z_plus, <- Zle_Qle. nia. }
          lra. }
        apply Qmult_le_r in Hstep; assumption. }
      assert (Hnum : number x <= inject_Z M * pow2 (- k)).
      { rewrite <- Hd. apply number_mono; [lra | exact Hxd]. }
      pose proof (pow2_pos (- k)). lra.
  - rewrite <- (Qfloor_Z q). apply Qfloor_resp_le.
    rewrite <- (number_Z q) by lia. apply number_mono; [| exact Hlow].
    change 0 with (inject_Z 0). rewrite <- Zle_Qle. lia.
Qed.

(** A double that is a whole number is that number, in lowest terms. *)
Lemma number_whole x n : number x == inject_Z n -> number x = inject_Z n.
Proof.
  unfold number. intros Heq. rewrite Qred_correct in Heq.
  rewrite (Qred_complete _ _ Heq). unfold Qred, inject_Z. cbn [Qnum Qden].
  pose proof (Z.ggcd_gcd n 1) as Hgcd.
  pose proof (Z.ggcd_correct_divisors n 1) as Hdiv.
  destruct (Z.ggcd n 1) as [g [aa bb]]. cbn [fst snd] in Hgcd, Hdiv.
  rewrite Z.gcd_1_r in Hgcd. subst g. destruct Hdiv as [Hn Hone].
  rewrite Z.mul_1_l in Hn, Hone. now subst aa bb.
Qed.

(** The subtraction of whole numbers is exact up to 2^53. *)
Lemma sub_whole a b :
  (0 <= b <= a)%Z -> (a <= 2 ^ 53)%Z ->
  sub (inject_Z a) (inject_Z b) = inject_Z (a - b).
Proof.
  intros Hrange Hbound. apply number_whole. unfold sub.
  assert (Ha : number (inject_Z a) == inject_Z a) by (apply number_Z; lia).
  assert (Hb : number (inject_Z b) == inject_Z b) by (apply number_Z; lia).
  assert (Hdiff : number (inject_Z a) - number (inject_Z b) == inject_Z (a - b)).
  { rewrite Ha, Hb. unfold Zminus. rewrite inject_Z_plus, inject_Z_opp. reflexivity. }
  rewrite <- (number_Z (a - b)) by lia.
  apply number_compat; [| exact Hdiff].
  rewrite Hdiff. change 0 with (inject_Z 0). rewrite <- Zle_Qle. lia.
Qed.

Lemma number_neg x : x < 0 -> number x == - roundPositive (- x).
Proof.
  intros Hx. unfold number. rewrite Qred_correct.
  assert (Hcmp : Qcompare x 0 = Lt) by now apply Qlt_alt.
  rewrite Hcmp. reflexivity.
Qed.

(** Every double is a multiple of the least positive one. *)
Lemma number_multiple x : exists k : Z, number x == inject_Z k * pow2 (-1074).
Proof.
  assert (Hform : forall y, 0 < y ->
                    exists k : Z, roundPositive y == inject_Z k * pow2 (-1074)).
  { intros y Hy. destruct (roundPositive_form y Hy) as (M & s & _ & Hs & Hy').
    exists (M * 2 ^ (s + 1074))%Z.
    rewrite Hy', inject_Z_mult, <- pow2_Z by lia.
    rewrite <- Qmult_assoc, <- pow2_plus.
    replace (s + 1074 + -1074)%Z with s by lia. reflexivity. }
  destruct (Qlt_le_dec 0 x) as [Hpos | Hle].
  - destruct (Hform x Hpos) as [k Hk]. exists k. now rewrite number_pos.
  - destruct (Qlt_le_dec x 0) as [Hneg | Hge].
    + destruct (Hform (- x)) as [k Hk]; [lra |].
      exists (- k)%Z. rewrite number_neg, Hk, inject_Z_opp by exact Hneg. ring.
    + exists 0%Z. rewrite number_0 by lra. ring.
Qed.

(** The difference of two doubles is not rounded to zero. *)
Lemma sub_pos a b :
  isDouble a = true -> isDouble b = true -> b < a -> 0 < sub a b.
Proof.
  unfold isDouble. intros Ha Hb Hlt.
  apply Qeq_bool_iff in Ha, Hb.
  destruct (number_multiple a) as [ka Hka], (number_multiple b) as [kb Hkb].
  pose proof (pow2_pos (-1074)) as Hunit.
  assert (Hdiff : number a - number b == inject_Z (ka - kb) * pow2 (-1074)).
  { rewrite Hka, Hkb. unfold Zminus. rewrite inject_Z_plus, inject_Z_opp. ring. }
  assert (Hk : (1 <= ka - kb)%Z).
  { destruct (Z_lt_le_dec (ka - kb) 1) as [Hsmall | Hok]; [| exact Hok].
    exfalso. assert (Hle : inject_Z (ka - kb) <= 0).
    { change 0 with (inject_Z 0). rewrite <- Zle_Qle. lia. }
    assert (number a - number b <= 0).
    { rewrite Hdiff. apply Qle_trans with (0 * pow2 (-1074)); [| lra].
      apply Qmult_le_compat_r; [exact Hle | lra]. }
    lra. }
  assert (Hunit_le : pow2 (-1074) <= number a - number b).
  { rewrite Hdiff. apply Qle_trans with (1 * pow2 (-1074)); [lra |].
    apply Qmult_le_compat_r; [| lra].
    change 1 with (inject_Z 1). rewrite <- Zle_Qle. exact Hk. }
  unfold sub. apply Qlt_le_trans with (pow2 (-1074)); [exact Hunit |].
  apply Qle_trans with (number (inject_Z 1 * pow2 (-1074))).
  - rewrite number_fixed by lia. rewrite Qmult_1_l. apply Qle_refl.
  - apply number_mono; [| now rewrite Qmult_1_l].
    rewrite Qmult_1_l. lra.
Qed.

(** The difference of a double and a smaller one that is not negative is
    not negative, whatever is rounded. *)
Lemma sub_nonneg a b : 0 <= b -> b <= a -> 0 <= sub a b.
Proof.
  intros Hb Hle. unfold sub. apply number_nonneg.
  pose proof (number_mono b a Hb Hle). lra.
Qed.

End JsFacts.

(** ** The rendering of whole numbers *)
Module JsStringFacts.
Import Js Routes JsFacts.

Lemma pretty_N_go_length x s :
  String.length s <= String.length (pretty_N_go x s).
Proof.
  revert s. induction (N.lt_wf_0 x) as [x _ IH]; intros s.
  assert (x = 0 \/ 0 < x)%N as [-> | Hpos] by lia.
  - now rewrite pretty_N_go_0.
  - rewrite pretty_N_go_step by exact Hpos.
    etransitivity; [| apply IH; now apply N.div_lt]. cbn. lia.
Qed.

Lemma pretty_N_char_digit x : isDigit (pretty_N_char x) = true.
Proof.
  unfold pretty_N_char.
  repeat (match goal with |- context [match ?y with _ => _ end] => destruct y end;
          try reflexivity).
Qed.

Lemma pretty_N_go_digits x s :
  allChars isDigit s = true -> allChars isDigit (pretty_N_go x s) = true.
Proof.
  revert s. induction (N.lt_wf_0 x) as [x _ IH]; intros s Hs.
  assert (x = 0 \/ 0 < x)%N as [-> | Hpos] by lia.
  - now rewrite pretty_N_go_0.
  - rewrite pretty_N_go_step by exact Hpos.
    apply IH; [now apply N.div_lt |]. cbn [allChars].
    now rewrite pretty_N_char_digit, Hs.
Qed.

(** The decimal rendering of a number is a non-empty run of digits exactly
    when the number is not negative. *)
Lemma pretty_digits_iff (order_ : Z) :
  negb (String.eqb (pretty order_) "") && allChars isDigit (pretty order_) = true
  <-> (0 <= order_)%Z.
Proof.
  destruct order_ as [| p | p].
  - split; [lia | reflexivity].
  - split; [lia |]. intros _.
    change (pretty (Z.pos p)) with (pretty_N_go (N.pos p) "").
    rewrite pretty_N_go_digits by reflexivity.
    pose proof (pretty_N_go_length (N.pos p / 10)
                  (String (pretty_N_char (N.pos p `mod` 10)) "")) as Hlen.
    rewrite <- pretty_N_go_step in Hlen by lia.
    destruct (pretty_N_go (N.pos p) ""); [cbn in Hlen; lia | reflexivity].
  - split; [| lia]. intros Hvalid.
    change (pretty (Z.neg p)) with ("-" +:+ pretty (N.pos p)) in Hvalid.
    cbn in Hvalid. discriminate.
Qed.

Lemma pretty_nonneg_digits (n : Z) :
  (0 <= n)%Z -> pretty n <> "" /\ allChars isDigit (pretty n) = true.
Proof.
  intros Hn. apply pretty_digits_iff in Hn. apply andb_true_iff in Hn as [Hne Hall].
  split; [| exact Hall]. intros Heq. rewrite Heq in Hne. discriminate.
Qed.

Lemma hasExponent_app a b : hasExponent (a +:+ b) = hasExponent a || hasExponent b.
Proof.
  induction a as [| c a IH]; [reflexivity |].
  change (String c a +:+ b) with (String c (a +:+ b)). cbn [hasExponent].
  now rewrite IH, orb_assoc.
Qed.

Lemma digits_no_exponent s : allChars isDigit s = true -> hasExponent s = false.
Proof.
  induction s as [| c s IH]; [reflexivity |]. cbn [allChars hasExponent].
  intros Hall. apply andb_true_iff in Hall as [Hc Hs]. rewrite (IH Hs), orb_false_r.
  destruct (Ascii.eqb_spec c (Ascii.ascii_of_nat 101)) as [-> |]; [discriminate Hc | reflexivity].
Qed.

Lemma pretty_no_exponent (n : Z) : hasExponent (pretty n) = false.
Proof.
  destruct n as [| p | p].
  - reflexivity.
  - apply digits_no_exponent, (pretty_nonneg_digits (Z.pos p)). lia.
  - change (pretty (Z.neg p)) with ("-" +:+ pretty (Z.pos p)).
    rewrite hasExponent_app. cbn [hasExponent Ascii.eqb orb].
    change (hasExponent "-") with false. cbn [orb].
    apply digits_no_exponent, (pretty_nonneg_digits (Z.pos p)). lia.
Qed.

(** Two strings that agree, each cut at its first e, agree part by part. *)
Lemma split_at_exponent a a' b b' :
  hasExponent a = false -> hasExponent a' = false ->
  a +:+ String (Ascii.ascii_of_nat 101) b = a' +:+ String (Ascii.ascii_of_nat 101) b' -> a = a' /\ b = b'.
Proof.
  revert a'. induction a as [| c a IH]; intros [| c' a'] Ha Ha';
    cbn [hasExponent] in Ha, Ha'.
  - intros [= ->]. now split.
  - change (String c' a' +:+ String (Ascii.ascii_of_nat 101) b') with (String c' (a' +:+ String (Ascii.ascii_of_nat 101) b')).
    intros [= <- _]. discriminate Ha'.
  - change (String c a +:+ String (Ascii.ascii_of_nat 101) b) with (String c (a +:+ String (Ascii.ascii_of_nat 101) b)).
    intros [= -> _]. discriminate Ha.
  - change (String c a +:+ String (Ascii.ascii_of_nat 101) b) with (String c (a +:+ String (Ascii.ascii_of_nat 101) b)).
    change (String c' a' +:+ String (Ascii.ascii_of_nat 101) b') with (String c' (a' +:+ String (Ascii.ascii_of_nat 101) b')).
    apply orb_false_iff in Ha as [_ Ha]. apply orb_false_iff in Ha' as [_ Ha'].
    intros [= -> Heq]. destruct (IH a' Ha Ha' Heq) as [-> ->]. now split.
Qed.

Lemma exponentForm_head first rest e :
  exponentForm (String first rest) e
  = String first (match rest with EmptyString => EmptyString | _ => "." +:+ rest end
                  +:+ String (Ascii.ascii_of_nat 101) ("+" +:+ pretty e)).
Proof. reflexivity. Qed.

Lemma exponentForm_inj digits digits' e e' :
  digits <> "" -> digits' <> "" ->
  allChars isDigit digits = true -> allChars isDigit digits' = true ->
  exponentForm digits e = exponentForm digits' e' -> digits = digits' /\ e = e'.
Proof.
  destruct digits as [| c rest]; [congruence |].
  destruct digits' as [| c' rest']; [congruence |].
  intros _ _ Hd Hd'. cbn [allChars] in Hd, Hd'.
  apply andb_true_iff in Hd as [_ Hrest]. apply andb_true_iff in Hd' as [_ Hrest'].
  rewrite !exponentForm_head. intros [= -> Heq].
  apply split_at_exponent in Heq as [Hfrac Hexp].
  - assert (He : e = e').
    { change ("+" +:+ pretty e) with (String (Ascii.ascii_of_nat 43) (pretty e)) in Hexp.
      change ("+" +:+ pretty e') with (String (Ascii.ascii_of_nat 43) (pretty e')) in Hexp.
      injection Hexp as Hexp. now apply (inj pretty) in Hexp. }
    split; [| exact He].
    destruct rest as [| r rest], rest' as [| r' rest']; try reflexivity.
    + change ("." +:+ String r' rest') with (String (Ascii.ascii_of_nat 46) (String r' rest')) in Hfrac.
      discriminate.
    + change ("." +:+ String r rest) with (String (Ascii.ascii_of_nat 46) (String r rest)) in Hfrac.
      discriminate.
    + change ("." +:+ String r rest) with (String (Ascii.ascii_of_nat 46) (String r rest)) in Hfrac.
      change ("." +:+ String r' rest') with (String (Ascii.ascii_of_nat 46) (String r' rest')) in Hfrac.
      now injection Hfrac as -> ->.
  - destruct rest; [reflexivity |].
    change ("." +:+ String a rest) with (String (Ascii.ascii_of_nat 46) (String a rest)).
    cbn [hasExponent Ascii.eqb]. change (Ascii.eqb (Ascii.ascii_of_nat 46) (Ascii.ascii_of_nat 101)) with false.
    now apply digits_no_exponent in Hrest.
  - destruct rest'; [reflexivity |].
    change ("." +:+ String a rest') with (String (Ascii.ascii_of_nat 46) (String a rest')).
    cbn [hasExponent Ascii.eqb]. change (Ascii.eqb (Ascii.ascii_of_nat 46) (Ascii.ascii_of_nat 101)) with false.
    now apply digits_no_exponent in Hrest'.
Qed.

Lemma exponentForm_hasExponent digits e :
  digits <> "" -> hasExponent (exponentForm digits e) = true.
Proof.
  destruct digits as [| c rest]; [congruence |]. intros _.
  rewrite exponentForm_head. cbn [hasExponent].
  rewrite hasExponent_app. cbn [hasExponent]. rewrite Ascii.eqb_refl.
  cbn [orb]. now rewrite !orb_true_r.
Qed.

Lemma candidate_standsFor n p s :
  (0 <= n)%Z -> candidate n p = Some s -> standsFor n s p.
Proof.
  intros Hn. unfold candidate.
  assert (Hlo : (0 <= n / 10 ^ p)%Z).
  { destruct (Z_lt_le_dec p 0) as [Hneg | Hpos].
    - rewrite Z.pow_neg_r by exact Hneg. now rewrite Z.div_0_r.
    - apply Z.div_pos; [exact Hn |]. apply Z.pow_pos_nonneg; lia. }
  set (lo := (n / 10 ^ p)%Z) in *.
  destruct (roundsTo n (lo * 10 ^ p) && (0 <=? p)%Z) eqn:Hvlo;
    destruct (roundsTo n ((lo + 1) * 10 ^ p) && (0 <=? p)%Z) eqn:Hvhi;
    try discriminate;
    try (apply andb_true_iff in Hvlo as [Hvlo Hplo]; apply Qeq_bool_iff in Hvlo;
         apply Z.leb_le in Hplo);
    try (apply andb_true_iff in Hvhi as [Hvhi Hphi]; apply Qeq_bool_iff in Hvhi;
         apply Z.leb_le in Hphi);
    intros [= <-].
  - destruct (Z.compare _ _); [destruct (Z.even lo) | |]; repeat split;
      first [assumption | lia].
  - repeat split; assumption.
  - repeat split; first [assumption | lia].
Qed.

Lemma shortest_standsFor fuel k n nd s p :
  (0 <= n)%Z -> isDouble (inject_Z n) = true ->
  shortest fuel k n nd = (s, p) -> standsFor n s p.
Proof.
  intros Hn Hdouble. revert k. induction fuel as [| fuel IH]; intros k;
    cbn [shortest].
  - intros [= <- <-]. repeat split; [exact Hn | lia |].
    rewrite Z.mul_1_r. now apply Qeq_bool_iff.
  - destruct (candidate n (nd - k)) as [found |] eqn:Hfound; [| apply IH].
    intros [= <- <-]. now apply candidate_standsFor.
Qed.

Lemma stripZeros_standsFor fuel n s p s' p' :
  standsFor n s p -> stripZeros fuel s p = (s', p') -> standsFor n s' p'.
Proof.
  revert s p. induction fuel as [| fuel IH]; intros s p Hs; cbn [stripZeros].
  - now intros [= <- <-].
  - destruct ((s mod 10 =? 0)%Z && negb (s =? 0)%Z) eqn:Hzero;
      [| now intros [= <- <-]].
    apply IH. apply andb_true_iff in Hzero as [Hmod _]. apply Z.eqb_eq in Hmod.
    destruct Hs as (Hs0 & Hp0 & Hvalue). repeat split.
    + apply Z.div_pos; lia.
    + lia.
    + replace (s / 10 * 10 ^ (p + 1))%Z with (s * 10 ^ p)%Z; [exact Hvalue |].
      rewrite Z.pow_add_r, Z.pow_1_r by lia.
      pose proof (Z.div_mod s 10 ltac:(lia)). nia.
Qed.

Lemma exponential_inj n n' :
  (0 <= n)%Z -> (0 <= n')%Z ->
  isDouble (inject_Z n) = true -> isDouble (inject_Z n') = true ->
  exponential n = exponential n' -> n = n'.
Proof.
  intros Hn Hn' Hd Hd'. unfold exponential.
  destruct (shortest 17 1 n _) as [s0 p0] eqn:Hshort.
  destruct (shortest 17 1 n' _) as [s0' p0'] eqn:Hshort'.
  apply (shortest_standsFor _ _ _ _ _ _ Hn Hd) in Hshort.
  apply (shortest_standsFor _ _ _ _ _ _ Hn' Hd') in Hshort'.
  destruct (stripZeros _ s0 p0) as [s p] eqn:Hstrip.
  destruct (stripZeros _ s0' p0') as [s' p'] eqn:Hstrip'.
  apply (stripZeros_standsFor _ _ _ _ _ _ Hshort) in Hstrip.
  apply (stripZeros_standsFor _ _ _ _ _ _ Hshort') in Hstrip'.
  destruct Hstrip as (Hs & Hp & Hvalue). destruct Hstrip' as (Hs' & Hp' & Hvalue').
  destruct (pretty_nonneg_digits s Hs) as [Hne Hdigits].
  destruct (pretty_nonneg_digits s' Hs') as [Hne' Hdigits'].
  intros Heq. apply exponentForm_inj in Heq as [Hsame He]; try assumption.
  apply (inj pretty) in Hsame. subst s'. assert (p = p') by lia. subst p'.
  apply inject_Z_injective. rewrite <- Hvalue, <- Hvalue'. reflexivity.
Qed.

Lemma exponential_hasExponent n :
  (0 <= n)%Z -> isDouble (inject_Z n) = true -> hasExponent (exponential n) = true.
Proof.
  intros Hn Hd. unfold exponential.
  destruct (shortest 17 1 n _) as [s0 p0] eqn:Hshort.
  apply (shortest_standsFor _ _ _ _ _ _ Hn Hd) in Hshort.
  destruct (stripZeros _ s0 p0) as [s p] eqn:Hstrip.
  apply (stripZeros_standsFor _ _ _ _ _ _ Hshort) in Hstrip.
  destruct Hstrip as (Hs & _). apply exponentForm_hasExponent.
  now apply (pretty_nonneg_digits s Hs).
Qed.

Lemma isDouble_abs n :
  isDouble (inject_Z n) = true -> isDouble (inject_Z (Z.abs n)) = true.
Proof.
  destruct n as [| p | p]; [intros Hd; exact Hd | intros Hd; exact Hd |].
  unfold isDouble. intros Hd. apply Qeq_bool_iff in Hd. apply Qeq_bool_iff.
  change (Z.abs (Z.neg p)) with (Z.pos p).
  unfold number in *. rewrite Qred_correct in *.
  change (Qcompare (inject_Z (Z.neg p)) 0) with Lt in Hd.
  change (Qcompare (inject_Z (Z.pos p)) 0) with Gt.
  change (- inject_Z (Z.neg p))%Q with (inject_Z (Z.pos p)) in Hd.
  change (inject_Z (Z.neg p)) with (- inject_Z (Z.pos p))%Q in Hd.
  now apply Qopp_comp in Hd; rewrite !Qopp_involutive in Hd.
Qed.

(** The strings of different whole numbers differ. *)
Lemma integerToString_inj n n' :
  integerToString n = integerToString n' -> n = n'.
Proof.
  assert (Hplain : forall a b : Z,
             (if (b <? 0)%Z then "-" else "") +:+ exponential (Z.abs b) = pretty a ->
             isDouble (inject_Z b) = true -> False).
  { intros a b Heq Hd. pose proof (pretty_no_exponent a) as Hno.
    rewrite <- Heq, hasExponent_app in Hno.
    rewrite exponential_hasExponent in Hno; [| lia | now apply isDouble_abs].
    now rewrite orb_true_r in Hno. }
  unfold integerToString.
  destruct (Z.abs n <? 10 ^ 21)%Z eqn:Hsmall;
    destruct (Z.abs n' <? 10 ^ 21)%Z eqn:Hsmall'.
  - apply (inj pretty).
  - destruct (isDouble (inject_Z n')) eqn:Hd'; [| apply (inj pretty)].
    intros Heq. symmetry in Heq. now destruct (Hplain _ _ Heq Hd').
  - destruct (isDouble (inject_Z n)) eqn:Hd; [| apply (inj pretty)].
    intros Heq. now destruct (Hplain _ _ Heq Hd).
  - destruct (isDouble (inject_Z n)) eqn:Hd;
      destruct (isDouble (inject_Z n')) eqn:Hd'.
    + intros Heq.
      assert (Hform : forall m : Z, isDouble (inject_Z m) = true ->
                 exists c rest, exponential (Z.abs m) = String c rest
                                /\ isDigit c = true).
      { intros m Hm. unfold exponential.
        destruct (shortest 17 1 (Z.abs m) _) as [s0 p0] eqn:Hshort.
        apply (shortest_standsFor _ _ _ _ _ _ (Z.abs_nonneg m) (isDouble_abs _ Hm))
          in Hshort.
        destruct (stripZeros _ s0 p0) as [s p] eqn:Hstrip.
        apply (stripZeros_standsFor _ _ _ _ _ _ Hshort) in Hstrip.
        destruct Hstrip as (Hs & _).
        destruct (pretty_nonneg_digits s Hs) as [Hne Hdigits].
        destruct (pretty s) as [| c rest]; [congruence |].
        cbn [allChars] in Hdigits. apply andb_true_iff in Hdigits as [Hc _].
        rewrite exponentForm_head. eauto. }
      destruct (Hform n Hd) as (c & rest & Hexp & Hc).
      destruct (Hform n' Hd') as (c' & rest' & Hexp' & Hc').
      assert (Habs : Z.abs n = Z.abs n' /\ (n <? 0)%Z = (n' <? 0)%Z).
      { destruct (n <? 0)%Z eqn:Hneg; destruct (n' <? 0)%Z eqn:Hneg'.
        - change ("-" +:+ exponential (Z.abs n))
            with (String (Ascii.ascii_of_nat 45) (exponential (Z.abs n))) in Heq.
          change ("-" +:+ exponential (Z.abs n'))
            with (String (Ascii.ascii_of_nat 45) (exponential (Z.abs n'))) in Heq.
          injection Heq as Heq. split; [| reflexivity].
          apply exponential_inj; try apply Z.abs_nonneg; try now apply isDouble_abs.
          exact Heq.
        - change ("-" +:+ exponential (Z.abs n))
            with (String (Ascii.ascii_of_nat 45) (exponential (Z.abs n))) in Heq.
          change ("" +:+ exponential (Z.abs n')) with (exponential (Z.abs n')) in Heq.
          rewrite Hexp' in Heq. injection Heq as <- _. discriminate Hc'.
        - change ("-" +:+ exponential (Z.abs n'))
            with (String (Ascii.ascii_of_nat 45) (exponential (Z.abs n'))) in Heq.
          change ("" +:+ exponential (Z.abs n)) with (exponential (Z.abs n)) in Heq.
          rewrite Hexp in Heq. injection Heq as -> _. discriminate Hc.
        - change ("" +:+ exponential (Z.abs n)) with (exponential (Z.abs n)) in Heq.
          change ("" +:+ exponential (Z.abs n')) with (exponential (Z.abs n')) in Heq.
          split; [| reflexivity].
          apply exponential_inj; try apply Z.abs_nonneg; try now apply isDouble_abs.
          exact Heq. }
      destruct Habs as [Habs Hsign].
      destruct (Z.ltb_spec n 0), (Z.ltb_spec n' 0); try discriminate; lia.
    + intros Heq. now destruct (Hplain _ _ Heq Hd).
    + intros Heq. symmetry in Heq. now destruct (Hplain _ _ Heq Hd').
    + apply (inj pretty).
Qed.

End JsStringFacts.

Module SLOEvaluatorFacts.
Import SLOEvaluator.

Lemma gtb_true (a b : Q) : gtb a b = true <-> (b < a)%Q.
Proof.
  unfold gtb. rewrite negb_true_iff, <- not_true_iff_false, Qle_bool_iff.
  split; [apply Qnot_le_lt | apply Qlt_not_le].
Qed.

Lemma gtb_false (a b : Q) : gtb a b = false <-> ¬ (b < a)%Q.
Proof. rewrite <- gtb_true. destruct (gtb a b); split; congruence. Qed.

(** The violations are what each configured SLO contributes, in order. *)
Lemma checkEach_contributions sloConfigs metrics :
  checkEach sloConfigs metrics
  = flat_map
      (fun slo =>
         let observed := getMetricValue metrics (percentile slo) in
         if gtb observed (latency_ms slo)
         then [ {| v_percentile := percentile slo;
                   expected_max_ms := latency_ms slo;
                   actual_ms := observed;
                   violation_margin_ms := Js.sub observed (latency_ms slo) |} ]
         else [])
      sloConfigs.
Proof.
  induction sloConfigs as [| slo rest IH]; [reflexivity |].
  cbn [checkEach flat_map].
  destruct (gtb _ _); cbn [app]; now rewrite IH.
Qed.

Lemma checkEach_nil_iff sloConfigs metrics :
  checkEach sloConfigs metrics = [] <->
  Forall (fun slo => ¬ (latency_ms slo < getMetricValue metrics (percentile slo))%Q)
         sloConfigs.
Proof.
  induction sloConfigs as [| slo rest IH]; cbn [checkEach].
  - split; [constructor | reflexivity].
  - destruct (gtb _ _) eqn:E.
    + split; [discriminate |].
      intros Hall. apply Forall_cons_1 in Hall as [Hh _].
      apply gtb_true in E. contradiction.
    + rewrite IH. apply gtb_false in E.
      split; [now constructor | intros Hall; now apply Forall_cons_1 in Hall as [_ Ht]].
Qed.

(** C2. [evaluateSLOs] passes exactly when no configured SLO observes a
    value strictly above its threshold, the observed value of an SLO being
    the field of the metrics that its percentile names: [p999], [p99],
    [p90] or [median].  The violations are, in order, one per configured
    SLO whose observed value exceeds the threshold, carrying the
    percentile, the threshold, the observed value and their difference,
    which is the subtraction of the two doubles: the exact difference
    whenever both are whole numbers of at most 2^53, and
    0.19999999999999998 for 0.3 against 0.1.  A p999 threshold of 100
    against 150 observed fails with the single margin 50, and against 80
    observed passes; thresholds of 100 on all four percentiles against
    150, 80, 120 and 100 observed give the violations of p999 and p90. *)
Theorem evaluateSLOs_spec `{JsFormat} :
  (forall sloConfigs metrics,
      let observed slo :=
        match percentile slo with
        | P999 => p999 metrics
        | P99 => p99 metrics
        | P90 => p90 metrics
        | Median => median metrics
        end in
      let r := evaluateSLOs sloConfigs metrics in
      (passed r = true <->
       Forall (fun slo => ¬ (latency_ms slo < observed slo)%Q) sloConfigs)
      /\ (passed r = true <-> violations r = [])
      /\ violations r =
         flat_map
           (fun slo =>
              if gtb (observed slo) (latency_ms slo)
              then [ {| v_percentile := percentile slo;
                        expected_max_ms := latency_ms slo;
                        actual_ms := observed slo;
                        violation_margin_ms :=
                          Js.sub (observed slo) (latency_ms slo) |} ]
              else [])
           sloConfigs)
  /\ (forall observed threshold : Z,
        (0 <= threshold < observed)%Z -> (observed <= 2 ^ 53)%Z ->
        Js.sub (inject_Z observed) (inject_Z threshold)
        = inject_Z (observed - threshold))
  /\ Js.sub (3 # 10) (1 # 10) = (7205759403792793 # 36028797018963968)%Q
  /\ (forall a b c,
        let r := evaluateSLOs [ {| percentile := P999; latency_ms := 100 |} ]
                   {| p999 := 150; p99 := a; p90 := b; median := c |} in
        passed r = false
        /\ violations r = [ {| v_percentile := P999; expected_max_ms := 100;
                               actual_ms := 150; violation_margin_ms := 50 |} ])
  /\ (forall a b c,
        passed (evaluateSLOs [ {| percentile := P999; latency_ms := 100 |} ]
                  {| p999 := 80; p99 := a; p90 := b; median := c |}) = true)
  /\ (let r := evaluateSLOs
                 [ {| percentile := P999; latency_ms := 100 |};
                   {| percentile := P99; latency_ms := 100 |};
                   {| percentile := P90; latency_ms := 100 |};
                   {| percentile := Median; latency_ms := 100 |} ]
                 {| p999 := 150; p99 := 80; p90 := 120; median := 100 |} in
      passed r = false
      /\ violations r = [ {| v_percentile := P999; expected_max_ms := 100;
                             actual_ms := 150; violation_margin_ms := 50 |};
                          {| v_percentile := P90; expected_max_ms := 100;
                             actual_ms := 120; violation_margin_ms := 20 |} ]).
Proof.
  split; [| split; [| split; [| split; [| split]]]].
  - intros sloConfigs metrics observed r. subst r. cbn [passed violations evaluateSLOs].
    assert (Hlen : forall l : list SLOViolation, Nat.eqb (length l) 0 = true <-> l = []).
    { intros [| x l]; cbn; split; congruence. }
    split; [| split].
    + rewrite Hlen. apply checkEach_nil_iff.
    + apply Hlen.
    + apply checkEach_contributions.
  - intros observed threshold Hrange Hbound. apply JsFacts.sub_whole; lia.
  - vm_compute. reflexivity.
  - intros a b c. split; vm_compute; reflexivity.
  - intros a b c. vm_compute. reflexivity.
  - split; vm_compute; reflexivity.
Qed.

End SLOEvaluatorFacts.

Module StageStorageFacts.
Import StageStorage.

Section WithFormat.
Context `{JsFormat}.

Lemma spread_logsOnly l stage : spread stage (logsOnly l) = set_logs l stage.
Proof. reflexivity. Qed.

Lemma handleStateTransition_main now stage newState st :
  main (snd (handleStateTransition now stage newState st)) = main st.
Proof.
  unfold handleStateTransition.
  repeat (match goal with |- context [if ?b then _ else _] => destruct b end);
    reflexivity.
Qed.

Lemma handleStateTransition_state now stage newState st :
  state (fst (handleStateTransition now stage newState st)) = newState.
Proof.
  unfold handleStateTransition.
  repeat (match goal with |- context [if ?b then _ else _] => destruct b end);
    try destruct (time_started stage); reflexivity.
Qed.

(** [updateStage] with only new logs rewrites the logs of what is stored. *)
Lemma updateStage_logsOnly now l st stage :
  main st = Some stage ->
  updateStage now (logsOnly l) st
  = (Some (set_logs l stage), save (set_logs l stage) st).
Proof.
  intros Hmain. unfold updateStage, get. rewrite Hmain. cbn [spread logsOnly state default u_state].
  rewrite bool_decide_eq_true_2 by reflexivity. reflexivity.
Qed.

(** What [updateStageState] leaves in storage: the outcome of the
    transition, with some logs. *)
Lemma updateStageState_stored now newState logs_ st stage :
  main st = Some stage ->
  exists l,
    main (snd (updateStageState now newState logs_ st))
    = Some (set_logs l (fst (handleStateTransition now stage newState st))).
Proof.
  intros Hmain. unfold updateStageState, get. rewrite Hmain.
  pose proof (handleStateTransition_main now stage newState st) as Hm.
  destruct (handleStateTransition now stage newState st) as [updatedStage st1].
  cbn [fst snd] in *.
  destruct (getVerboseStateMessage newState (state stage)) as [message |].
  - cbn [snd addLogAfterGet].
    erewrite updateStage_logsOnly by reflexivity.
    cbn [snd save main]. eexists. reflexivity.
  - cbn [snd save main]. eexists. reflexivity.
Qed.

Lemma updateStageState_returns now newState logs_ st stage :
  main st = Some stage ->
  exists l,
    fst (updateStageState now newState logs_ st)
    = Some (set_logs l (fst (handleStateTransition now stage newState st))).
Proof.
  intros Hmain. unfold updateStageState, get. rewrite Hmain.
  destruct (handleStateTransition now stage newState st) as [updatedStage st1].
  cbn [fst snd]. eexists. reflexivity.
Qed.

(** C10. On a StageStorage that holds no stage record, [updateStageState],
    [progressStage] and [addLog] return null and leave the storage as it
    is: no record is created. *)
Theorem uninitialized_stage_untouched now st newState logs_ command message :
  get st = None ->
  updateStageState now newState logs_ st = (None, st)
  /\ progressStage now command st = (None, st)
  /\ addLog now message st = (None, st).
Proof.
  intros Hget. unfold updateStageState, progressStage, addLog, addLogAfterGet.
  rewrite Hget. repeat split.
Qed.

(** Entering [done_successful] or [done_failed] from [running] or
    [awaiting_approval] stamps the completion time and, when the stage has
    a start time, the whole seconds elapsed since. *)
Lemma finished_stage_stamped now stage newState st logs_ started :
  main st = Some stage ->
  state stage = running \/ state stage = awaiting_approval ->
  newState = done_successful \/ newState = done_failed ->
  time_started stage = Some started ->
  exists stored,
    main (snd (updateStageState now newState logs_ st)) = Some stored
    /\ state stored = newState
    /\ time_done stored = Some now
    /\ time_elapsed stored = ((now - started) / 1000)%Z.
Proof.
  intros Hmain Hfrom Hto Hstarted.
  destruct (updateStageState_stored now newState logs_ st stage Hmain) as [l Hl].
  eexists. split; [exact Hl |].
  unfold handleStateTransition. rewrite Hstarted.
  destruct Hfrom as [-> | ->], Hto as [-> | ->]; cbn; auto.
Qed.

(** C6 (the case the code misses). Entering [done_cancelled] from [running]
    or [awaiting_approval] changes the state only: [time_done] and
    [time_elapsed] stay as they were. *)
Theorem cancelled_stage_not_stamped now stage st logs_ :
  main st = Some stage ->
  state stage = running \/ state stage = awaiting_approval ->
  exists stored,
    main (snd (updateStageState now done_cancelled logs_ st)) = Some stored
    /\ state stored = done_cancelled
    /\ time_done stored = time_done stage
    /\ time_elapsed stored = time_elapsed stage.
Proof.
  intros Hmain Hfrom.
  destruct (updateStageState_stored now done_cancelled logs_ st stage Hmain) as [l Hl].
  eexists. split; [exact Hl |].
  unfold handleStateTransition.
  destruct Hfrom as [-> | ->]; cbn; auto.
Qed.

End WithFormat.
End StageStorageFacts.

Module ReleaseHistoryFacts.
Import ReleaseHistory.

Lemma getReleaseHistory_save releases st :
  getReleaseHistory (saveReleaseHistory releases st) = releases.
Proof. reflexivity. Qed.

Lemma trimReleaseHistory_take releases :
  trimReleaseHistory releases = take MAX_RELEASES releases.
Proof.
  unfold trimReleaseHistory.
  destruct (Nat.ltb_spec MAX_RELEASES (length releases)) as [Hlt | Hge];
    [reflexivity | now rewrite take_ge].
Qed.

Lemma createRelease_releases release st :
  getReleaseHistory (snd (createRelease release st))
  = release :: take 99 (getReleaseHistory st).
Proof.
  unfold createRelease. cbn [snd]. rewrite getReleaseHistory_save.
  now rewrite trimReleaseHistory_take.
Qed.

(** C9. [createRelease] puts the new release first, keeps the earlier
    entries in their order behind it, and keeps at most 100 entries: what
    does not fit is cut from the far end of the list, where the oldest
    entries are, and nothing is cut while there is room. *)
Theorem createRelease_bounded release st :
  let before := getReleaseHistory st in
  let after := getReleaseHistory (snd (createRelease release st)) in
  fst (createRelease release st) = release
  /\ length after <= 100
  /\ head after = Some release
  /\ after = take 100 (release :: before)
  /\ (exists dropped,
        release :: before = after ++ dropped
        /\ length dropped = length before - 99)
  /\ (length before < 100 -> after = release :: before).
Proof.
  intros before after. subst before after.
  rewrite createRelease_releases.
  set (before := getReleaseHistory st).
  repeat split.
  - cbn [length]. rewrite length_take. lia.
  - exists (drop 99 before). split.
    + cbn [app]. now rewrite take_drop.
    + now rewrite length_drop.
  - intros Hlt. rewrite take_ge by lia. reflexivity.
Qed.

Lemma findIndex_lookup id_ releases index :
  findIndex id_ releases = Some index ->
  exists r, releases !! index = Some r /\ id r = id_.
Proof.
  revert index. induction releases as [| r rest IH]; intros index; cbn; [discriminate |].
  destruct (String.eqb_spec (id r) id_) as [Heq | Hne].
  - intros [= <-]. exists r. auto.
  - destruct (findIndex id_ rest) as [i |]; cbn; [| discriminate].
    intros [= <-]. cbn. now apply IH.
Qed.

Lemma findIndex_None id_ releases :
  findIndex id_ releases = None <-> Forall (fun r => id r <> id_) releases.
Proof.
  induction releases as [| r rest IH]; cbn.
  - split; [constructor | reflexivity].
  - destruct (String.eqb_spec (id r) id_) as [Heq | Hne].
    + split; [discriminate |]. intros Hall. apply Forall_cons_1 in Hall as [Hh _].
      contradiction.
    + destruct (findIndex id_ rest) as [i |]; cbn.
      * split; [discriminate |]. intros Hall. apply Forall_cons_1 in Hall as [_ Ht].
        apply IH in Ht. discriminate.
      * split; [| reflexivity]. intros _. constructor; [assumption | now apply IH].
Qed.

Lemma releaseTransition_state now release previousState newState st :
  state (fst (handleStateTransition now release previousState newState st)) = newState.
Proof.
  unfold handleStateTransition.
  repeat (match goal with
          | |- context [if ?b then _ else _] => destruct b
          | |- context [match ?o with Some _ => _ | None => _ end] => destruct o
          end; cbn); reflexivity.
Qed.

(** What [updateReleaseState] stores for a known id: the entry it found,
    replaced by the outcome of the transition. *)
Lemma updateReleaseState_found now id_ state_ st index stored :
  findIndex id_ (getReleaseHistory st) = Some index ->
  getReleaseHistory st !! index = Some stored ->
  fst (updateReleaseState now id_ state_ st) = true
  /\ getReleaseHistory (snd (updateReleaseState now id_ state_ st))
     = <[index := fst (handleStateTransition now stored (state stored) state_ st)]>
         (getReleaseHistory st).
Proof.
  intros Hfind Hlookup. unfold updateReleaseState, findReleaseIndex.
  rewrite Hfind, Hlookup.
  destruct (handleStateTransition now stored (state stored) state_ st) as [u st1].
  split; reflexivity.
Qed.

Lemma updateReleaseState_unknown now id_ state_ st :
  findIndex id_ (getReleaseHistory st) = None ->
  updateReleaseState now id_ state_ st = (false, st).
Proof.
  intros Hfind. unfold updateReleaseState, findReleaseIndex. now rewrite Hfind.
Qed.

(** [getRelease] after [updateReleaseState] of the same id: the state asked
    for. *)
Lemma getRelease_findIndex id_ releases index r :
  findIndex id_ releases = Some index ->
  releases !! index = Some r ->
  List.find (fun release => String.eqb (id release) id_) releases = Some r.
Proof.
  revert index. induction releases as [| x rest IH]; intros index; cbn; [discriminate |].
  destruct (String.eqb (id x) id_).
  - intros [= <-]. cbn. congruence.
  - destruct (findIndex id_ rest) as [i |]; cbn; [| discriminate].
    intros [= <-]. cbn. now apply IH.
Qed.

Lemma findIndex_insert_same id_ releases index r :
  findIndex id_ releases = Some index ->
  id r = id_ ->
  findIndex id_ (<[index := r]> releases) = Some index.
Proof.
  revert index. induction releases as [| x rest IH]; intros index; cbn; [discriminate |].
  destruct (String.eqb_spec (id x) id_) as [Heq | Hne].
  - intros [= <-] Hid. cbn. rewrite Hid, String.eqb_refl. reflexivity.
  - destruct (findIndex id_ rest) as [i |] eqn:E; cbn; [| discriminate].
    intros [= <-] Hid. change (<[S i := r]> (x :: rest)) with (x :: <[i := r]> rest).
    cbn [findIndex].
    destruct (String.eqb_spec (id x) id_); [contradiction |].
    now rewrite (IH i eq_refl Hid).
Qed.

Lemma releaseTransition_id now release previousState newState st :
  id (fst (handleStateTransition now release previousState newState st)) = id release.
Proof.
  unfold handleStateTransition.
  repeat (match goal with
          | |- context [if ?b then _ else _] => destruct b
          | |- context [match ?o with Some _ => _ | None => _ end] => destruct o
          end; cbn); reflexivity.
Qed.

Lemma updateReleaseState_getRelease now id_ state_ st r :
  getRelease id_ st = Some r ->
  exists r',
    getRelease id_ (snd (updateReleaseState now id_ state_ st)) = Some r'
    /\ state r' = state_ /\ id r' = id_
    /\ plan_record r' = plan_record r /\ old_version r' = old_version r.
Proof.
  unfold getRelease. intros Hget.
  destruct (findIndex id_ (getReleaseHistory st)) as [index |] eqn:Hfind.
  2:{ apply findIndex_None in Hfind. apply find_some in Hget as [Hin Heq].
      rewrite List.Forall_forall in Hfind. apply Hfind in Hin.
      apply String.eqb_eq in Heq. contradiction. }
  destruct (findIndex_lookup _ _ _ Hfind) as (stored & Hlookup & Hid).
  pose proof (getRelease_findIndex _ _ _ _ Hfind Hlookup) as Hget'.
  rewrite Hget in Hget'. injection Hget' as <-.
  destruct (updateReleaseState_found now id_ state_ st index r Hfind Hlookup)
    as [_ Hafter].
  rewrite Hafter.
  set (u := fst (handleStateTransition now r (state r) state_ st)).
  assert (Hu : id u = id_).
  { subst u. now rewrite releaseTransition_id. }
  exists u. split; [| split; [| split; [| split]]].
  - eapply getRelease_findIndex.
    + now apply findIndex_insert_same.
    + apply list_lookup_insert_eq. eapply lookup_lt_Some; eassumption.
  - subst u. apply releaseTransition_state.
  - exact Hu.
  - subst u. unfold handleStateTransition.
    repeat (match goal with
            | |- context [if ?b then _ else _] => destruct b
            | |- context [match ?o with Some _ => _ | None => _ end] => destruct o
            end; cbn); reflexivity.
  - subst u. unfold handleStateTransition.
    repeat (match goal with
            | |- context [if ?b then _ else _] => destruct b
            | |- context [match ?o with Some _ => _ | None => _ end] => destruct o
            end; cbn); reflexivity.
Qed.

End ReleaseHistoryFacts.

Module ApiFacts.
Import PlanStorage ReleaseHistory Api.

Lemma onPlanStorage_histories {A} cid (method : PlanStorage.Storage -> A * PlanStorage.Storage) env :
  Env.RELEASE_HISTORY (snd (Env.onPlanStorage cid method env)) = Env.RELEASE_HISTORY env.
Proof. unfold Env.onPlanStorage. now destruct (method _). Qed.

Lemma initializeStages_histories releaseId_ planStages env :
  Env.RELEASE_HISTORY (initializeStages releaseId_ planStages env)
  = Env.RELEASE_HISTORY env.
Proof.
  revert env. induction planStages as [| planStage rest IH]; intros env; cbn; [reflexivity |].
  now rewrite IH.
Qed.

Lemma getReleaseHistory_histories env env' cid :
  Env.RELEASE_HISTORY env' = Env.RELEASE_HISTORY env ->
  Env.getReleaseHistory env' cid = Env.getReleaseHistory env cid.
Proof. unfold Env.getReleaseHistory. now intros ->. Qed.

Lemma getReleaseHistory_onReleaseHistory {A} cid
    (method : ReleaseHistory.Storage -> A * ReleaseHistory.Storage) env :
  Env.getReleaseHistory (snd (Env.onReleaseHistory cid method env)) cid
  = snd (method (Env.getReleaseHistory env cid)).
Proof.
  unfold Env.onReleaseHistory. destruct (method _) as [a st]. cbn.
  unfold Env.getReleaseHistory, Env.setReleaseHistory. cbn.
  now rewrite lookup_insert_eq.
Qed.

Lemma no_active_release_filter releases :
  List.find isActive releases = None -> List.filter isActive releases = [].
Proof.
  induction releases as [| r rest IH]; cbn; [reflexivity |].
  destruct (isActive r); [discriminate | exact IH].
Qed.

Lemma no_active_release_take n releases :
  List.filter isActive releases = [] -> List.filter isActive (take n releases) = [].
Proof.
  revert n. induction releases as [| r rest IH]; intros [| n]; cbn; try reflexivity.
  destruct (isActive r); [discriminate | apply IH].
Qed.

(** C4, as the code has it. The check for an active release is made by the
    route [POST /release/create], not by [ReleaseHistory.createRelease]: with
    an active release in the history the route answers 409 and changes
    nothing; with none it answers the new release, which is [not_started],
    first in the history and its only active entry.  [createRelease] itself
    always returns the release and puts it first. *)
Theorem postReleaseCreate_one_active now releaseId_ body cid env :
  create_connectionId body = Some cid ->
  SLOEvaluator.truthyString cid = true ->
  let before := Env.getReleaseHistory env cid in
  let result := postReleaseCreate now releaseId_ body env in
  let after := getReleaseHistory (Env.getReleaseHistory (snd result) cid) in
  (hasActiveRelease before = true ->
   result = (jsonMessage 409 "A release is already staged", env))
  /\ (hasActiveRelease before = false ->
      exists created,
        fst result = jsonRelease 200 created
        /\ id created = releaseId_
        /\ state created = not_started
        /\ after = take 100 (created :: getReleaseHistory before)
        /\ List.filter isActive after = [created])
  /\ (forall release st,
        fst (createRelease release st) = release
        /\ head (getReleaseHistory (snd (createRelease release st))) = Some release).
Proof.
  intros Hcid Htruthy before result after. subst before result after.
  split; [| split].
  3:{ intros release st. split; [reflexivity |].
      now rewrite ReleaseHistoryFacts.createRelease_releases. }
  all: unfold postReleaseCreate; rewrite Hcid, Htruthy.
  all: intros Hactive; rewrite Hactive.
  1: reflexivity.
  destruct (Env.onPlanStorage cid PlanStorage.get env) as [plan env1] eqn:Hplan.
  set (newRelease := Build_Release _ _ _ _ _ _ _ _ _ _).
  set (env2 := initializeStages releaseId_ (PlanStorage.stages plan) env1).
  assert (Hsame : Env.getReleaseHistory env2 cid = Env.getReleaseHistory env cid).
  { apply getReleaseHistory_histories. subst env2.
    rewrite initializeStages_histories.
    change env1 with (snd (plan, env1)). rewrite <- Hplan.
    apply onPlanStorage_histories. }
  pose proof (getReleaseHistory_onReleaseHistory cid (createRelease newRelease) env2)
    as Hafter.
  destruct (Env.onReleaseHistory cid (createRelease newRelease) env2)
    as [createdRelease env3] eqn:Hcreate.
  cbn [fst snd] in *.
  assert (Hcreated : createdRelease = newRelease).
  { unfold Env.onReleaseHistory in Hcreate. cbn in Hcreate. congruence. }
  subst createdRelease.
  exists newRelease. repeat split.
  - rewrite Hafter, Hsame, ReleaseHistoryFacts.createRelease_releases.
    reflexivity.
  - rewrite Hafter, Hsame, ReleaseHistoryFacts.createRelease_releases.
    cbn [List.filter]. change (isActive newRelease) with true. cbv iota.
    f_equal. apply no_active_release_take, no_active_release_filter.
    unfold hasActiveRelease, getActiveRelease in Hactive.
    now destruct (List.find isActive _).
Qed.

(** C5, as the code has it. [PUT /plan] checks the shape of the body only: a
    body with a connection id and a plan whose [stages] and [slos] are
    arrays is stored as it is, stamped with the time of saving, whatever the
    percentages of its stages; any other body is answered 400 and nothing is
    stored. *)
Theorem putPlan_checks_shape_only now body env :
  (forall cid stages_ slos_ plan_,
      put_connectionId body = Some cid ->
      SLOEvaluator.truthyString cid = true ->
      put_plan body = Some plan_ ->
      body_stages plan_ = array stages_ ->
      body_slos plan_ = array slos_ ->
      let saved :=
        {| PlanStorage.stages := stages_; slos := slos_;
           worker_name := body_worker_name plan_;
           polling_fraction := body_polling_fraction plan_;
           time_last_saved := Some now |} in
      putPlan now body env = (jsonPlan 200 saved, Env.setPlanStorage cid (Some saved) env))
  /\ ((truthy (put_connectionId body) = false
       \/ put_plan body = None
       \/ (exists plan_, put_plan body = Some plan_
             /\ ((forall l, body_stages plan_ <> array l)
                 \/ (forall l, body_slos plan_ <> array l)))) ->
      exists message, putPlan now body env = (jsonMessage 400 message, env)).
Proof.
  split.
  - intros cid stages_ slos_ plan_ Hcid Htruthy Hplan Hstages Hslos saved.
    unfold putPlan, putPlanValidator.
    rewrite Hcid, Htruthy, Hplan, Hstages, Hslos. reflexivity.
  - intros Hbad. unfold putPlan, putPlanValidator.
    destruct (put_connectionId body) as [cid |] eqn:Hcid; cbn [truthy] in Hbad;
      [| eexists; reflexivity].
    destruct (SLOEvaluator.truthyString cid) eqn:Htruthy; [| eexists; reflexivity].
    destruct (put_plan body) as [plan_ |] eqn:Hplan; [| eexists; reflexivity].
    destruct Hbad as [Hbad | [Hbad | (p & [= <-] & Hbad)]]; try discriminate.
    destruct (body_stages plan_) as [| | l1] eqn:Hs; try (eexists; reflexivity).
    destruct (body_slos plan_) as [| | l2] eqn:Hl; try (eexists; reflexivity).
    destruct Hbad as [Hbad | Hbad]; [now destruct (Hbad l1) | now destruct (Hbad l2)].
Qed.

Lemma getActiveRelease_In st r :
  getActiveRelease st = Some r -> In r (getReleaseHistory st).
Proof. unfold getActiveRelease. intros Hfind. now apply find_some in Hfind. Qed.

Lemma filter_shrinks {A} (f : A -> bool) l x :
  In x l -> f x = false -> length (List.filter f l) < length l.
Proof.
  induction l as [| y l IH]; cbn; [contradiction |].
  intros [-> | Hin] Hf.
  - rewrite Hf. pose proof (filter_length_le f l). lia.
  - specialize (IH Hin Hf). destruct (f y); cbn; lia.
Qed.

Lemma filter_keeps_all {A} (f : A -> bool) l :
  Forall (fun x => f x = true) l -> List.filter f l = l.
Proof.
  induction 1 as [| x l Hx _ IH]; cbn; [reflexivity |]. now rewrite Hx, IH.
Qed.

(** What [removeRelease] does: it never looks at the state. *)
Lemma removeRelease_by_id id_ st :
  (Forall (fun r => id r <> id_) (getReleaseHistory st) ->
   removeRelease id_ st = (false, st))
  /\ (forall r, In r (getReleaseHistory st) -> id r = id_ ->
      removeRelease id_ st
      = (true,
         saveReleaseHistory
           (List.filter (fun release => negb (String.eqb (id release) id_))
              (getReleaseHistory st)) st)).
Proof.
  unfold removeRelease. split.
  - intros Hall. rewrite filter_keeps_all.
    + now rewrite Nat.ltb_irrefl.
    + eapply Forall_impl; [exact Hall |]. cbn. intros r Hr.
      now destruct (String.eqb_spec (id r) id_).
  - intros r Hin Hid.
    pose proof (filter_shrinks (fun release => negb (String.eqb (id release) id_))
                  _ r Hin) as Hlt.
    cbn in Hlt. rewrite Hid, String.eqb_refl in Hlt. specialize (Hlt eq_refl).
    apply Nat.ltb_lt in Hlt. now rewrite Hlt.
Qed.

(** C8, as the code has it. The state is checked by the route
    [DELETE /release/active], not by [ReleaseHistory.removeRelease]: the route
    deletes the active release only when it is [not_started]; when it is
    running the answer is 409, when there is none 404, and nothing changes.
    [removeRelease] itself removes every entry with the id whatever its
    state, and fails, changing nothing, only when no entry has the id. *)
Theorem deleteReleaseActive_only_not_started cid env :
  SLOEvaluator.truthyString cid = true ->
  let before := Env.getReleaseHistory env cid in
  let result := deleteReleaseActive (Some cid) env in
  (getActiveRelease before = None ->
   result = (jsonMessage 404 "No active release found", env))
  /\ (forall r, getActiveRelease before = Some r -> state r <> not_started ->
      exists message, result = (jsonMessage 409 message, env))
  /\ (forall r, getActiveRelease before = Some r -> state r = not_started ->
      fst result = text 200 "Release deleted"
      /\ getReleaseHistory (Env.getReleaseHistory (snd result) cid)
         = List.filter (fun release => negb (String.eqb (id release) (id r)))
             (getReleaseHistory before))
  /\ (forall id_ st,
        (Forall (fun r => id r <> id_) (getReleaseHistory st) ->
         removeRelease id_ st = (false, st))
        /\ (forall r, In r (getReleaseHistory st) -> id r = id_ ->
            fst (removeRelease id_ st) = true
            /\ getReleaseHistory (snd (removeRelease id_ st))
               = List.filter (fun release => negb (String.eqb (id release) id_))
                   (getReleaseHistory st))).
Proof.
  intros Htruthy before result. subst before result.
  unfold deleteReleaseActive. rewrite Htruthy.
  split; [| split; [| split]].
  - now intros ->.
  - intros r -> Hstate. rewrite bool_decide_eq_false_2 by assumption.
    eexists. reflexivity.
  - intros r Hactive Hstate. rewrite Hactive.
    rewrite bool_decide_eq_true_2 by assumption. cbn [negb].
    pose proof (getReleaseHistory_onReleaseHistory cid (removeRelease (id r)) env)
      as Hafter.
    pose proof (proj2 (removeRelease_by_id (id r) (Env.getReleaseHistory env cid))
                  r (getActiveRelease_In _ _ Hactive) eq_refl) as Hremove.
    unfold Env.onReleaseHistory in *. rewrite Hremove in *. cbn [negb fst snd] in *.
    split; [reflexivity |]. now rewrite Hafter.
  - intros id_ st. split; [apply removeRelease_by_id |].
    intros r Hin Hid.
    rewrite (proj2 (removeRelease_by_id id_ st) r Hin Hid). split; reflexivity.
Qed.

End ApiFacts.

Module ReleaseWorkflowFacts.
Import PlanStorage ReleaseHistory ReleaseWorkflow.

Section WithCollaborators.
Context `{JsFormat}.
Variable ext : Collaborators.
Variable this : ReleaseWorkflowParams.

Lemma onlyStagesDiffer_refl w : onlyStagesDiffer w w.
Proof. repeat split. Qed.

Lemma onlyStagesDiffer_trans w1 w2 w3 :
  onlyStagesDiffer w1 w2 -> onlyStagesDiffer w2 w3 -> onlyStagesDiffer w1 w3.
Proof.
  unfold onlyStagesDiffer. intros (? & ? & ? & ? & ?) (? & ? & ? & ? & ?).
  repeat split; congruence.
Qed.

Lemma onlyStagesDiffer_releaseRecord w w' releaseId_ :
  onlyStagesDiffer w w' -> releaseRecord this w' releaseId_ = releaseRecord this w releaseId_.
Proof.
  intros (_ & _ & _ & Hh & _). unfold releaseRecord, Env.getReleaseHistory.
  now rewrite Hh.
Qed.

Lemma getStageStorage_set key st e key' :
  Env.getStageStorage (Env.setStageStorage key st e) key'
  = if decide (key = key') then st else Env.getStageStorage e key'.
Proof.
  unfold Env.getStageStorage, Env.setStageStorage. cbn.
  rewrite lookup_insert. now destruct (decide (key = key')).
Qed.

Lemma onStageStorage_run {A} key
    (method : Z -> StageStorage.Storage -> A * StageStorage.Storage) w :
  onStageStorage key method w
  = (Returned (fst (method (clock w) (Env.getStageStorage (env w) key))),
     setEnv (Env.setStageStorage key
               (snd (method (clock w) (Env.getStageStorage (env w) key))) (env w)) w).
Proof.
  unfold onStageStorage, Env.onStageStorage. now destruct (method _ _).
Qed.

Lemma onReleaseHistory_run {A}
    (method : Z -> ReleaseHistory.Storage -> A * ReleaseHistory.Storage) w :
  onReleaseHistory this method w
  = (Returned (fst (method (clock w)
                      (Env.getReleaseHistory (env w) (connectionId this)))),
     setEnv (Env.setReleaseHistory (connectionId this)
               (snd (method (clock w)
                       (Env.getReleaseHistory (env w) (connectionId this))))
               (env w)) w).
Proof.
  unfold onReleaseHistory, Env.onReleaseHistory. now destruct (method _ _).
Qed.

(** One call of [updateStageState] through the stub: the record under the
    key takes the state, every other StageStorage stays as it is. *)
Lemma updateStageState_call key newState logs_ w data :
  stageRecord w key = Some data ->
  exists w',
    onStageStorage key
      (fun now => StageStorage.updateStageState now newState logs_) w
    = (Returned (fst (StageStorage.updateStageState (clock w) newState logs_
                        (Env.getStageStorage (env w) key))), w')
    /\ onlyStagesDiffer w w'
    /\ (exists data', stageRecord w' key = Some data'
                      /\ StageStorage.state data' = newState)
    /\ (forall key', key' <> key ->
        Env.getStageStorage (env w') key' = Env.getStageStorage (env w) key').
Proof.
  intros Hdata. rewrite onStageStorage_run. eexists. split; [reflexivity |].
  split; [repeat split |]. split.
  - unfold stageRecord, StageStorage.get in *. cbn [env setEnv].
    rewrite getStageStorage_set, decide_True by reflexivity.
    destruct (StageStorageFacts.updateStageState_stored (clock w) newState logs_
                _ data Hdata) as [l Hl].
    rewrite Hl. eexists. split; [reflexivity |]. cbn.
    apply StageStorageFacts.handleStateTransition_state.
  - intros key' Hne. cbn [env setEnv].
    rewrite getStageStorage_set, decide_False by congruence. reflexivity.
Qed.

(** The bulk update with [excludeCompleted] returns, touches nothing but
    StageStorage objects, and among those none whose record is missing or
    in a [done_] state. *)
Lemma updateStagesStateBad_skips releaseId_ stages_ state_ w :
  exists w',
    updateStagesStateBad releaseId_ stages_ state_ true w = (Returned tt, w')
    /\ onlyStagesDiffer w w'
    /\ (forall key,
          (forall s, stageRecord w key = Some s ->
                     StageStorage.startsWithDone (StageStorage.state s) = true) ->
          Env.getStageStorage (env w') key = Env.getStageStorage (env w) key).
Proof.
  revert w. induction stages_ as [| planStage rest IH]; intros w.
  - exists w. split; [reflexivity |]. split; [apply onlyStagesDiffer_refl | reflexivity].
  - cbn [updateStagesStateBad]. unfold bind at 1, stageGet at 1.
    fold (stageRecord w (stageName releaseId_ (PlanStorage.order planStage))).
    set (key0 := stageName releaseId_ (PlanStorage.order planStage)).
    destruct (stageRecord w key0) as [data |] eqn:Hdata; [| apply IH].
    cbn [negb orb].
    destruct (StageStorage.startsWithDone (StageStorage.state data)) eqn:Hdone;
      cbn [negb]; [apply IH |].
    destruct (updateStageState_call key0 state_ None w data Hdata)
      as (w1 & Hrun & Hframe & _ & Hother).
    unfold bind. rewrite Hrun.
    destruct (IH w1) as (w' & Hrest & Hframe' & Hkeep).
    exists w'. split; [exact Hrest |].
    split; [eapply onlyStagesDiffer_trans; eassumption |].
    intros key Hterminal.
    assert (Hne : key <> key0).
    { intros ->. specialize (Hterminal data Hdata). congruence. }
    rewrite Hkeep; [now apply Hother |].
    intros s. unfold stageRecord. rewrite (Hother key Hne). apply Hterminal.
Qed.

(** The bulk update with [excludeCompleted] brings to the state asked for
    (a [done_] state) every record it is sent to that is not yet in a
    [done_] state. *)
Lemma updateStagesStateBad_reaches releaseId_ stages_ state_ w w' key s :
  StageStorage.startsWithDone state_ = true ->
  updateStagesStateBad releaseId_ stages_ state_ true w = (Returned tt, w') ->
  stageRecord w key = Some s ->
  StageStorage.state s = state_
  \/ (StageStorage.startsWithDone (StageStorage.state s) = false
      /\ exists planStage, In planStage stages_
           /\ key = stageName releaseId_ (PlanStorage.order planStage)) ->
  exists s', stageRecord w' key = Some s' /\ StageStorage.state s' = state_.
Proof.
  intros Hdone_. revert w s.
  assert (Hstay : forall stages0 w s,
             updateStagesStateBad releaseId_ stages0 state_ true w = (Returned tt, w') ->
             stageRecord w key = Some s -> StageStorage.state s = state_ ->
             exists s', stageRecord w' key = Some s' /\ StageStorage.state s' = state_).
  { intros stages0 w s Hrun Hs Hstate.
    destruct (updateStagesStateBad_skips releaseId_ stages0 state_ w)
      as (w2 & Hrun2 & _ & Hkeep).
    rewrite Hrun in Hrun2. injection Hrun2 as <-.
    exists s. split; [| exact Hstate].
    unfold stageRecord in *. rewrite Hkeep; [exact Hs |].
    intros s0 Hs0. rewrite Hs in Hs0. injection Hs0 as <-. now rewrite Hstate. }
  induction stages_ as [| planStage rest IH]; intros w s Hrun Hs Hcase.
  - destruct Hcase as [Hstate | (_ & p & [] & _)]. eapply Hstay; eassumption.
  - destruct Hcase as [Hstate | (Hopen & p & Hin & Hkey)];
      [eapply Hstay; eassumption |].
    cbn [updateStagesStateBad] in Hrun. unfold bind at 1, stageGet at 1 in Hrun.
    fold (stageRecord w (stageName releaseId_ (PlanStorage.order planStage))) in Hrun.
    set (key0 := stageName releaseId_ (PlanStorage.order planStage)) in *.
    assert (Hrest : key <> key0 -> exists planStage0, In planStage0 rest
               /\ key = stageName releaseId_ (PlanStorage.order planStage0)).
    { intros Hne. destruct Hin as [<- | Hin]; [now destruct Hne |]. eauto. }
    destruct (stageRecord w key0) as [data |] eqn:Hdata.
    2:{ apply (IH w s Hrun Hs). right. split; [exact Hopen |].
        apply Hrest. intros ->. congruence. }
    cbn [negb orb] in Hrun.
    destruct (StageStorage.startsWithDone (StageStorage.state data)) eqn:Hdone;
      cbn [negb] in Hrun.
    { apply (IH w s Hrun Hs). right. split; [exact Hopen |].
      apply Hrest. intros ->. congruence. }
    destruct (updateStageState_call key0 state_ None w data Hdata)
      as (w1 & Hcall & _ & (data' & Hdata' & Hstate') & Hother).
    unfold bind in Hrun. rewrite Hcall in Hrun.
    destruct (decide (key = key0)) as [-> | Hne].
    + apply (IH w1 data' Hrun Hdata'). now left.
    + apply (IH w1 s Hrun).
      * unfold stageRecord in *. now rewrite (Hother key Hne).
      * right. split; [exact Hopen |]. now apply Hrest.
Qed.

Lemma onStageStorage_frame {A} key
    (method : Z -> StageStorage.Storage -> A * StageStorage.Storage) w :
  exists a w',
    onStageStorage key method w = (Returned a, w')
    /\ onlyStagesDiffer w w'
    /\ Env.getStageStorage (env w') key
       = snd (method (clock w) (Env.getStageStorage (env w) key))
    /\ (forall key', key' <> key ->
        Env.getStageStorage (env w') key' = Env.getStageStorage (env w) key').
Proof.
  rewrite onStageStorage_run. eexists _, _. split; [reflexivity |].
  split; [repeat split |]. cbn [env setEnv]. split.
  - now rewrite getStageStorage_set, decide_True.
  - intros key' Hne. now rewrite getStageStorage_set, decide_False by congruence.
Qed.

Lemma onReleaseHistory_frame {A}
    (method : Z -> ReleaseHistory.Storage -> A * ReleaseHistory.Storage) w :
  exists a w',
    onReleaseHistory this method w = (Returned a, w')
    /\ clock w' = clock w /\ queries w' = queries w
    /\ deployments w' = deployments w
    /\ Env.STAGE_STORAGE (env w') = Env.STAGE_STORAGE (env w)
    /\ Env.getReleaseHistory (env w') (connectionId this)
       = snd (method (clock w) (Env.getReleaseHistory (env w) (connectionId this))).
Proof.
  rewrite onReleaseHistory_run. eexists _, _. split; [reflexivity |].
  repeat split. cbn. unfold Env.getReleaseHistory at 1. cbn.
  now rewrite lookup_insert_eq.
Qed.

Lemma stageRecord_same_stages w w' key :
  Env.STAGE_STORAGE (env w') = Env.STAGE_STORAGE (env w) ->
  stageRecord w' key = stageRecord w key.
Proof. unfold stageRecord, Env.getStageStorage. now intros ->. Qed.

Lemma evaluateSLOs_nil metrics :
  SLOEvaluator.passed (SLOEvaluator.evaluateSLOs [] metrics) = true.
Proof. reflexivity. Qed.

(** Stage names of one release differ when the orders differ. *)
Lemma stageName_inj releaseId_ a b :
  stageName releaseId_ a = stageName releaseId_ b -> a = b.
Proof.
  unfold stageName. intros Heq.
  repeat (apply String.app_inj in Heq).
  now apply JsStringFacts.integerToString_inj in Heq.
Qed.

(** The handling of an SLO violation, once the release is found. *)
Lemma handleSLOViolation_effect releaseId_ currentStageOrder currentStageId w
    current data :
  releaseRecord this w releaseId_ = Some current ->
  stageRecord w currentStageId = Some data ->
  exists w',
    handleSLOViolation this releaseId_ currentStageOrder currentStageId w
    = (Returned tt, w')
    /\ (exists failed, stageRecord w' currentStageId = Some failed
          /\ StageStorage.state failed = StageStorage.done_failed)
    /\ (forall planStage s,
          In planStage (PlanStorage.stages (plan_record current)) ->
          (currentStageOrder < PlanStorage.order planStage)%Z ->
          stageName releaseId_ (PlanStorage.order planStage) <> currentStageId ->
          stageRecord w (stageName releaseId_ (PlanStorage.order planStage)) = Some s ->
          if StageStorage.startsWithDone (StageStorage.state s)
          then stageRecord w' (stageName releaseId_ (PlanStorage.order planStage))
               = Some s
          else exists s',
              stageRecord w' (stageName releaseId_ (PlanStorage.order planStage))
              = Some s'
              /\ StageStorage.state s' = StageStorage.done_cancelled)
    /\ (exists r', releaseRecord this w' releaseId_ = Some r'
          /\ state r' = done_failed_slo).
Proof.
  intros Hrelease Hdata. unfold handleSLOViolation.
  unfold bind at 1, getRelease at 1. fold (releaseRecord this w releaseId_).
  rewrite Hrelease.
  destruct (updateStageState_call currentStageId StageStorage.done_failed None w
              data Hdata) as (w1 & Hcall & Hframe1 & (failed & Hfailed & Hstate) & Hother1).
  unfold bind at 1. rewrite Hcall.
  set (remainingStages := List.filter _ _).
  destruct (updateStagesStateBad_skips releaseId_ remainingStages
              StageStorage.done_cancelled w1) as (w2 & Hbulk & Hframe2 & Hkeep).
  unfold bind at 1. rewrite Hbulk.
  destruct (onReleaseHistory_frame
              (fun now => updateReleaseState now releaseId_ done_failed_slo) w2)
    as (a & w3 & Hhist & _ & _ & _ & Hstages3 & Hafter).
  unfold bind at 1. rewrite Hhist. unfold ret.
  exists w3. split; [reflexivity |]. split; [| split].
  - exists failed. rewrite (stageRecord_same_stages _ _ _ Hstages3). split; [| exact Hstate].
    unfold stageRecord in *. rewrite Hkeep; [exact Hfailed |].
    intros s0 Hs0. rewrite Hfailed in Hs0. injection Hs0 as <-. now rewrite Hstate.
  - intros planStage s Hin Hlater Hne Hs.
    rewrite (stageRecord_same_stages _ _ _ Hstages3).
    assert (Hs1 : stageRecord w1 (stageName releaseId_ (PlanStorage.order planStage))
                  = Some s).
    { unfold stageRecord in *. now rewrite (Hother1 _ Hne). }
    destruct (StageStorage.startsWithDone (StageStorage.state s)) eqn:Hdone.
    + unfold stageRecord in *. rewrite Hkeep; [exact Hs1 |].
      intros s0 Hs0. rewrite Hs1 in Hs0. now injection Hs0 as <-.
    + eapply updateStagesStateBad_reaches; [reflexivity | exact Hbulk | exact Hs1 |].
      right. split; [exact Hdone |]. exists planStage. split; [| reflexivity].
      subst remainingStages. apply filter_In. split; [exact Hin |].
      now apply Z.ltb_lt.
  - assert (Hrelease2 : releaseRecord this w2 releaseId_ = Some current).
    { rewrite (onlyStagesDiffer_releaseRecord w1 w2 _ Hframe2).
      now rewrite (onlyStagesDiffer_releaseRecord w w1 _ Hframe1). }
    destruct (ReleaseHistoryFacts.updateReleaseState_getRelease (clock w2) releaseId_
                done_failed_slo _ current Hrelease2) as (r' & Hr' & Hstate' & _).
    exists r'. split; [| exact Hstate']. unfold releaseRecord. now rewrite Hafter.
Qed.

(** Once the soak of a stage has said [exit], [processStages] returns
    without touching any later stage. *)
Lemma processStages_stops_on_exit releaseId_ release stageRef rest stagePlan
    w0 ws w' :
  List.find (fun s => (PlanStorage.order s =? StageRef.order stageRef)%Z)
    (PlanStorage.stages (plan_record release)) = Some stagePlan ->
  (onStageStorage (StageRef.id stageRef)
     (fun now => StageStorage.updateStageState now StageStorage.running None) ;;;
   setDeploymentTarget ext this releaseId_ (target_percent stagePlan)
     (old_version release) (new_version release)) w0 = (Returned tt, ws) ->
  processStageSoak ext this releaseId_ stageRef stagePlan ws = (Returned exit, w') ->
  processStages ext this releaseId_ release (stageRef :: rest) w0 = (Returned tt, w').
Proof.
  intros Hfind Hstart Hsoak. cbn [processStages]. rewrite Hfind.
  unfold bind at 1. rewrite Hstart. unfold bind at 1. rewrite Hsoak. reflexivity.
Qed.

(** Rounds that pass leave the rest of the soak to run from where they
    end. *)
Lemma soakRounds_after releaseId_ stageRef release interval passed rest start w :
  soakRounds ext this releaseId_ stageRef release interval passed start
  = (Returned continue, w) ->
  soakRounds ext this releaseId_ stageRef release interval (passed + rest) start
  = soakRounds ext this releaseId_ stageRef release interval rest w.
Proof.
  revert start. induction passed as [| passed IH]; intros start; cbn [soakRounds Nat.add].
  - now intros [= <-].
  - unfold bind.
    destruct (soakRound _ _ _ _ _ _ start) as [[[ | ] | | ] w1]; try discriminate.
    apply IH.
Qed.

(** C1. When the SLO evaluation at the end of a polling round fails, the
    soak of the stage ends with [exit], however many rounds passed before
    that round and however many remain: the stage is [done_failed], every
    stage of the plan with a greater order that was not yet in a [done_]
    state is [done_cancelled] (those already in one keep their record), the
    release is [done_failed_slo], and [processStages] returns from that
    world without starting another stage. *)
Theorem slo_violation_fails_release releaseId_ stageRef stagePlan release
    earlier ws w w1 metrics sloConfigs current data :
  releaseRecord this ws releaseId_ = Some release ->
  let intervalTimeSeconds :=
    intervalTimeSecondsOf stagePlan (pollingFractionOf (Some release)) in
  let rounds :=
    Z.to_nat (Qfloor (Js.div (inject_Z (soak_time stagePlan))
                        (inject_Z intervalTimeSeconds))) in
  earlier < rounds ->
  soakRounds ext this releaseId_ stageRef (Some release) intervalTimeSeconds
    earlier ws = (Returned continue, w) ->
  checkCancellation ext this releaseId_ stageRef (Z.to_nat intervalTimeSeconds) w
  = (Returned continue, w1) ->
  telemetryQuery ext (clock w1 - intervalTimeSeconds * 1000)%Z (clock w1)
  = Some metrics ->
  SLOEvaluator.parseSLOsFromPlan (PlanStorage.slos (plan_record release))
  = Some sloConfigs ->
  SLOEvaluator.passed (SLOEvaluator.evaluateSLOs sloConfigs metrics) = false ->
  releaseRecord this w1 (id release) = Some current ->
  StageRef.id stageRef = stageName (id release) (StageRef.order stageRef) ->
  stageRecord w1 (StageRef.id stageRef) = Some data ->
  exists w',
    processStageSoak ext this releaseId_ stageRef stagePlan ws
    = (Returned exit, w')
    /\ (exists failed, stageRecord w' (StageRef.id stageRef) = Some failed
          /\ StageStorage.state failed = StageStorage.done_failed)
    /\ (forall planStage s,
          In planStage (PlanStorage.stages (plan_record current)) ->
          (StageRef.order stageRef < PlanStorage.order planStage)%Z ->
          stageRecord w1 (stageName (id release) (PlanStorage.order planStage))
          = Some s ->
          if StageStorage.startsWithDone (StageStorage.state s)
          then stageRecord w' (stageName (id release) (PlanStorage.order planStage))
               = Some s
          else exists s',
              stageRecord w' (stageName (id release) (PlanStorage.order planStage))
              = Some s'
              /\ StageStorage.state s' = StageStorage.done_cancelled)
    /\ (exists r', releaseRecord this w' (id release) = Some r'
          /\ state r' = done_failed_slo)
    /\ (forall release0 rest w0,
          List.find (fun s => (PlanStorage.order s =? StageRef.order stageRef)%Z)
            (PlanStorage.stages (plan_record release0)) = Some stagePlan ->
          (onStageStorage (StageRef.id stageRef)
             (fun now =>
                StageStorage.updateStageState now StageStorage.running None) ;;;
           setDeploymentTarget ext this releaseId_ (target_percent stagePlan)
             (old_version release0) (new_version release0)) w0 = (Returned tt, ws) ->
          processStages ext this releaseId_ release0 (stageRef :: rest) w0
          = (Returned tt, w')).
Proof.
  intros Hread intervalTimeSeconds rounds Hearlier Hpassed Hchecks Htelemetry
    Hparse Hfailed Hrelease Hname Hdata.
  assert (Hsome : Nat.ltb 0 (length sloConfigs) = true).
  { destruct sloConfigs; [| reflexivity].
    rewrite evaluateSLOs_nil in Hfailed. discriminate. }
  set (w2 := {| env := env w1; clock := clock w1; deployments := deployments w1;
                queries := queries w1
                           ++ [((clock w1 - intervalTimeSeconds * 1000)%Z, clock w1)] |}).
  assert (Hdata2 : stageRecord w2 (StageRef.id stageRef) = Some data) by exact Hdata.
  destruct (onStageStorage_frame (StageRef.id stageRef)
              (fun now =>
                 StageStorage.addLog now
                   ("🛑 SLO violations: "
                    +:+ String.concat ", "
                          (map renderViolationShort
                             (SLOEvaluator.violations
                                (SLOEvaluator.evaluateSLOs sloConfigs metrics))))) w2)
    as (a & w3 & Hlog & Hframe3 & Hkey3 & Hother3).
  assert (Hdata3 : exists l, stageRecord w3 (StageRef.id stageRef)
                             = Some (StageStorage.set_logs l data)).
  { unfold stageRecord, StageStorage.get in *. rewrite Hkey3.
    unfold StageStorage.addLog, StageStorage.get, StageStorage.addLogAfterGet.
    rewrite Hdata2.
    erewrite StageStorageFacts.updateStage_logsOnly by exact Hdata2.
    eexists. reflexivity. }
  destruct Hdata3 as [l Hdata3].
  assert (Hrelease3 : releaseRecord this w3 (id release) = Some current).
  { now rewrite (onlyStagesDiffer_releaseRecord w2 w3 _ Hframe3). }
  destruct (handleSLOViolation_effect (id release) (StageRef.order stageRef)
              (StageRef.id stageRef) w3 current _ Hrelease3 Hdata3)
    as (w' & Hhandle & Hstage & Hlater & Hstate).
  assert (Hround :
            soakRound ext this releaseId_ stageRef (Some release) intervalTimeSeconds w
            = (Returned exit, w')).
  { unfold soakRound. unfold bind at 1. rewrite Hchecks.
    unfold bind at 1. unfold bind at 1, getWallTimes at 1. cbn [clock].
    rewrite Htelemetry. fold w2. rewrite Hparse, Hsome, Hfailed. cbn [negb].
    unfold bind at 1. rewrite Hlog. unfold bind at 1. cbn [idOrEmpty].
    rewrite Hhandle. reflexivity. }
  assert (Hsoak : processStageSoak ext this releaseId_ stageRef stagePlan ws
                  = (Returned exit, w')).
  { unfold processStageSoak. unfold bind at 1, getRelease at 1.
    fold (releaseRecord this ws releaseId_). rewrite Hread.
    fold intervalTimeSeconds. fold rounds.
    replace rounds with (earlier + S (rounds - S earlier)) by lia.
    rewrite (soakRounds_after _ _ _ _ _ _ _ _ Hpassed).
    cbn [soakRounds]. unfold bind. now rewrite Hround. }
  exists w'. split; [exact Hsoak |]. split; [| split; [| split]].
  - exact Hstage.
  - intros planStage s Hin Hgt Hs.
    assert (Hne : stageName (id release) (PlanStorage.order planStage)
                  <> StageRef.id stageRef).
    { rewrite Hname. intros Heq. apply stageName_inj in Heq. lia. }
    apply (Hlater planStage s Hin Hgt Hne).
    unfold stageRecord in *. now rewrite (Hother3 _ Hne).
  - exact Hstate.
  - intros release0 rest w0 Hfind Hstart.
    now apply (processStages_stops_on_exit _ _ _ _ stagePlan w0 ws).
Qed.

(** *** Time and telemetry queries along the soak *)

Lemma sameTime_trans w1 w2 w3 : sameTime w1 w2 -> sameTime w2 w3 -> sameTime w1 w3.
Proof. unfold sameTime. intros [? ?] [? ?]. split; congruence. Qed.

Lemma onlyStagesDiffer_sameTime w w' : onlyStagesDiffer w w' -> sameTime w w'.
Proof. intros (? & ? & _). now split. Qed.

Lemma create_sameTime d w o w' : create ext d w = (o, w') -> sameTime w w'.
Proof.
  unfold create. destruct (deploymentsCreate ext d); intros [= <- <-]; now split.
Qed.

Lemma onStageStorage_sameTime {A} key
    (method : Z -> StageStorage.Storage -> A * StageStorage.Storage) w o w' :
  onStageStorage key method w = (o, w') -> sameTime w w' /\ exists a, o = Returned a.
Proof.
  destruct (onStageStorage_frame key method w) as (a & w1 & -> & Hframe & _).
  intros [= <- <-]. split; [now apply onlyStagesDiffer_sameTime | eauto].
Qed.

Lemma onReleaseHistory_sameTime {A}
    (method : Z -> ReleaseHistory.Storage -> A * ReleaseHistory.Storage) w o w' :
  onReleaseHistory this method w = (o, w') -> sameTime w w' /\ exists a, o = Returned a.
Proof.
  destruct (onReleaseHistory_frame method w) as (a & w1 & -> & ? & ? & _).
  intros [= <- <-]. split; [now split | eauto].
Qed.

Lemma updateStagesStateBad_sameTime releaseId_ stages_ state_ w o w' :
  updateStagesStateBad releaseId_ stages_ state_ true w = (o, w') ->
  sameTime w w' /\ o = Returned tt.
Proof.
  destruct (updateStagesStateBad_skips releaseId_ stages_ state_ w)
    as (w1 & -> & Hframe & _).
  intros [= <- <-]. split; [now apply onlyStagesDiffer_sameTime | reflexivity].
Qed.

Lemma handleExternalCancellation_sameTime releaseId_ order_ w o w' :
  handleExternalCancellation ext this releaseId_ order_ w = (o, w') -> sameTime w w'.
Proof.
  unfold handleExternalCancellation, bind at 1, getRelease at 1.
  destruct (ReleaseHistory.getRelease _ _) as [release |];
    [| intros [= <- <-]; now split].
  unfold bind at 1.
  destruct (updateStagesStateBad _ _ _ _ w) as [o1 w1] eqn:E1.
  apply updateStagesStateBad_sameTime in E1 as [Ht1 ->].
  unfold bind at 1.
  destruct (onReleaseHistory _ _ w1) as [o2 w2] eqn:E2.
  apply onReleaseHistory_sameTime in E2 as [Ht2 [a ->]].
  intros Hrevert. apply create_sameTime in Hrevert.
  eauto using sameTime_trans.
Qed.

Lemma handleSLOViolation_sameTime releaseId_ order_ stageId w o w' :
  handleSLOViolation this releaseId_ order_ stageId w = (o, w') -> sameTime w w'.
Proof.
  unfold handleSLOViolation, bind at 1, getRelease at 1.
  destruct (ReleaseHistory.getRelease _ _) as [release |];
    [| intros [= <- <-]; now split].
  unfold bind at 1.
  destruct (onStageStorage _ _ w) as [o1 w1] eqn:E1.
  apply onStageStorage_sameTime in E1 as [Ht1 [a1 ->]].
  unfold bind at 1.
  destruct (updateStagesStateBad _ _ _ _ w1) as [o2 w2] eqn:E2.
  apply updateStagesStateBad_sameTime in E2 as [Ht2 ->].
  unfold bind at 1.
  destruct (onReleaseHistory _ _ w2) as [o3 w3] eqn:E3.
  apply onReleaseHistory_sameTime in E3 as [Ht3 [a3 ->]].
  intros [= <- <-]. eauto using sameTime_trans.
Qed.

(** The cancellation checks make no telemetry query; when they all pass,
    one second has gone by for each. *)
Lemma checkCancellation_time releaseId_ stageRef j w o w' :
  checkCancellation ext this releaseId_ stageRef j w = (o, w') ->
  queries w' = queries w
  /\ (o = Returned continue -> clock w' = (clock w + 1000 * Z.of_nat j)%Z).
Proof.
  revert w. induction j as [| j IH]; intros w; cbn [checkCancellation].
  - intros [= <- <-]. split; [reflexivity | intros _; lia].
  - unfold bind at 1, getRelease at 1.
    destruct (match ReleaseHistory.getRelease _ _ with
              | Some r => negb (bool_decide (state r = running))
              | None => true
              end).
    + unfold bind at 1.
      destruct (handleExternalCancellation _ _ _ _ w) as [o1 w1] eqn:E1.
      apply handleExternalCancellation_sameTime in E1 as [_ Hq].
      destruct o1; intros [= <- <-]; (split; [exact Hq | discriminate]).
    + unfold bind at 1, sleepOneSecond at 1. intros Hrest.
      apply IH in Hrest as [Hq Hc]. cbn [queries clock] in *.
      split; [exact Hq |]. intros Ho. rewrite (Hc Ho). lia.
Qed.

(** What one polling round adds: at most one telemetry query and, when the
    round passes, exactly one, over a window of the length of the interval,
    after as many seconds. *)
Lemma soakRound_time releaseId_ stageRef release interval w o w' :
  soakRound ext this releaseId_ stageRef release interval w = (o, w') ->
  length (queries w') <= length (queries w) + 1
  /\ (o = Returned continue ->
      clock w' = (clock w + 1000 * Z.of_nat (Z.to_nat interval))%Z
      /\ queries w'
         = queries w ++ [((clock w' - interval * 1000)%Z, clock w')]).
Proof.
  unfold soakRound, bind at 1.
  destruct (checkCancellation _ _ _ _ _ w) as [o1 w1] eqn:E1.
  apply checkCancellation_time in E1 as [Hq1 Hc1].
  destruct o1 as [[ | ] | | ];
    try (intros [= <- <-]; rewrite Hq1; split; [lia | discriminate]).
  specialize (Hc1 eq_refl).
  unfold bind at 1. unfold bind at 1, getWallTimes at 1. cbn [clock queries].
  set (w2 := Build_World _ _ _ _).
  assert (Hq2 : queries w2
                = queries w ++ [((clock w1 - interval * 1000)%Z, clock w1)]).
  { subst w2. cbn. now rewrite Hq1. }
  assert (Hc2 : clock w2 = clock w1) by reflexivity.
  destruct (telemetryQuery ext _ _) as [metrics |].
  2:{ intros [= <- <-]. rewrite Hq2, length_app. cbn. split; [lia | discriminate]. }
  destruct release as [release |].
  2:{ intros [= <- <-]. rewrite Hq2, length_app. cbn. split; [lia | discriminate]. }
  destruct (SLOEvaluator.parseSLOsFromPlan _) as [sloConfigs |].
  2:{ intros [= <- <-]. rewrite Hq2, length_app. cbn. split; [lia | discriminate]. }
  destruct (Nat.ltb 0 _).
  2:{ intros [= <- <-]. rewrite Hq2, length_app. cbn. split; [lia |].
      intros _. split; [exact Hc1 | reflexivity]. }
  destruct (negb _).
  2:{ intros [= <- <-]. rewrite Hq2, length_app. cbn. split; [lia |].
      intros _. split; [exact Hc1 | reflexivity]. }
  unfold bind at 1.
  destruct (onStageStorage _ _ w2) as [o3 w3] eqn:E3.
  apply onStageStorage_sameTime in E3 as [[_ Hq3] [a3 ->]].
  unfold bind at 1.
  destruct (handleSLOViolation _ _ _ _ w3) as [o4 w4] eqn:E4.
  apply handleSLOViolation_sameTime in E4 as [_ Hq4].
  assert (Hlen : length (queries w4) <= length (queries w) + 1).
  { rewrite Hq4, Hq3, Hq2, length_app. cbn. lia. }
  destruct o4; intros [= <- <-]; (split; [exact Hlen | discriminate]).
Qed.

Lemma soakRounds_bound releaseId_ stageRef release interval i w o w' :
  soakRounds ext this releaseId_ stageRef release interval i w = (o, w') ->
  length (queries w') <= length (queries w) + i.
Proof.
  revert w. induction i as [| i IH]; intros w; cbn [soakRounds].
  - intros [= <- <-]. lia.
  - unfold bind at 1.
    destruct (soakRound _ _ _ _ _ _ w) as [o1 w1] eqn:E1.
    apply soakRound_time in E1 as [Hlen _].
    destruct o1 as [[ | ] | | ]; try (intros [= <- <-]; lia).
    intros Hrest. apply IH in Hrest. lia.
Qed.

Lemma soakRounds_complete releaseId_ stageRef release interval i w w' :
  (1 <= interval)%Z ->
  soakRounds ext this releaseId_ stageRef release interval i w
  = (Returned continue, w') ->
  clock w' = (clock w + 1000 * (Z.of_nat i * interval))%Z
  /\ exists windows,
      queries w' = queries w ++ windows
      /\ length windows = i
      /\ Forall (fun window => (window.2 - window.1 = interval * 1000)%Z) windows.
Proof.
  intros Hpos. revert w. induction i as [| i IH]; intros w; cbn [soakRounds].
  - intros [= <-]. split; [lia |]. exists []. rewrite app_nil_r. repeat split. constructor.
  - unfold bind at 1.
    destruct (soakRound _ _ _ _ _ _ w) as [o1 w1] eqn:E1.
    apply soakRound_time in E1 as [_ Hround].
    destruct o1 as [[ | ] | | ]; try discriminate.
    destruct (Hround eq_refl) as [Hc1 Hq1].
    intros Hrest. apply IH in Hrest as (Hc & windows & Hq & Hlen & Hwidth).
    split; [rewrite Hc, Hc1; lia |].
    exists (((clock w1 - interval * 1000)%Z, clock w1) :: windows).
    split; [| split].
    + rewrite Hq, Hq1, <- app_assoc. reflexivity.
    + cbn. now rewrite Hlen.
    + constructor; [cbn; lia | exact Hwidth].
Qed.

Lemma pollingFraction_used release :
  (0 < Js.number (polling_fraction (plan_record release)))%Q ->
  pollingFractionOf (Some release)
  = Js.number (polling_fraction (plan_record release)).
Proof.
  intros Hpos. unfold pollingFractionOf, SLOEvaluator.truthyNumber.
  destruct (Qeq_bool _ 0) eqn:E; [| reflexivity].
  apply Qeq_bool_iff in E. rewrite E in Hpos. now apply Qlt_irrefl in Hpos.
Qed.

Lemma interval_bounds soak fraction :
  (0 < soak <= 2 ^ 53)%Z -> (0 <= fraction)%Q -> (fraction <= 1)%Q ->
  (1 <= Z.max 1 (Qfloor (Js.mul (inject_Z soak) fraction)) <= soak)%Z.
Proof.
  intros Hsoak Hpos Hle. split; [lia |].
  apply Z.max_lub; [lia |].
  rewrite <- (Qfloor_Z soak) at 2. apply Qfloor_resp_le.
  assert (Hwhole : (Js.number (inject_Z soak) == inject_Z soak)%Q)
    by (apply JsFacts.number_Z; lia).
  assert (Hone : (Js.number fraction <= 1)%Q).
  { rewrite <- (JsFacts.number_Z 1) by lia. now apply JsFacts.number_mono. }
  pose proof (JsFacts.number_nonneg fraction Hpos) as Hfraction.
  assert (Hsoak0 : (0 <= inject_Z soak)%Q).
  { change 0%Q with (inject_Z 0). rewrite <- Zle_Qle. lia. }
  unfold Js.mul. rewrite <- Hwhole at 2.
  apply JsFacts.number_mono.
  - rewrite Hwhole. now apply Qmult_le_0_compat.
  - rewrite Hwhole. rewrite <- (Qmult_1_r (inject_Z soak)) at 2.
    rewrite !(Qmult_comm (inject_Z soak)).
    now apply Qmult_le_compat_r.
Qed.

(** C7. With a release whose polling fraction lies in (0,1] and a stage
    with a positive soak time (of at most 2^51 seconds), the soak polls
    every [max(1, floor(soak_time * polling_fraction))] seconds and runs
    [floor(soak_time / interval)] rounds, product and quotient being those
    of doubles: the interval lies between 1 and the soak time, the number
    of rounds is the whole quotient of the two, a soak that is not cut
    short makes exactly that many telemetry queries, each over a window of
    one interval, and lasts rounds times interval seconds, which leaves out
    less than one interval of the soak time; no soak makes more queries.
    The product is the rounded one: 90 seconds at 0.7 give an interval of
    62 seconds, and 10 seconds at 0.3 one of 3. *)
Theorem soak_polling_rounds releaseId_ stageRef stagePlan release w :
  releaseRecord this w releaseId_ = Some release ->
  let fraction := Js.number (polling_fraction (plan_record release)) in
  (0 < fraction)%Q ->
  (fraction <= 1)%Q ->
  (0 < soak_time stagePlan <= 2 ^ 51)%Z ->
  let interval :=
    Z.max 1 (Qfloor (Js.mul (inject_Z (soak_time stagePlan)) fraction)) in
  let rounds :=
    Qfloor (Js.div (inject_Z (soak_time stagePlan)) (inject_Z interval)) in
  processStageSoak ext this releaseId_ stageRef stagePlan w
  = soakRounds ext this releaseId_ stageRef (Some release) interval
      (Z.to_nat rounds) w
  /\ (1 <= interval <= soak_time stagePlan)%Z
  /\ rounds = (soak_time stagePlan / interval)%Z
  /\ (1 <= rounds)%Z
  /\ (rounds * interval <= soak_time stagePlan < rounds * interval + interval)%Z
  /\ (forall w',
        processStageSoak ext this releaseId_ stageRef stagePlan w
        = (Returned continue, w') ->
        clock w' = (clock w + 1000 * (rounds * interval))%Z
        /\ exists windows,
            queries w' = queries w ++ windows
            /\ Z.of_nat (length windows) = rounds
            /\ Forall (fun window => (window.2 - window.1 = interval * 1000)%Z)
                 windows)
  /\ (forall o w',
        processStageSoak ext this releaseId_ stageRef stagePlan w = (o, w') ->
        (Z.of_nat (length (queries w')) <= Z.of_nat (length (queries w)) + rounds)%Z)
  /\ (forall stagePlan',
        (soak_time stagePlan' = 90%Z ->
         intervalTimeSecondsOf stagePlan' (Js.number (7 # 10)) = 62%Z)
        /\ (soak_time stagePlan' = 10%Z ->
            intervalTimeSecondsOf stagePlan' (Js.number (3 # 10)) = 3%Z)).
Proof.
  intros Hrelease fraction Hpos Hle Hsoak interval rounds.
  assert (Hinterval : (1 <= interval <= soak_time stagePlan)%Z).
  { apply interval_bounds; [lia | now apply Qlt_le_weak | exact Hle]. }
  assert (Hquotient : rounds = (soak_time stagePlan / interval)%Z).
  { subst rounds. apply JsFacts.floor_div; lia. }
  assert (Hrounds : (1 <= rounds)%Z).
  { rewrite Hquotient. apply Z.div_le_lower_bound; lia. }
  assert (Hrun : processStageSoak ext this releaseId_ stageRef stagePlan w
                 = soakRounds ext this releaseId_ stageRef (Some release) interval
                     (Z.to_nat rounds) w).
  { unfold processStageSoak, bind, getRelease.
    fold (releaseRecord this w releaseId_). rewrite Hrelease.
    unfold intervalTimeSecondsOf. now rewrite pollingFraction_used. }
  split; [exact Hrun |]. split; [exact Hinterval |]. split; [exact Hquotient |].
  split; [exact Hrounds |]. split; [| split; [| split]].
  - rewrite Hquotient. pose proof (Z.mul_div_le (soak_time stagePlan) interval).
    pose proof (Z.mul_succ_div_gt (soak_time stagePlan) interval). lia.
  - intros w' Hdone. rewrite Hrun in Hdone.
    apply soakRounds_complete in Hdone as (Hc & windows & Hq & Hlen & Hwidth);
      [| lia].
    rewrite Z2Nat.id in Hc by lia. split; [exact Hc |].
    exists windows. split; [exact Hq |]. split; [| exact Hwidth].
    rewrite Hlen. lia.
  - intros o w' Hany. rewrite Hrun in Hany.
    apply soakRounds_bound in Hany. lia.
  - intros stagePlan'. unfold intervalTimeSecondsOf.
    split; intros ->; vm_compute; reflexivity.
Qed.

(** C3, as the code has it. A stage in a [done_] state is left as it is by
    the bulk update [updateStagesStateBad] called with [excludeCompleted],
    and overwritten by it when called without; [updateStageState] and
    [updateReleaseState] themselves store the state they are given on any
    record they find, whatever state it is in. *)
Theorem done_stages_skipped_by_bulk_update :
  (forall releaseId_ stages_ state_ w key s,
      stageRecord w key = Some s ->
      StageStorage.startsWithDone (StageStorage.state s) = true ->
      exists w',
        updateStagesStateBad releaseId_ stages_ state_ true w = (Returned tt, w')
        /\ Env.getStageStorage (env w') key = Env.getStageStorage (env w) key)
  /\ (forall releaseId_ planStage state_ w s,
        stageRecord w (stageName releaseId_ (PlanStorage.order planStage)) = Some s ->
        exists w' s',
          updateStagesStateBad releaseId_ [planStage] state_ false w
          = (Returned tt, w')
          /\ stageRecord w' (stageName releaseId_ (PlanStorage.order planStage))
             = Some s'
          /\ StageStorage.state s' = state_)
  /\ (forall now newState logs_ st s,
        StageStorage.main st = Some s ->
        exists s',
          StageStorage.main (snd (StageStorage.updateStageState now newState logs_ st))
          = Some s'
          /\ StageStorage.state s' = newState)
  /\ (forall now releaseId_ newState st r,
        ReleaseHistory.getRelease releaseId_ st = Some r ->
        exists r',
          ReleaseHistory.getRelease releaseId_
            (snd (updateReleaseState now releaseId_ newState st)) = Some r'
          /\ state r' = newState).
Proof.
  split; [| split; [| split]].
  - intros releaseId_ stages_ state_ w key s Hs Hdone.
    destruct (updateStagesStateBad_skips releaseId_ stages_ state_ w)
      as (w' & Hrun & _ & Hkeep).
    exists w'. split; [exact Hrun |]. apply Hkeep.
    intros s0 Hs0. rewrite Hs in Hs0. now injection Hs0 as <-.
  - intros releaseId_ planStage state_ w s Hs.
    cbn [updateStagesStateBad]. unfold bind at 1, stageGet at 1.
    fold (stageRecord w (stageName releaseId_ (PlanStorage.order planStage))).
    rewrite Hs. cbn [negb orb].
    destruct (updateStageState_call _ state_ None w s Hs)
      as (w' & Hcall & _ & (s' & Hs' & Hstate) & _).
    unfold bind. rewrite Hcall. exists w', s'. repeat split; assumption.
  - intros now newState logs_ st s Hs.
    destruct (StageStorageFacts.updateStageState_stored now newState logs_ st s Hs)
      as [l Hl].
    eexists. split; [exact Hl |]. cbn.
    apply StageStorageFacts.handleStateTransition_state.
  - intros now releaseId_ newState st r Hr.
    destruct (ReleaseHistoryFacts.updateReleaseState_getRelease now releaseId_
                newState st r Hr) as (r' & Hr' & Hstate & _).
    eauto.
Qed.

End WithCollaborators.
End ReleaseWorkflowFacts.

(** * Further properties *)

Module SLOEvaluatorMore.
Import SLOEvaluator Encoding.

Lemma percentileOfName_spec s p :
  percentileOfName s = Some p <-> s = percentileName p.
Proof.
  split.
  - unfold percentileOfName.
    repeat (match goal with
            | |- context [String.eqb ?a ?b] => destruct (String.eqb_spec a b)
            end; [intros [= <-]; assumption |]).
    discriminate.
  - intros ->. now destruct p.
Qed.

Lemma positive_truthy x : gtb x 0 = true -> truthyNumber x = true.
Proof.
  intros Hgt. apply SLOEvaluatorFacts.gtb_true in Hgt.
  unfold truthyNumber. destruct (Qeq_bool x 0) eqn:E; [| reflexivity].
  apply Qeq_bool_iff in E. rewrite E in Hgt. now apply Qlt_irrefl in Hgt.
Qed.

Lemma percentileName_truthy p : truthyString (percentileName p) = true.
Proof. now destruct p. Qed.

(** What the parser keeps of an object. *)
Lemma parsedEntry_spec fields config :
  parsedEntry fields = Some config
  <-> fields = {| raw_percentile := rawString (percentileName (percentile config));
                  raw_latency_ms := rawNumber (latency_ms config) |}
      /\ (0 < latency_ms config)%Q.
Proof.
  split.
  - unfold parsedEntry.
    destruct fields as [[name | | ] [ | latency | ]]; cbn [raw_percentile raw_latency_ms];
      try discriminate.
    destruct (truthyString name && truthyNumber latency); [| discriminate].
    destruct (percentileOfName name) as [p |] eqn:Hp; [| discriminate].
    destruct (gtb latency 0) eqn:Hgt; [| discriminate].
    intros [= <-]. cbn [percentile latency_ms].
    apply percentileOfName_spec in Hp as ->.
    split; [reflexivity | now apply SLOEvaluatorFacts.gtb_true].
  - intros [-> Hpos]. unfold parsedEntry. cbn [raw_percentile raw_latency_ms].
    assert (Hgt : gtb (latency_ms config) 0 = true)
      by now apply SLOEvaluatorFacts.gtb_true.
    rewrite percentileName_truthy, (positive_truthy _ Hgt).
    rewrite (proj2 (percentileOfName_spec _ (percentile config)) eq_refl), Hgt.
    now destruct config.
Qed.

(** X1. [parseSLOsFromPlan] throws exactly when the list holds a [null]
    entry.  Otherwise it keeps exactly the objects whose percentile is one
    of the four names and whose latency is a positive number: a config is in
    the result iff the list holds the object with the name of its percentile
    and its latency, and that latency is positive. *)
Theorem parseSLOsFromPlan_membership slos :
  (parseSLOsFromPlan slos = None <-> In rawNull slos)
  /\ (forall parsedSLOs slo,
        parseSLOsFromPlan slos = Some parsedSLOs ->
        (In slo parsedSLOs
         <-> In (rawObject
                   {| raw_percentile := rawString (percentileName (percentile slo));
                      raw_latency_ms := rawNumber (latency_ms slo) |}) slos
             /\ (0 < latency_ms slo)%Q)).
Proof.
  induction slos as [| raw rest [IHnone IHsome]]; cbn [parseSLOsFromPlan In].
  - split; [split; [discriminate | contradiction] |].
    intros parsedSLOs slo [= <-]. split; [contradiction | now intros [[] _]].
  - destruct raw as [ | | fields].
    + split; [split; [now left | reflexivity] | discriminate].
    + split.
      * rewrite IHnone. split; [now right | now intros [Heq | Hin]].
      * intros parsedSLOs slo Hparsed. rewrite (IHsome _ _ Hparsed).
        split; intros [Hin Hpos]; (split; [| exact Hpos]); [now right |].
        now destruct Hin as [Heq | Hin].
    + destruct (parseSLOsFromPlan rest) as [parsedRest |].
      * split.
        { split; [discriminate |]. intros [Heq | Hin]; [discriminate |].
          now apply IHnone in Hin. }
        intros parsedSLOs slo [= <-]. specialize (IHsome parsedRest slo eq_refl).
        destruct (parsedEntry fields) as [config |] eqn:Hentry.
        { cbn [In]. rewrite IHsome. split.
          - intros [<- | [Hin Hpos]].
            + apply parsedEntry_spec in Hentry as [-> Hpos].
              split; [now left | exact Hpos].
            + split; [now right | exact Hpos].
          - intros [[Heq | Hin] Hpos]; [| right; now split].
            left. injection Heq as ->.
            rewrite (proj2 (parsedEntry_spec _ slo)) in Hentry
              by (split; [reflexivity | exact Hpos]).
            now injection Hentry. }
        rewrite IHsome. split; intros [Hin Hpos]; (split; [| exact Hpos]);
          [now right |].
        destruct Hin as [Heq | Hin]; [| exact Hin].
        injection Heq as ->.
        rewrite (proj2 (parsedEntry_spec _ slo)) in Hentry
          by (split; [reflexivity | exact Hpos]).
        discriminate.
      * split; [| discriminate].
        split; [intros _; right; now apply IHnone | reflexivity].
Qed.

(** X2. Storing SLOs and parsing them back gives the same SLOs, in the same
    order, provided every latency is positive. *)
Theorem parseSLOsFromPlan_roundtrip sloConfigs :
  Forall (fun slo => (0 < latency_ms slo)%Q) sloConfigs ->
  parseSLOsFromPlan (map rawOfConfig sloConfigs) = Some sloConfigs.
Proof.
  induction 1 as [| slo rest Hpos _ IH]; cbn [map parseSLOsFromPlan]; [reflexivity |].
  unfold rawOfConfig at 1. rewrite IH.
  now rewrite (proj2 (parsedEntry_spec _ slo)) by (split; [reflexivity | exact Hpos]).
Qed.

Section WithFormat.
Context `{JsFormat}.

(** X3. A violation is reported only for a value strictly above its
    threshold: in every violation the observed value exceeds the threshold,
    it is the field of the metrics that the percentile of the violation
    names, threshold and percentile are those of a configured SLO, and the
    margin is the subtraction of the two doubles, which is positive when
    both are doubles and never negative for a threshold that is not
    negative; there are never more violations than configured SLOs. *)
Theorem violations_are_excesses sloConfigs metrics :
  let r := evaluateSLOs sloConfigs metrics in
  length (violations r) <= length sloConfigs
  /\ Forall (fun v =>
               (expected_max_ms v < actual_ms v)%Q
               /\ actual_ms v = match v_percentile v with
                                | P999 => p999 metrics
                                | P99 => p99 metrics
                                | P90 => p90 metrics
                                | Median => median metrics
                                end
               /\ In {| percentile := v_percentile v;
                        latency_ms := expected_max_ms v |} sloConfigs
               /\ violation_margin_ms v = Js.sub (actual_ms v) (expected_max_ms v)
               /\ (Js.isDouble (actual_ms v) = true ->
                   Js.isDouble (expected_max_ms v) = true ->
                   (0 < violation_margin_ms v)%Q)
               /\ ((0 <= expected_max_ms v)%Q -> (0 <= violation_margin_ms v)%Q))
            (violations r).
Proof.
  cbn [evaluateSLOs violations].
  induction sloConfigs as [| slo rest [IHlen IHall]]; cbn [checkEach length].
  - split; [lia | constructor].
  - assert (Hrest : Forall (fun v =>
               (expected_max_ms v < actual_ms v)%Q
               /\ actual_ms v = match v_percentile v with
                                | P999 => p999 metrics
                                | P99 => p99 metrics
                                | P90 => p90 metrics
                                | Median => median metrics
                                end
               /\ In {| percentile := v_percentile v;
                        latency_ms := expected_max_ms v |} (slo :: rest)
               /\ violation_margin_ms v = Js.sub (actual_ms v) (expected_max_ms v)
               /\ (Js.isDouble (actual_ms v) = true ->
                   Js.isDouble (expected_max_ms v) = true ->
                   (0 < violation_margin_ms v)%Q)
               /\ ((0 <= expected_max_ms v)%Q -> (0 <= violation_margin_ms v)%Q))
            (checkEach rest metrics)).
    { eapply Forall_impl; [exact IHall |]. cbn beta.
      intros v (Hgt & Hfield & Hin & Hrest). repeat split; try apply Hrest; try assumption.
      now right. }
    destruct (gtb _ _) eqn:Hgt.
    + split; [cbn; lia |]. constructor; [| exact Hrest].
      apply SLOEvaluatorFacts.gtb_true in Hgt.
      cbn [expected_max_ms actual_ms v_percentile violation_margin_ms].
      split; [exact Hgt |]. split; [reflexivity |].
      split; [left; now destruct slo |]. split; [reflexivity |]. split.
      * intros Hactual Hexpected. now apply JsFacts.sub_pos.
      * intros Hexpected. apply JsFacts.sub_nonneg; [exact Hexpected |].
        now apply Qlt_le_weak.
    + split; [lia | exact Hrest].
Qed.

Lemma passed_iff_no_excess sloConfigs metrics :
  passed (evaluateSLOs sloConfigs metrics) = true
  <-> Forall (fun slo =>
                ¬ (latency_ms slo < getMetricValue metrics (percentile slo))%Q)
             sloConfigs.
Proof.
  cbn [evaluateSLOs passed]. rewrite <- SLOEvaluatorFacts.checkEach_nil_iff.
  destruct (checkEach sloConfigs metrics); cbn; split; congruence.
Qed.

(** X4. Lower latencies never fail where higher ones pass: if the SLOs pass
    on some metrics, they pass on any metrics that are no greater on every
    percentile. *)
Theorem evaluateSLOs_monotone sloConfigs lower higher :
  metricsLe lower higher ->
  passed (evaluateSLOs sloConfigs higher) = true ->
  passed (evaluateSLOs sloConfigs lower) = true.
Proof.
  intros (H999 & H99 & H90 & Hmedian) Hpass.
  apply passed_iff_no_excess. apply passed_iff_no_excess in Hpass.
  eapply Forall_impl; [exact Hpass |]. cbn. intros slo Hok Hbad. apply Hok.
  eapply Qlt_le_trans; [exact Hbad |].
  destruct (percentile slo); assumption.
Qed.

End WithFormat.
End SLOEvaluatorMore.

Module StageStorageMore.
Import StageStorage.

Section WithFormat.
Context `{JsFormat}.

Lemma updateStageState_alarm now newState logs_ st stage :
  main st = Some stage ->
  alarmAt (snd (updateStageState now newState logs_ st))
  = alarmAt (snd (handleStateTransition now stage newState st)).
Proof.
  intros Hmain. unfold updateStageState, get. rewrite Hmain.
  pose proof (StageStorageFacts.handleStateTransition_main now stage newState st) as Hm.
  destruct (handleStateTransition now stage newState st) as [updatedStage st1].
  cbn [fst snd] in *.
  destruct (getVerboseStateMessage newState (state stage)) as [message |];
    [| reflexivity].
  cbn [snd addLogAfterGet].
  erewrite StageStorageFacts.updateStage_logsOnly by reflexivity. reflexivity.
Qed.

(** X5. The start time of a stage is stamped on the transition from
    [queued] to [running] and on no other transition into [running]: from
    [queued] the stored stage starts now with zero seconds elapsed and the
    ticker is armed one second ahead; from any other state the times and
    the alarm stay as they were. *)
Theorem stage_start_stamped_from_queued_only now logs_ st stage :
  main st = Some stage ->
  exists stored,
    main (snd (updateStageState now running logs_ st)) = Some stored
    /\ state stored = running
    /\ (state stage = queued ->
        time_started stored = Some now
        /\ time_elapsed stored = 0%Z
        /\ alarmAt (snd (updateStageState now running logs_ st))
           = Some (now + 1000)%Z)
    /\ (state stage <> queued ->
        time_started stored = time_started stage
        /\ time_elapsed stored = time_elapsed stage
        /\ time_done stored = time_done stage
        /\ alarmAt (snd (updateStageState now running logs_ st)) = alarmAt st).
Proof.
  intros Hmain.
  destruct (StageStorageFacts.updateStageState_stored now running logs_ st stage Hmain)
    as [l Hl].
  rewrite (updateStageState_alarm _ _ _ _ _ Hmain).
  eexists. split; [exact Hl |].
  unfold handleStateTransition.
  destruct (state stage) eqn:Hstate; cbn; repeat split; congruence.
Qed.

(** X6. Entering [done_successful] or [done_failed] from [running] or
    [awaiting_approval] stamps the completion time, sets the elapsed time to
    the whole seconds since the start when the stage has a start time, and
    disarms the ticker; identity, order and start time are kept. *)
Theorem stage_finish_stamped now stage newState st logs_ :
  main st = Some stage ->
  state stage = running \/ state stage = awaiting_approval ->
  newState = done_successful \/ newState = done_failed ->
  exists stored,
    main (snd (updateStageState now newState logs_ st)) = Some stored
    /\ state stored = newState
    /\ time_done stored = Some now
    /\ (forall started, time_started stage = Some started ->
        time_elapsed stored = ((now - started) / 1000)%Z)
    /\ (time_started stage = None -> time_elapsed stored = time_elapsed stage)
    /\ time_started stored = time_started stage
    /\ id stored = id stage /\ order stored = order stage
    /\ releaseId stored = releaseId stage
    /\ alarmAt (snd (updateStageState now newState logs_ st)) = None.
Proof.
  intros Hmain Hfrom Hto.
  destruct (StageStorageFacts.updateStageState_stored now newState logs_ st stage Hmain)
    as [l Hl].
  rewrite (updateStageState_alarm _ _ _ _ _ Hmain).
  eexists. split; [exact Hl |].
  unfold handleStateTransition.
  destruct Hfrom as [-> | ->], Hto as [-> | ->];
    destruct (time_started stage) as [t0 |] eqn:Hts;
    repeat split;
    try (intros started Heq; first [discriminate Heq | injection Heq as <-]);
    first [reflexivity | rewrite <- Hts; reflexivity | discriminate].
Qed.

(** X7. [addLog] only appends: the stored stage is the one before with a
    new line, holding the instant and the message, at the end of its logs;
    every other field and the alarm are unchanged. *)
Theorem addLog_appends now message st stage :
  main st = Some stage ->
  let logged := set_logs (logs stage +:+ logEntry now message) stage in
  addLog now message st = (Some logged, save logged st)
  /\ logs logged = logs stage +:+ newline +:+ "[" +:+ toISOString now +:+ "] " +:+ message
  /\ state logged = state stage
  /\ time_started logged = time_started stage
  /\ time_elapsed logged = time_elapsed stage
  /\ time_done logged = time_done stage
  /\ alarmAt (save logged st) = alarmAt st.
Proof.
  intros Hmain logged. unfold addLog, addLogAfterGet, get. rewrite Hmain.
  rewrite (StageStorageFacts.updateStage_logsOnly _ _ _ _ Hmain).
  repeat split.
Qed.

(** The ticker refreshes the elapsed time of a running stage and nothing
    else: on a running stage with a start time the alarm stores the whole
    seconds since the start and re-arms one second ahead; on any other stage
    it leaves the record as it is and no alarm pending. *)
Lemma stage_alarm_cases now st stage :
  main st = Some stage ->
  (forall started,
      state stage = running -> time_started stage = Some started ->
      alarm now st
      = {| main := Some (set_time_elapsed ((now - started) / 1000)%Z stage);
           alarmAt := Some (now + 1000)%Z |})
  /\ (state stage <> running \/ time_started stage = None ->
      alarm now st = {| main := Some stage; alarmAt := None |}).
Proof.
  intros Hmain. unfold alarm, get, clearAlarmIfNeeded. cbn [main]. rewrite Hmain.
  split.
  - intros started Hstate Hstarted. rewrite Hstarted, Hstate. reflexivity.
  - intros [Hstate | Hstarted].
    + destruct (time_started stage); [| reflexivity].
      now rewrite bool_decide_eq_false_2.
    + now rewrite Hstarted.
Qed.

(** X8. A stage cancelled while running stops ticking at the next alarm:
    after [updateStageState("done_cancelled")] the alarm armed at the start
    is still pending, and when it fires the record is left as it is, with
    the elapsed time of the last tick, and no alarm is armed again. *)
Theorem cancelled_stage_stops_ticking now later stage st logs_ :
  main st = Some stage ->
  state stage = running \/ state stage = awaiting_approval ->
  let cancelled := snd (updateStageState now done_cancelled logs_ st) in
  alarmAt cancelled = alarmAt st
  /\ main (alarm later cancelled) = main cancelled
  /\ alarmAt (alarm later cancelled) = None
  /\ alarm later (alarm later cancelled) = alarm later cancelled.
Proof.
  intros Hmain Hfrom cancelled. subst cancelled.
  destruct (StageStorageFacts.updateStageState_stored now done_cancelled logs_ st
              stage Hmain) as [l Hl].
  pose proof (updateStageState_alarm now done_cancelled logs_ st stage Hmain) as Halarm.
  set (cancelled := snd (updateStageState now done_cancelled logs_ st)) in *.
  assert (Hstate : forall stored, main cancelled = Some stored ->
                                  state stored = done_cancelled).
  { intros stored Hs. rewrite Hl in Hs. injection Hs as <-.
    exact (StageStorageFacts.handleStateTransition_state now stage done_cancelled st). }
  split.
  - rewrite Halarm. unfold handleStateTransition.
    destruct Hfrom as [-> | ->]; reflexivity.
  - destruct (stage_alarm_cases later cancelled _ Hl) as [_ Hstop].
    rewrite Hstop.
    2:{ left. rewrite (Hstate _ Hl). discriminate. }
    cbn [main alarmAt]. split; [now rewrite Hl |]. split; [reflexivity |].
    unfold alarm, get, clearAlarmIfNeeded. cbn [main].
    rewrite (Hstate _ Hl). destruct (time_started _); reflexivity.
Qed.

End WithFormat.
End StageStorageMore.

Module ReleaseHistoryMore.
Import ReleaseHistory.

Lemma getRelease_None_findIndex id_ st :
  getRelease id_ st = None -> findIndex id_ (getReleaseHistory st) = None.
Proof.
  unfold getRelease. induction (getReleaseHistory st) as [| r rest IH]; cbn;
    [reflexivity |].
  destruct (String.eqb (id r) id_); [discriminate |].
  intros Hnone. now rewrite IH.
Qed.

Lemma getRelease_index id_ st r :
  getRelease id_ st = Some r ->
  exists index,
    findIndex id_ (getReleaseHistory st) = Some index
    /\ getReleaseHistory st !! index = Some r
    /\ id r = id_.
Proof.
  unfold getRelease. induction (getReleaseHistory st) as [| x rest IH]; cbn;
    [discriminate |].
  destruct (String.eqb_spec (id x) id_) as [Heq | Hne].
  - intros [= <-]. exists 0. auto.
  - intros Hfind. destruct (IH Hfind) as (index & Hi & Hl & Hid).
    exists (S index). rewrite Hi. auto.
Qed.

(** What [updateReleaseState] stores for a release it finds. *)
Lemma updateReleaseState_stored now id_ state_ st r :
  getRelease id_ st = Some r ->
  exists index,
    findIndex id_ (getReleaseHistory st) = Some index
    /\ getReleaseHistory st !! index = Some r
    /\ updateReleaseState now id_ state_ st
       = (true,
          saveReleaseHistory
            (<[index := fst (handleStateTransition now r (state r) state_ st)]>
               (getReleaseHistory st))
            (snd (handleStateTransition now r (state r) state_ st))).
Proof.
  intros Hget. destruct (getRelease_index _ _ _ Hget) as (index & Hi & Hl & _).
  exists index. split; [exact Hi |]. split; [exact Hl |].
  unfold updateReleaseState, findReleaseIndex. rewrite Hi, Hl.
  now destruct (handleStateTransition now r (state r) state_ st).
Qed.

Lemma updateReleaseState_result now id_ state_ st r :
  getRelease id_ st = Some r ->
  getRelease id_ (snd (updateReleaseState now id_ state_ st))
  = Some (fst (handleStateTransition now r (state r) state_ st))
  /\ alarmAt (snd (updateReleaseState now id_ state_ st))
     = alarmAt (snd (handleStateTransition now r (state r) state_ st)).
Proof.
  intros Hget.
  destruct (updateReleaseState_stored now id_ state_ st r Hget)
    as (index & Hi & Hl & ->).
  cbn [snd]. split; [| reflexivity].
  unfold getRelease. rewrite ReleaseHistoryFacts.getReleaseHistory_save.
  destruct (getRelease_index _ _ _ Hget) as (index' & Hi' & _ & Hid).
  eapply ReleaseHistoryFacts.getRelease_findIndex.
  - apply ReleaseHistoryFacts.findIndex_insert_same; [exact Hi |].
    now rewrite ReleaseHistoryFacts.releaseTransition_id.
  - apply list_lookup_insert_eq. eapply lookup_lt_Some; eassumption.
Qed.

Lemma map_id_insert (releases : list Release) index r u :
  releases !! index = Some r -> id u = id r ->
  map id (<[index := u]> releases) = map id releases.
Proof.
  revert index. induction releases as [| x rest IH]; intros [| index]; cbn;
    try discriminate.
  - intros [= ->] ->. reflexivity.
  - intros Hl Hid. f_equal. now apply IH.
Qed.

Lemma find_other_insert (releases : list Release) index r u other :
  releases !! index = Some r -> id u = id r -> id r <> other ->
  List.find (fun release => String.eqb (id release) other) (<[index := u]> releases)
  = List.find (fun release => String.eqb (id release) other) releases.
Proof.
  revert index. induction releases as [| x rest IH]; intros [| index]; cbn;
    try discriminate.
  - intros [= ->] Hid Hne. rewrite Hid.
    now destruct (String.eqb_spec (id r) other).
  - intros Hl Hid Hne. destruct (String.eqb (id x) other); [reflexivity |].
    now apply IH.
Qed.

(** X9. [updateReleaseState] changes one entry and nothing else: for an id
    the history does not hold it returns false and stores nothing; for one
    it holds it returns true, the history keeps its length and its ids in
    their order, and the release found under any other id is the same as
    before. *)
Theorem updateReleaseState_touches_one_entry now id_ state_ st :
  (getRelease id_ st = None -> updateReleaseState now id_ state_ st = (false, st))
  /\ (forall r, getRelease id_ st = Some r ->
      let after := snd (updateReleaseState now id_ state_ st) in
      fst (updateReleaseState now id_ state_ st) = true
      /\ map id (getReleaseHistory after) = map id (getReleaseHistory st)
      /\ (forall other, other <> id_ -> getRelease other after = getRelease other st)).
Proof.
  split.
  - intros Hnone. apply ReleaseHistoryFacts.updateReleaseState_unknown.
    now apply getRelease_None_findIndex.
  - intros r Hget after. subst after.
    destruct (updateReleaseState_stored now id_ state_ st r Hget)
      as (index & Hi & Hl & ->).
    destruct (getRelease_index _ _ _ Hget) as (_ & _ & _ & Hid).
    cbn [fst snd]. rewrite ReleaseHistoryFacts.getReleaseHistory_save.
    split; [reflexivity |]. split.
    + apply (map_id_insert _ _ r); [exact Hl |].
      apply ReleaseHistoryFacts.releaseTransition_id.
    + intros other Hne. unfold getRelease.
      rewrite ReleaseHistoryFacts.getReleaseHistory_save.
      apply (find_other_insert _ _ r); [exact Hl | | congruence].
      apply ReleaseHistoryFacts.releaseTransition_id.
Qed.

(** X10. The times of a release follow its transitions.  Entering [running]
    from any other state, a terminal one included, stamps the start time,
    resets the elapsed time and arms the ticker.  Leaving [running] for a
    [done_] state stamps the completion time unless one is set, computes
    the whole seconds elapsed from the start time when there is one, and
    disarms the ticker.  Leaving [running] for [error] stamps nothing and
    leaves the ticker armed. *)
Theorem release_times_follow_transitions now id_ st r :
  getRelease id_ st = Some r ->
  (state r <> running ->
   exists r',
     getRelease id_ (snd (updateReleaseState now id_ running st)) = Some r'
     /\ state r' = running
     /\ time_started r' = Some now /\ time_elapsed r' = 0%Z
     /\ time_done r' = time_done r
     /\ alarmAt (snd (updateReleaseState now id_ running st)) = Some (now + 1000)%Z)
  /\ (forall state_,
        state r = running -> startsWithDone state_ = true ->
        exists r',
          getRelease id_ (snd (updateReleaseState now id_ state_ st)) = Some r'
          /\ state r' = state_
          /\ time_done r' = Some (default now (time_done r))
          /\ (forall started, time_started r = Some started ->
              time_elapsed r' = ((default now (time_done r) - started) / 1000)%Z)
          /\ time_started r' = time_started r
          /\ alarmAt (snd (updateReleaseState now id_ state_ st)) = None)
  /\ (state r = running ->
      exists r',
        getRelease id_ (snd (updateReleaseState now id_ error st)) = Some r'
        /\ state r' = error
        /\ time_done r' = time_done r /\ time_elapsed r' = time_elapsed r
        /\ time_started r' = time_started r
        /\ alarmAt (snd (updateReleaseState now id_ error st)) = alarmAt st).
Proof.
  intros Hget. split; [| split].
  - intros Hstate.
    destruct (updateReleaseState_result now id_ running st r Hget) as [-> ->].
    eexists. split; [reflexivity |]. unfold handleStateTransition.
    rewrite (bool_decide_eq_false_2 _ Hstate). cbn. repeat split.
  - intros state_ Hstate Hdone.
    destruct (updateReleaseState_result now id_ state_ st r Hget) as [-> ->].
    eexists. split; [reflexivity |]. unfold handleStateTransition.
    rewrite Hstate, Hdone. cbn [bool_decide decide_rel negb andb].
    rewrite (bool_decide_eq_true_2 (running = running) eq_refl). cbn [negb andb].
    destruct (time_done r) as [done_ |] eqn:Hd, (time_started r) as [t0 |] eqn:Hs;
      cbn; rewrite ?Hd, ?Hs; cbn;
      repeat split;
      first [assumption | reflexivity | discriminate
            | intros started [= <-]; reflexivity].
  - intros Hstate.
    destruct (updateReleaseState_result now id_ error st r Hget) as [-> ->].
    eexists. split; [reflexivity |]. unfold handleStateTransition.
    rewrite Hstate. cbn. repeat split.
Qed.

(** X11. A release just created is the one found under its id, whatever
    the history held; and while the history has fewer than 100 entries the
    creation changes no lookup under another id. *)
Theorem getRelease_after_createRelease release st :
  getRelease (id release) (snd (createRelease release st)) = Some release
  /\ (forall other,
        other <> id release -> length (getReleaseHistory st) < 100 ->
        getRelease other (snd (createRelease release st)) = getRelease other st).
Proof.
  unfold getRelease. rewrite ReleaseHistoryFacts.createRelease_releases.
  cbn [List.find]. rewrite String.eqb_refl. split; [reflexivity |].
  intros other Hne Hlen.
  destruct (String.eqb_spec (id release) other); [congruence |].
  rewrite take_ge by lia. reflexivity.
Qed.

(** X12. Deleting a release just created undoes the creation: when no
    earlier entry has its id and the history has fewer than 100 entries,
    [removeRelease] after [createRelease] succeeds and leaves the history as
    it was. *)
Theorem removeRelease_undoes_createRelease release st :
  Forall (fun r => id r <> id release) (getReleaseHistory st) ->
  length (getReleaseHistory st) < 100 ->
  fst (removeRelease (id release) (snd (createRelease release st))) = true
  /\ getReleaseHistory (snd (removeRelease (id release) (snd (createRelease release st))))
     = getReleaseHistory st
  /\ alarmAt (snd (removeRelease (id release) (snd (createRelease release st))))
     = alarmAt st.
Proof.
  intros Hfresh Hlen.
  assert (Hfilter :
            List.filter (fun r => negb (String.eqb (id r) (id release)))
              (release :: take 99 (getReleaseHistory st))
            = getReleaseHistory st).
  { cbn [List.filter]. rewrite String.eqb_refl. cbn [negb].
    rewrite take_ge by lia. apply ApiFacts.filter_keeps_all.
    eapply Forall_impl; [exact Hfresh |]. cbn. intros r Hr.
    now destruct (String.eqb_spec (id r) (id release)). }
  unfold removeRelease.
  rewrite ReleaseHistoryFacts.createRelease_releases, Hfilter.
  cbn [length]. rewrite length_take.
  replace (length (getReleaseHistory st) <? S (99 `min` length (getReleaseHistory st)))
    with true by (symmetry; apply Nat.ltb_lt; lia).
  repeat split.
Qed.

(** X13. The ticker of the history refreshes elapsed times and nothing
    else: after the alarm the history holds the same releases with the same
    ids and states in the same order, a release that is not running is
    exactly as it was, and the alarm is armed again, one second ahead,
    exactly when some running release has a start time. *)
Theorem history_alarm_refreshes_elapsed now st :
  let after := alarm now st in
  map id (getReleaseHistory after) = map id (getReleaseHistory st)
  /\ map state (getReleaseHistory after) = map state (getReleaseHistory st)
  /\ (forall index r,
        getReleaseHistory st !! index = Some r -> state r <> running ->
        getReleaseHistory after !! index = Some r)
  /\ (forall index r started,
        getReleaseHistory st !! index = Some r -> state r = running ->
        time_started r = Some started ->
        getReleaseHistory after !! index
        = Some (set_time_elapsed ((now - started) / 1000)%Z r))
  /\ (alarmAt after
      = if existsb (fun r => bool_decide (state r = running)
                             && bool_decide (time_started r <> None))
             (getReleaseHistory st)
        then Some (now + 1000)%Z else None).
Proof.
  cbn zeta.
  pose (tick := fun release : Release =>
                  match time_started release with
                  | Some started =>
                      if bool_decide (state release = running)
                      then set_time_elapsed (calculateElapsedTime now started None)
                             release
                      else release
                  | None => release
                  end).
  assert (Hafter : getReleaseHistory (alarm now st)
                   = map tick (getReleaseHistory st)).
  { unfold alarm. now destruct (existsb _ _). }
  assert (Halarm : alarmAt (alarm now st)
                   = if existsb (fun release =>
                                   bool_decide (state release = running)
                                   && match time_started release with
                                      | Some _ => true
                                      | None => false
                                      end)
                          (getReleaseHistory st)
                     then Some (now + 1000)%Z else None).
  { unfold alarm.
    change (getReleaseHistory (clearAlarmIfNeeded st)) with (getReleaseHistory st).
    now destruct (existsb _ _). }
  rewrite Hafter.
  assert (Htick_id : forall r, id (tick r) = id r).
  { intros r. subst tick. cbn. destruct (time_started r); [| reflexivity].
    now destruct (bool_decide _). }
  assert (Htick_state : forall r, state (tick r) = state r).
  { intros r. subst tick. cbn. destruct (time_started r); [| reflexivity].
    now destruct (bool_decide _). }
  split; [| split; [| split; [| split]]].
  - rewrite map_map. now apply map_ext.
  - rewrite map_map. now apply map_ext.
  - intros index r Hl Hstate.
    change (map tick (getReleaseHistory st)) with (tick <$> getReleaseHistory st).
    rewrite list_lookup_fmap, Hl. cbn. f_equal. subst tick. cbn.
    destruct (time_started r); [| reflexivity].
    now rewrite bool_decide_eq_false_2.
  - intros index r started Hl Hstate Hstarted.
    change (map tick (getReleaseHistory st)) with (tick <$> getReleaseHistory st).
    rewrite list_lookup_fmap, Hl. cbn. f_equal. subst tick. cbn.
    rewrite Hstarted, Hstate. reflexivity.
  - rewrite Halarm.
    assert (Hsame : forall releases : list Release,
               existsb (fun release =>
                          bool_decide (state release = running)
                          && match time_started release with
                             | Some _ => true
                             | None => false
                             end) releases
               = existsb (fun r => bool_decide (state r = running)
                                   && bool_decide (time_started r <> None))
                   releases).
    { induction releases as [| r rest IH]; cbn; [reflexivity |].
      rewrite IH. f_equal. f_equal.
      destruct (time_started r); [now rewrite bool_decide_eq_true_2 |].
      now rewrite bool_decide_eq_false_2 by congruence. }
    now rewrite Hsame.
Qed.

End ReleaseHistoryMore.

Module RoutesFacts.
Import PlanStorage ReleaseHistory Api Routes JsStringFacts.

Lemma stripPrefix_app literal s : stripPrefix literal (literal +:+ s) = Some s.
Proof.
  induction literal as [| a literal IH]; [reflexivity |].
  change (String a literal +:+ s) with (String a (literal +:+ s)).
  cbn [stripPrefix]. now rewrite Ascii.eqb_refl.
Qed.

Lemma substring_all s : String.substring 0 (String.length s) s = s.
Proof. induction s as [| c s IH]; cbn; [reflexivity | now rewrite IH]. Qed.

Lemma substring_head a b :
  String.substring 0 (String.length a) (a +:+ b) = a.
Proof.
  induction a as [| c a IH]; [now destruct b |].
  change (String c a +:+ b) with (String c (a +:+ b)). cbn. now rewrite IH.
Qed.

Lemma substring_tail a b :
  String.substring (String.length a) (String.length (a +:+ b) - String.length a)
    (a +:+ b) = b.
Proof.
  induction a as [| c a IH].
  - change ("" +:+ b) with b. cbn [String.length]. rewrite Nat.sub_0_r.
    apply substring_all.
  - change (String c a +:+ b) with (String c (a +:+ b)). cbn. exact IH.
Qed.

(** The exponent form is no sequence of digits. *)
Lemma integerToString_large_not_digits n :
  (10 ^ 21 <= Z.abs n)%Z -> Js.isDouble (inject_Z n) = true ->
  allChars isDigit (Js.integerToString n) = false.
Proof.
  intros Hlarge Hdouble. unfold Js.integerToString.
  destruct (Z.ltb_spec (Z.abs n) (10 ^ 21)) as [Hsmall | _]; [lia |].
  rewrite Hdouble.
  destruct (allChars isDigit _) eqn:Hall; [| reflexivity].
  apply digits_no_exponent in Hall. rewrite hasExponent_app in Hall.
  rewrite exponential_hasExponent in Hall;
    [| lia | now apply isDouble_abs].
  now rewrite orb_true_r in Hall.
Qed.

(** X14. The stage ids that the creation route builds are the ones the
    stage routes accept, for stages whose order is not negative and below
    10^21, from where on a number is rendered in the exponent form: with an
    eight-digit hexadecimal release id and an order that is a double,
    [getStageId] passes [isValidStageId] iff the order is at least 0 and
    less than 10^21. *)
Theorem created_stage_ids_are_valid releaseId_ order_ :
  isValidId releaseId_ = true ->
  Js.isDouble (inject_Z order_) = true ->
  isValidStageId (getStageId releaseId_ order_) = true
  <-> (0 <= order_ < 10 ^ 21)%Z.
Proof.
  unfold isValidId. intros Hid Hdouble. apply andb_true_iff in Hid as [Hlen Hhex].
  apply Nat.eqb_eq in Hlen.
  unfold isValidStageId, getStageId.
  rewrite stripPrefix_app.
  set (rest := "-order-" +:+ Js.integerToString order_).
  cbn zeta.
  assert (Hhead : String.substring 0 8 (releaseId_ +:+ rest) = releaseId_).
  { rewrite <- Hlen. apply substring_head. }
  assert (Htail : String.substring 8 (String.length (releaseId_ +:+ rest) - 8)
                    (releaseId_ +:+ rest) = rest).
  { rewrite <- Hlen. apply substring_tail. }
  rewrite Hhead, Htail, Hlen, Nat.eqb_refl, Hhex. cbn [andb].
  subst rest. rewrite stripPrefix_app.
  destruct (Z.ltb_spec (Z.abs order_) (10 ^ 21)) as [Hsmall | Hlarge].
  - unfold Js.integerToString.
    destruct (Z.ltb_spec (Z.abs order_) (10 ^ 21)) as [_ | Hge]; [| lia].
    rewrite pretty_digits_iff. lia.
  - rewrite (integerToString_large_not_digits _ Hlarge Hdouble), andb_false_r.
    split; [discriminate | lia].
Qed.

Lemma getPlanStorage_onPlanStorage {A} cid
    (method : PlanStorage.Storage -> A * PlanStorage.Storage) env :
  Env.getPlanStorage (snd (Env.onPlanStorage cid method env)) cid
  = snd (method (Env.getPlanStorage env cid))
  /\ fst (Env.onPlanStorage cid method env) = fst (method (Env.getPlanStorage env cid)).
Proof.
  unfold Env.onPlanStorage. destruct (method _) as [a st]. cbn.
  unfold Env.getPlanStorage, Env.setPlanStorage. cbn.
  now rewrite lookup_insert_eq.
Qed.

Lemma postPlan_serves cid env :
  SLOEvaluator.truthyString cid = true ->
  fst (postPlan (Some cid) env)
  = jsonPlan 200 (fst (PlanStorage.get (Env.getPlanStorage env cid)))
  /\ Env.getPlanStorage (snd (postPlan (Some cid) env)) cid
     = snd (PlanStorage.get (Env.getPlanStorage env cid)).
Proof.
  intros Htruthy. unfold postPlan. cbn [truthy default]. rewrite Htruthy.
  change (Datatypes.id cid) with cid.
  destruct (getPlanStorage_onPlanStorage cid PlanStorage.get env) as [Hsnd Hfst].
  destruct (Env.onPlanStorage cid PlanStorage.get env) as [served env1].
  cbn [fst snd] in *. now rewrite Hfst, Hsnd.
Qed.

(** X15. A plan that [PUT /plan] accepts is stored for its connection
    with the time of saving, and it is the plan that [POST /plan] serves
    afterwards; for a connection whose plan was never saved [POST /plan]
    serves the default plan and stores it, so that the next request gets
    the same plan. *)
Theorem saved_plan_is_served now body env cid plan :
  putPlanValidator body = inr (cid, plan) ->
  SLOEvaluator.truthyString cid = true ->
  let saved :=
    {| PlanStorage.stages := PlanStorage.stages plan; slos := slos plan;
       worker_name := worker_name plan;
       polling_fraction := polling_fraction plan;
       time_last_saved := Some now |} in
  fst (putPlan now body env) = jsonPlan 200 saved
  /\ Env.getPlanStorage (snd (putPlan now body env)) cid = Some saved
  /\ fst (postPlan (Some cid) (snd (putPlan now body env))) = jsonPlan 200 saved
  /\ Env.getPlanStorage (snd (postPlan (Some cid) (snd (putPlan now body env)))) cid
     = Some saved
  /\ (forall other,
        SLOEvaluator.truthyString other = true ->
        Env.getPlanStorage env other = None ->
        fst (postPlan (Some other) env) = jsonPlan 200 defaultPlan
        /\ Env.getPlanStorage (snd (postPlan (Some other) env)) other
           = Some defaultPlan
        /\ fst (postPlan (Some other) (snd (postPlan (Some other) env)))
           = jsonPlan 200 defaultPlan).
Proof.
  intros Hvalid Htruthy saved.
  unfold putPlan. rewrite Hvalid.
  destruct (getPlanStorage_onPlanStorage cid (updatePlan now plan) env) as [Hsnd Hfst].
  destruct (Env.onPlanStorage cid (updatePlan now plan) env) as [updatedPlan env1].
  cbn [fst snd] in *.
  assert (Hstored1 : Env.getPlanStorage env1 cid = Some saved) by exact Hsnd.
  split; [now rewrite Hfst |]. split; [exact Hstored1 |].
  destruct (postPlan_serves cid env1 Htruthy) as [Hserved Hkept].
  rewrite Hstored1 in Hserved, Hkept.
  split; [exact Hserved |]. split; [exact Hkept |].
  intros other Hother Hnone.
  destruct (postPlan_serves other env Hother) as [Hfirst Hstored].
  rewrite Hnone in Hfirst, Hstored. cbn in Hfirst, Hstored.
  split; [exact Hfirst |]. split; [exact Hstored |].
  destruct (postPlan_serves other (snd (postPlan (Some other) env)) Hother)
    as [-> _].
  now rewrite Hstored.
Qed.

Lemma filter_In_all {A} (f : A -> bool) l x : In x (List.filter f l) -> In x l /\ f x = true.
Proof. apply filter_In. Qed.

Lemma In_take_drop {A} (l : list A) n m x : In x (take n (drop m l)) -> In x l.
Proof.
  intros Hin. rewrite <- (take_drop m l). apply in_or_app. right.
  rewrite <- (take_drop n (drop m l)). apply in_or_app. now left.
Qed.

(** X16. A page of [POST /release] holds at most [limit] releases (50 when
    no limit is given, never more than 100), all of them from the history
    of the connection and all of them passing the filters of the request;
    and a request that filters on the state ["error"] is always refused,
    although releases can be in that state. *)
Theorem release_page_is_bounded_and_filtered body env releases :
  postRelease body env = listed releases ->
  (Z.of_nat (length releases) <= default 50 (list_limit body) <= 100)%Z
  /\ (forall release, In release releases ->
        In release
          (getReleaseHistory
             (Env.getReleaseHistory env (default "" (list_connectionId body))))
        /\ (forall since, list_since body = Some (Some since) ->
            (since <= time_created release)%Z)
        /\ (forall until, list_until body = Some (Some until) ->
            (time_created release <= until)%Z)
        /\ (forall state_, list_state body = Some state_ -> state_ <> "" ->
            stateName (state release) = state_))
  /\ list_state body <> Some "error".
Proof.
  unfold postRelease.
  destruct (truthy (list_connectionId body)); cbn [negb]; [| discriminate].
  set (limit := default 50%Z (list_limit body)).
  set (offset := default 0%Z (list_offset body)).
  destruct (Z.ltb_spec limit 1); [discriminate |].
  destruct (Z.ltb_spec 100 limit); [discriminate |]. cbn [orb].
  destruct (Z.ltb_spec offset 0); [discriminate |].
  set (history := getAllReleases _).
  assert (Hlen : forall l : list Release,
             (Z.of_nat (length (take (Z.to_nat limit) (drop (Z.to_nat offset) l)))
              <= limit)%Z).
  { intros l. rewrite length_take. lia. }
  intros Hlisted.
  assert (Herror : list_state body <> Some "error").
  { intros Hstate. rewrite Hstate in Hlisted.
    destruct (list_since body) as [[since |] |]; try discriminate;
      destruct (list_until body) as [[until |] |]; discriminate. }
  split; [| split; [| exact Herror]].
  - destruct (list_since body) as [[since |] |]; try discriminate;
      destruct (list_until body) as [[until |] |]; try discriminate;
      destruct (truthy (list_state body)); try destruct (negb _);
      try discriminate; injection Hlisted as <-; split; first [apply Hlen | lia].
  - intros release Hin.
    destruct (list_since body) as [[since |] |]; try discriminate;
      destruct (list_until body) as [[until |] |]; try discriminate;
      (destruct (list_state body) as [state_ |]; cbn [truthy default] in Hlisted;
       [ change (Datatypes.id state_) with state_ in Hlisted;
         destruct (SLOEvaluator.truthyString state_) eqn:Htruthy;
         [ destruct (includes VALID_STATES state_); cbn [negb] in Hlisted;
           [| discriminate ] |] |]);
      injection Hlisted as <-; apply In_take_drop in Hin;
      repeat match type of Hin with
             | In _ (List.filter _ _) =>
                 let Hkeep := fresh "Hkeep" in apply filter_In in Hin as [Hin Hkeep]
             end;
      (split; [exact Hin |]);
      (split; [first [discriminate | intros ? [= <-]; now apply Z.leb_le] |]);
      (split; [first [discriminate | intros ? [= <-]; now apply Z.leb_le] |]);
      first [ discriminate
            | intros ? [= <-] Hne; destruct state_; [congruence | discriminate Htruthy]
            | intros ? [= <-] _; now apply String.eqb_eq ].
Qed.

Lemma getActiveRelease_first_of_id st active :
  getActiveRelease st = Some active ->
  exists r, getRelease (id active) st = Some r
            /\ (r = active \/ isActive r = false).
Proof.
  unfold getActiveRelease, getRelease.
  induction (getReleaseHistory st) as [| x rest IH]; cbn [List.find];
    [discriminate |].
  destruct (isActive x) eqn:Hactive.
  - intros [= <-]. rewrite String.eqb_refl. eauto.
  - intros Hfind. destruct (String.eqb (id x) (id active)); [eauto |].
    now apply IH.
Qed.

Lemma getActiveRelease_state st active :
  getActiveRelease st = Some active ->
  state active = not_started \/ state active = running.
Proof.
  unfold getActiveRelease. intros Hfind. apply find_some in Hfind as [_ Hactive].
  unfold isActive in Hactive. apply orb_true_iff in Hactive as [Hs | Hs];
    apply bool_decide_eq_true in Hs; auto.
Qed.

Lemma isActive_false_not_running r : isActive r = false -> state r <> running.
Proof. unfold isActive. intros Hactive Hstate. rewrite Hstate in Hactive. discriminate. Qed.

Lemma onReleaseHistory_others {A} cid
    (method : ReleaseHistory.Storage -> A * ReleaseHistory.Storage) env :
  Env.STAGE_STORAGE (snd (Env.onReleaseHistory cid method env)) = Env.STAGE_STORAGE env
  /\ Env.PLAN_STORAGE (snd (Env.onReleaseHistory cid method env)) = Env.PLAN_STORAGE env
  /\ (forall other, other <> cid ->
      Env.getReleaseHistory (snd (Env.onReleaseHistory cid method env)) other
      = Env.getReleaseHistory env other).
Proof.
  unfold Env.onReleaseHistory. destruct (method _) as [a st]. cbn.
  repeat split. intros other Hne. unfold Env.getReleaseHistory. cbn.
  now rewrite lookup_insert_ne.
Qed.

(** X17. Starting a release.  With the three credentials present, the
    command ["start"] and an active release that is [not_started],
    [POST /release/active] answers 200, creates the workflow instance named
    after the release with the credentials and the connection of the
    request, sends it the [release-start] event, and leaves the first
    release of the history under that id [running], started at the time of
    the request with no time elapsed.  Only the history of the connection
    changes. *)
Theorem start_runs_the_staged_release now body env active :
  truthy (control_accountId body) = true ->
  truthy (control_workerName body) = true ->
  truthy (control_apiToken body) = true ->
  control_command body = Some "start" ->
  getActiveRelease (Env.getReleaseHistory env (control_connectionId body))
  = Some active ->
  state active = not_started ->
  exists env',
    postReleaseActive now body env
    = (text 200 "Release started successfully",
       [ createInstance (id active)
           {| ReleaseWorkflow.releaseId := id active;
              ReleaseWorkflow.accountId := default "" (control_accountId body);
              ReleaseWorkflow.workerName := default "" (control_workerName body);
              ReleaseWorkflow.apiToken := default "" (control_apiToken body);
              ReleaseWorkflow.connectionId := control_connectionId body |};
         sendEvent (id active) "release-start" None ],
       env')
    /\ (exists started,
          getRelease (id active)
            (Env.getReleaseHistory env' (control_connectionId body)) = Some started
          /\ state started = running
          /\ time_started started = Some now
          /\ time_elapsed started = 0%Z)
    /\ Env.STAGE_STORAGE env' = Env.STAGE_STORAGE env
    /\ Env.PLAN_STORAGE env' = Env.PLAN_STORAGE env
    /\ (forall other, other <> control_connectionId body ->
        Env.getReleaseHistory env' other = Env.getReleaseHistory env other).
Proof.
  intros Haccount Hworker Htoken Hcommand Hactive Hstate.
  unfold postReleaseActive. rewrite Haccount, Hworker, Htoken, Hactive, Hcommand.
  cbn [negb orb default]. change (Datatypes.id "start") with "start".
  change (String.eqb "start" "start") with true. cbv iota.
  rewrite Hstate. change (bool_decide (not_started = not_started)) with true.
  cbn [negb].
  set (cid := control_connectionId body) in *.
  pose proof (ApiFacts.getReleaseHistory_onReleaseHistory cid
                (updateReleaseState now (id active) running) env) as Hafter.
  destruct (onReleaseHistory_others cid
              (updateReleaseState now (id active) running) env)
    as (Hstages & Hplans & Hothers).
  destruct (Env.onReleaseHistory cid (updateReleaseState now (id active) running) env)
    as [updated env'].
  cbn [snd] in *. exists env'. split; [reflexivity |].
  split; [| now repeat split].
  destruct (getActiveRelease_first_of_id _ _ Hactive) as (r & Hget & Hfirst).
  assert (Hnot : state r <> running).
  { destruct Hfirst as [-> | Hfirst]; [congruence |].
    now apply isActive_false_not_running. }
  rewrite Hafter.
  destruct (ReleaseHistoryMore.updateReleaseState_result now (id active) running
              _ r Hget) as [-> _].
  eexists. split; [reflexivity |]. unfold handleStateTransition.
  rewrite bool_decide_false by exact Hnot. cbn. repeat split.
Qed.

(** X18. Stopping a release.  With the credentials present, the command
    ["stop"] and an active release that is [running],
    [POST /release/active] answers 200, sends the workflow of the release
    one [deny] event per stage of the release, in the order of its stages,
    each named after the stage, and leaves the first release of the history
    under that id [done_stopped_manually].  No StageStorage is touched: the
    stages are closed by the workflow. *)
Theorem stop_marks_the_release_and_denies_its_stages now body env active :
  truthy (control_accountId body) = true ->
  truthy (control_workerName body) = true ->
  truthy (control_apiToken body) = true ->
  control_command body = Some "stop" ->
  getActiveRelease (Env.getReleaseHistory env (control_connectionId body))
  = Some active ->
  state active = running ->
  exists env',
    postReleaseActive now body env
    = (text 200 "Release stopping async",
       map (fun stageRef =>
              sendEvent (id active)
                (getStageId (id active) (StageRef.order stageRef)
                 +:+ "-user-progress-command")
                (Some StageStorage.deny))
           (stages active),
       env')
    /\ (exists stopped,
          getRelease (id active)
            (Env.getReleaseHistory env' (control_connectionId body)) = Some stopped
          /\ state stopped = done_stopped_manually)
    /\ Env.STAGE_STORAGE env' = Env.STAGE_STORAGE env
    /\ Env.PLAN_STORAGE env' = Env.PLAN_STORAGE env.
Proof.
  intros Haccount Hworker Htoken Hcommand Hactive Hstate.
  unfold postReleaseActive. rewrite Haccount, Hworker, Htoken, Hactive, Hcommand.
  cbn [negb orb default]. change (Datatypes.id "stop") with "stop".
  change (String.eqb "stop" "start") with false.
  change (String.eqb "stop" "stop") with true. cbv iota.
  rewrite Hstate. change (bool_decide (running = running)) with true.
  cbn [negb].
  set (cid := control_connectionId body) in *.
  pose proof (ApiFacts.getReleaseHistory_onReleaseHistory cid
                (updateReleaseState now (id active) done_stopped_manually) env)
    as Hafter.
  destruct (onReleaseHistory_others cid
              (updateReleaseState now (id active) done_stopped_manually) env)
    as (Hstages & Hplans & _).
  destruct (Env.onReleaseHistory cid
              (updateReleaseState now (id active) done_stopped_manually) env)
    as [updated env'].
  cbn [snd] in *. exists env'. split; [reflexivity |].
  split; [| now split].
  destruct (getActiveRelease_first_of_id _ _ Hactive) as (r & Hget & _).
  rewrite Hafter.
  destruct (ReleaseHistoryFacts.updateReleaseState_getRelease now (id active)
              done_stopped_manually _ r Hget) as (r' & Hr' & Hstate' & _).
  eauto.
Qed.

(** X19. Whenever [POST /release/active] does not answer 200 it has
    changed nothing and called no workflow; and then a credential is
    missing, or the connection has no active release, or the command is
    neither ["start"] nor ["stop"], or the active release is not in the
    state the command needs. *)
Theorem refused_control_changes_nothing now body env response calls env' :
  postReleaseActive now body env = (response, calls, env') ->
  (forall answer, response <> text 200 answer) ->
  env' = env /\ calls = []
  /\ (truthy (control_accountId body) = false
      \/ truthy (control_workerName body) = false
      \/ truthy (control_apiToken body) = false
      \/ getActiveRelease (Env.getReleaseHistory env (control_connectionId body))
         = None
      \/ (control_command body <> Some "start" /\ control_command body <> Some "stop")
      \/ (exists active,
            getActiveRelease (Env.getReleaseHistory env (control_connectionId body))
            = Some active
            /\ ((control_command body = Some "start" /\ state active = running)
                \/ (control_command body = Some "stop"
                    /\ state active = not_started)))).
Proof.
  unfold postReleaseActive. intros Hrun Hrefused.
  destruct (truthy (control_accountId body)); cbn [negb orb] in Hrun.
  2:{ injection Hrun as <- <- <-. repeat split. auto. }
  destruct (truthy (control_workerName body)); cbn [negb orb] in Hrun.
  2:{ injection Hrun as <- <- <-. repeat split. auto. }
  destruct (truthy (control_apiToken body)); cbn [negb orb] in Hrun.
  2:{ injection Hrun as <- <- <-. repeat split. auto 8. }
  destruct (getActiveRelease _) as [active |] eqn:Hactive.
  2:{ injection Hrun as <- <- <-. repeat split. auto 8. }
  assert (Hcases : state active = not_started \/ state active = running).
  { apply getActiveRelease_state in Hactive. exact Hactive. }
  destruct (control_command body) as [command |] eqn:Hcommand; cbn [default] in Hrun.
  2:{ change (Datatypes.id "") with "" in Hrun.
      change (String.eqb "" "start") with false in Hrun.
      change (String.eqb "" "stop") with false in Hrun. cbv iota in Hrun.
      injection Hrun as <- <- <-. repeat split. do 4 right. left.
      split; discriminate. }
  change (Datatypes.id command) with command in Hrun.
  destruct (String.eqb_spec command "start") as [-> | Hstart].
  - destruct (bool_decide (state active = not_started)) eqn:Hstate; cbn [negb] in Hrun.
    + destruct (Env.onReleaseHistory _ _ env) as [updated env1].
      injection Hrun as <- <- <-. now destruct (Hrefused "Release started successfully").
    + injection Hrun as <- <- <-. repeat split. do 5 right. exists active.
      split; [reflexivity |]. left. split; [reflexivity |].
      apply bool_decide_eq_false in Hstate. now destruct Hcases.
  - destruct (String.eqb_spec command "stop") as [-> | Hstop].
    + destruct (bool_decide (state active = running)) eqn:Hstate; cbn [negb] in Hrun.
      * destruct (Env.onReleaseHistory _ _ env) as [updated env1].
        injection Hrun as <- <- <-. now destruct (Hrefused "Release stopping async").
      * injection Hrun as <- <- <-. repeat split. do 5 right. exists active.
        split; [reflexivity |]. right. split; [reflexivity |].
        apply bool_decide_eq_false in Hstate. now destruct Hcases.
    + injection Hrun as <- <- <-. repeat split. do 4 right. left.
      split; congruence.
Qed.

Lemma postReleaseCreate_success now releaseId_ body env created env' :
  postReleaseCreate now releaseId_ body env = (jsonRelease 200 created, env') ->
  exists cid plan env1,
    create_connectionId body = Some cid
    /\ SLOEvaluator.truthyString cid = true
    /\ Env.onPlanStorage cid PlanStorage.get env = (plan, env1)
    /\ id created = releaseId_
    /\ state created = not_started
    /\ stages created
       = map (fun stage =>
                {| StageRef.id := getStageId releaseId_ (PlanStorage.order stage);
                   StageRef.order := PlanStorage.order stage |})
             (PlanStorage.stages plan)
    /\ env' = snd (Env.onReleaseHistory cid (createRelease created)
                     (initializeStages releaseId_ (PlanStorage.stages plan) env1)).
Proof.
  unfold postReleaseCreate. intros Hrun.
  destruct (create_connectionId body) as [cid |]; [| discriminate].
  destruct (SLOEvaluator.truthyString cid) eqn:Htruthy; [| discriminate].
  destruct (hasActiveRelease _); [discriminate |].
  destruct (Env.onPlanStorage cid PlanStorage.get env) as [plan env1] eqn:Hplan.
  unfold Env.onReleaseHistory at 1, createRelease at 1 in Hrun.
  injection Hrun as <- <-.
  exists cid, plan, env1. repeat split; assumption.
Qed.

(** X20. What [POST /release/create] answers is what the other routes
    serve: the release it returns is the one [POST /release/:releaseId]
    returns for its id, an eight-digit hexadecimal one, and the one
    [POST /release/active/get] returns as the active release of the
    connection. *)
Theorem created_release_is_served now releaseId_ body env created env' :
  postReleaseCreate now releaseId_ body env = (jsonRelease 200 created, env') ->
  isValidId releaseId_ = true ->
  postReleaseById releaseId_ (create_connectionId body) env' = jsonRelease 200 created
  /\ postReleaseActiveGet (create_connectionId body) env' = inr (Some created).
Proof.
  intros Hrun Hvalid.
  destruct (postReleaseCreate_success _ _ _ _ _ _ Hrun)
    as (cid & plan & env1 & Hcid & Htruthy & _ & Hid & Hstate & _ & ->).
  unfold postReleaseById, postReleaseActiveGet. rewrite Hcid, Hvalid.
  cbn [truthy default negb]. rewrite Htruthy. cbn [negb].
  change (Datatypes.id cid) with cid.
  rewrite ApiFacts.getReleaseHistory_onReleaseHistory.
  unfold getRelease, getActiveRelease.
  rewrite ReleaseHistoryFacts.createRelease_releases. cbn [List.find].
  rewrite Hid, String.eqb_refl. unfold isActive. rewrite Hstate.
  split; reflexivity.
Qed.

Lemma getStageId_inj releaseId_ a b :
  getStageId releaseId_ a = getStageId releaseId_ b -> a = b.
Proof.
  unfold getStageId. intros Heq.
  repeat (apply String.app_inj in Heq).
  now apply JsStringFacts.integerToString_inj in Heq.
Qed.

Lemma getStageStorage_onStageStorage {A} key
    (method : StageStorage.Storage -> A * StageStorage.Storage) env key' :
  Env.getStageStorage (snd (Env.onStageStorage key method env)) key'
  = if decide (key = key')
    then snd (method (Env.getStageStorage env key))
    else Env.getStageStorage env key'.
Proof.
  unfold Env.onStageStorage. destruct (method _) as [a st]. cbn [snd].
  apply ReleaseWorkflowFacts.getStageStorage_set.
Qed.

Lemma onStageStorage_others {A} key
    (method : StageStorage.Storage -> A * StageStorage.Storage) env :
  Env.RELEASE_HISTORY (snd (Env.onStageStorage key method env))
  = Env.RELEASE_HISTORY env
  /\ Env.PLAN_STORAGE (snd (Env.onStageStorage key method env))
     = Env.PLAN_STORAGE env.
Proof. unfold Env.onStageStorage. now destruct (method _). Qed.

(** The record that [POST /release/create] initializes for a stage. *)
Lemma initializeStages_keeps releaseId_ planStages env order_ record :
  StageStorage.get (Env.getStageStorage env (getStageId releaseId_ order_))
  = Some record ->
  StageStorage.id record = getStageId releaseId_ order_ ->
  StageStorage.order record = order_ ->
  StageStorage.releaseId record = releaseId_ ->
  StageStorage.state record = StageStorage.queued ->
  StageStorage.time_started record = None ->
  StageStorage.time_elapsed record = 0%Z ->
  StageStorage.time_done record = None ->
  StageStorage.logs record = "" ->
  StageStorage.get
    (Env.getStageStorage (initializeStages releaseId_ planStages env)
       (getStageId releaseId_ order_))
  = Some record.
Proof.
  revert env. induction planStages as [| planStage rest IH]; intros env;
    cbn [initializeStages]; [easy |].
  intros Hget Hid Horder Hrelease Hstate Hstarted Helapsed Hdone Hlogs.
  set (key := getStageId releaseId_ (PlanStorage.order planStage)).
  set (method := StageStorage.initialize _).
  pose proof (getStageStorage_onStageStorage key method env
                (getStageId releaseId_ order_)) as Hafter.
  destruct (Env.onStageStorage key method env) as [initialized env1].
  cbn [snd] in Hafter. apply IH; try assumption.
  rewrite Hafter. destruct (decide (key = getStageId releaseId_ order_)) as [Hkey |];
    [| exact Hget].
  subst key method. apply getStageId_inj in Hkey. rewrite Hkey.
  cbn. destruct record. cbn in *. congruence.
Qed.

Lemma initializeStages_record releaseId_ planStages env planStage :
  In planStage planStages ->
  exists record,
    StageStorage.get
      (Env.getStageStorage (initializeStages releaseId_ planStages env)
         (getStageId releaseId_ (PlanStorage.order planStage)))
    = Some record
    /\ StageStorage.id record = getStageId releaseId_ (PlanStorage.order planStage)
    /\ StageStorage.order record = PlanStorage.order planStage
    /\ StageStorage.releaseId record = releaseId_
    /\ StageStorage.state record = StageStorage.queued
    /\ StageStorage.time_started record = None
    /\ StageStorage.time_elapsed record = 0%Z
    /\ StageStorage.time_done record = None
    /\ StageStorage.logs record = "".
Proof.
  revert env. induction planStages as [| first rest IH]; intros env; [contradiction |].
  cbn [initializeStages].
  set (key := getStageId releaseId_ (PlanStorage.order first)).
  set (method := StageStorage.initialize _).
  pose proof (getStageStorage_onStageStorage key method env key) as Hafter.
  destruct (Env.onStageStorage key method env) as [initialized env1].
  cbn [snd] in Hafter. rewrite decide_True in Hafter by reflexivity.
  intros Hin.
  destruct Hin as [<- | Hin]; [| now apply IH].
  exists {| StageStorage.id := key;
            StageStorage.order := PlanStorage.order first;
            StageStorage.releaseId := releaseId_;
            StageStorage.state := StageStorage.queued;
            StageStorage.time_started := None;
            StageStorage.time_elapsed := 0;
            StageStorage.time_done := None;
            StageStorage.logs := "" |}.
  split; [| repeat split].
  apply initializeStages_keeps; try reflexivity.
  fold key. rewrite Hafter. reflexivity.
Qed.

(** X21. Every stage of a release that [POST /release/create] has just
    returned is served by [GET /stage/:stageId], when the route accepts its
    id, as a fresh record: [queued], with the id and order of the stage
    reference and the id of the release, not started, no time elapsed, no
    logs. *)
Theorem created_stages_are_served now releaseId_ body env created env' stageRef :
  postReleaseCreate now releaseId_ body env = (jsonRelease 200 created, env') ->
  In stageRef (stages created) ->
  isValidStageId (StageRef.id stageRef) = true ->
  getStage (StageRef.id stageRef) env'
  = inr {| StageStorage.id := StageRef.id stageRef;
           StageStorage.order := StageRef.order stageRef;
           StageStorage.releaseId := id created;
           StageStorage.state := StageStorage.queued;
           StageStorage.time_started := None;
           StageStorage.time_elapsed := 0;
           StageStorage.time_done := None;
           StageStorage.logs := "" |}.
Proof.
  intros Hrun Hin Hvalid.
  destruct (postReleaseCreate_success _ _ _ _ _ _ Hrun)
    as (cid & plan & env1 & _ & _ & _ & Hid & _ & Hstages & ->).
  rewrite Hstages in Hin. apply in_map_iff in Hin as (planStage & <- & Hin).
  cbn [StageRef.id StageRef.order] in *.
  unfold getStage. rewrite Hvalid. cbn [negb].
  destruct (onReleaseHistory_others cid (createRelease created)
              (initializeStages releaseId_ (PlanStorage.stages plan) env1))
    as (Hsame & _).
  unfold Env.getStageStorage. rewrite Hsame.
  fold (Env.getStageStorage
          (initializeStages releaseId_ (PlanStorage.stages plan) env1)
          (getStageId releaseId_ (PlanStorage.order planStage))).
  destruct (initializeStages_record releaseId_ _ env1 planStage Hin)
    as (record & -> & Hrecord).
  destruct record. cbn in Hrecord.
  destruct Hrecord as (-> & -> & -> & -> & -> & -> & -> & ->).
  now rewrite Hid.
Qed.

Section WithFormat.
Context `{JsFormat}.

Lemma handleStateTransition_releaseId now stage newState st :
  StageStorage.releaseId (fst (StageStorage.handleStateTransition now stage newState st))
  = StageStorage.releaseId stage.
Proof.
  unfold StageStorage.handleStateTransition.
  repeat (match goal with |- context [if ?b then _ else _] => destruct b end);
    try destruct (StageStorage.time_started stage); reflexivity.
Qed.

Lemma progressStage_stored now command_ st stage :
  StageStorage.get st = Some stage ->
  exists stored,
    StageStorage.get (snd (StageStorage.progressStage now command_ st)) = Some stored
    /\ StageStorage.state stored
       = match command_ with
         | StageStorage.approve => StageStorage.done_successful
         | StageStorage.deny => StageStorage.done_cancelled
         end
    /\ StageStorage.releaseId stored = StageStorage.releaseId stage
    /\ StageStorage.id stored = StageStorage.id stage
    /\ StageStorage.order stored = StageStorage.order stage.
Proof.
  intros Hget. unfold StageStorage.progressStage. rewrite Hget.
  set (newState := match command_ with
                   | StageStorage.approve => _ | StageStorage.deny => _ end).
  destruct (StageStorageFacts.updateStageState_stored now newState
              (Some (StageStorage.logs stage
                     +:+ StageStorage.logEntry now
                           match command_ with
                           | StageStorage.approve => "Stage approved."
                           | StageStorage.deny =>
                               "Stage not approved. Cancelling release..."
                           end)) st stage Hget) as [l Hl].
  unfold StageStorage.get. rewrite Hl. eexists. split; [reflexivity |].
  cbn [StageStorage.state StageStorage.releaseId StageStorage.set_logs
       StageStorage.id StageStorage.order].
  split; [apply StageStorageFacts.handleStateTransition_state |].
  split; [apply handleStateTransition_releaseId |].
  unfold StageStorage.handleStateTransition.
  repeat (match goal with |- context [if ?b then _ else _] => destruct b end);
    try destruct (StageStorage.time_started stage); split; reflexivity.
Qed.

(** X22. [POST /stage/:stageId] closes a stage whatever state it is in:
    for a stage that has a record, queued, running or already done as much
    as awaiting approval, ["approve"] leaves it [done_successful] and
    ["deny"] leaves it [done_cancelled], the route answers 200 and sends the
    workflow of the release the command as the stage's
    [user-progress-command] event.  No other stage and no release is
    touched. *)
Theorem stage_command_closes_any_stage now stageId command command_ env stage :
  isValidStageId stageId = true ->
  commandOf command = Some command_ ->
  StageStorage.get (Env.getStageStorage env stageId) = Some stage ->
  SLOEvaluator.truthyString (StageStorage.releaseId stage) = true ->
  exists env',
    postStage now stageId command env
    = (text 200 "Stage progressed successfully",
       [ sendEvent (StageStorage.releaseId stage)
           (stageId +:+ "-user-progress-command") (Some command_) ],
       env')
    /\ (exists closed,
          StageStorage.get (Env.getStageStorage env' stageId) = Some closed
          /\ StageStorage.state closed
             = match command_ with
               | StageStorage.approve => StageStorage.done_successful
               | StageStorage.deny => StageStorage.done_cancelled
               end)
    /\ (forall other, other <> stageId ->
        Env.getStageStorage env' other = Env.getStageStorage env other)
    /\ Env.RELEASE_HISTORY env' = Env.RELEASE_HISTORY env.
Proof.
  intros Hvalid Hcommand Hget Htruthy. unfold postStage.
  rewrite Hvalid, Hcommand. cbn [negb].
  pose proof (getStageStorage_onStageStorage stageId
                (StageStorage.progressStage now command_) env) as Hafter.
  destruct (onStageStorage_others stageId
              (StageStorage.progressStage now command_) env) as [Hhistory _].
  destruct (Env.onStageStorage stageId (StageStorage.progressStage now command_) env)
    as [progressed env'].
  cbn [snd] in *.
  destruct (progressStage_stored now command_ _ stage Hget)
    as (stored & Hstored & Hstate & Hrelease & _).
  rewrite <- (decide_True (P := stageId = stageId)
                (snd (StageStorage.progressStage now command_
                        (Env.getStageStorage env stageId)))
                (Env.getStageStorage env stageId) eq_refl) in Hstored.
  rewrite <- Hafter in Hstored. rewrite Hstored, Hrelease, Htruthy.
  exists env'. split; [reflexivity |]. split; [eauto |]. split; [| exact Hhistory].
  intros other Hne. rewrite Hafter. now rewrite decide_False by congruence.
Qed.

(** X23. [POST /stage/:stageId] on a stage that has no record answers 404
    for either command, sends no event and leaves every StageStorage
    without a record that had none. *)
Theorem stage_command_on_missing_stage now stageId command command_ env :
  isValidStageId stageId = true ->
  commandOf command = Some command_ ->
  StageStorage.get (Env.getStageStorage env stageId) = None ->
  exists env',
    postStage now stageId command env = (jsonMessage 404 "Stage not found", [], env')
    /\ (forall key, Env.getStageStorage env' key = Env.getStageStorage env key)
    /\ Env.RELEASE_HISTORY env' = Env.RELEASE_HISTORY env.
Proof.
  intros Hvalid Hcommand Hget. unfold postStage.
  rewrite Hvalid, Hcommand. cbn [negb].
  pose proof (getStageStorage_onStageStorage stageId
                (StageStorage.progressStage now command_) env) as Hafter.
  destruct (onStageStorage_others stageId
              (StageStorage.progressStage now command_) env) as [Hhistory _].
  destruct (Env.onStageStorage stageId (StageStorage.progressStage now command_) env)
    as [progressed env'].
  cbn [snd] in *.
  assert (Hsame : snd (StageStorage.progressStage now command_
                         (Env.getStageStorage env stageId))
                  = Env.getStageStorage env stageId).
  { unfold StageStorage.progressStage. now rewrite Hget. }
  assert (Hkeys : forall key,
             Env.getStageStorage env' key = Env.getStageStorage env key).
  { intros key. rewrite Hafter.
    destruct (decide (stageId = key)) as [<- |]; [exact Hsame | reflexivity]. }
  rewrite Hkeys, Hget. eauto.
Qed.

End WithFormat.

End RoutesFacts.

Module ReleaseWorkflowMore.
Import PlanStorage ReleaseHistory ReleaseWorkflow WorkflowLog.

Section WithCollaborators.
Context `{JsFormat}.
Variable ext : Collaborators.
Variable this : ReleaseWorkflowParams.

Lemma appendsOnly_refl w : appendsOnly this w w.
Proof. exists [], []. now rewrite !app_nil_r. Qed.

Lemma appendsOnly_trans w1 w2 w3 :
  appendsOnly this w1 w2 -> appendsOnly this w2 w3 -> appendsOnly this w1 w3.
Proof.
  intros (d1 & q1 & Hd1 & Hown1 & Hq1) (d2 & q2 & Hd2 & Hown2 & Hq2).
  exists (d1 ++ d2), (q1 ++ q2). rewrite Hd2, Hd1, Hq2, Hq1, !app_assoc.
  split; [reflexivity |]. split; [| reflexivity].
  apply List.Forall_app. now split.
Qed.

Lemma appendsOnly_same w w' :
  deployments w' = deployments w -> queries w' = queries w -> appendsOnly this w w'.
Proof. intros Hd Hq. exists [], []. now rewrite Hd, Hq, !app_nil_r. Qed.

Lemma keepsLog_ret {A} (a : A) : keepsLog this (ret a).
Proof. intros w. apply appendsOnly_refl. Qed.

Lemma keepsLog_throw {A} : keepsLog this (@throw A).
Proof. intros w. apply appendsOnly_refl. Qed.

Lemma keepsLog_bind {A B} (m : M A) (k : A -> M B) :
  keepsLog this m -> (forall a, keepsLog this (k a)) -> keepsLog this (bind m k).
Proof.
  intros Hm Hk w. unfold bind. specialize (Hm w).
  destruct (m w) as [[a | |] w1]; cbn [snd] in *; [| exact Hm | exact Hm].
  eapply appendsOnly_trans; [exact Hm | apply Hk].
Qed.

Lemma keepsLog_catchAndRethrow {A} (m : M A) (handler : M unit) :
  keepsLog this m -> keepsLog this handler -> keepsLog this (catchAndRethrow m handler).
Proof.
  intros Hm Hh w. unfold catchAndRethrow. specialize (Hm w).
  destruct (m w) as [[a | |] w1]; cbn [snd] in *; [exact Hm | | exact Hm].
  specialize (Hh w1).
  destruct (handler w1) as [[[] | |] w2]; cbn [snd] in *;
    eapply appendsOnly_trans; eassumption.
Qed.

Lemma keepsLog_getRelease releaseId_ : keepsLog this (getRelease this releaseId_).
Proof. intros w. apply appendsOnly_refl. Qed.

Lemma keepsLog_stageGet stageId : keepsLog this (stageGet stageId).
Proof. intros w. apply appendsOnly_refl. Qed.

Lemma keepsLog_onStageStorage {A} stageId
    (method : Z -> StageStorage.Storage -> A * StageStorage.Storage) :
  keepsLog this (onStageStorage stageId method).
Proof.
  intros w. rewrite ReleaseWorkflowFacts.onStageStorage_run.
  now apply appendsOnly_same.
Qed.

Lemma keepsLog_onReleaseHistory {A}
    (method : Z -> ReleaseHistory.Storage -> A * ReleaseHistory.Storage) :
  keepsLog this (onReleaseHistory this method).
Proof.
  intros w. rewrite ReleaseWorkflowFacts.onReleaseHistory_run.
  now apply appendsOnly_same.
Qed.

Lemma keepsLog_sleepOneSecond : keepsLog this (sleepOneSecond ext).
Proof. intros w. now apply appendsOnly_same. Qed.

Lemma keepsLog_awaitEvent type : keepsLog this (awaitEvent ext type).
Proof.
  intros w. unfold awaitEvent.
  destruct (waitForEvent ext type (clock w) (env w)) as [[[payload at_] e] |];
    now apply appendsOnly_same.
Qed.

Lemma keepsLog_getWallTimes from to : keepsLog this (getWallTimes ext from to).
Proof.
  intros w. unfold getWallTimes.
  destruct (telemetryQuery ext from to); exists [], [(from, to)];
    cbn; now rewrite app_nil_r.
Qed.

Lemma keepsLog_create d : ownDeployment this d -> keepsLog this (create ext d).
Proof.
  intros Hown w. unfold create. destruct (deploymentsCreate ext d).
  - exists [d], []. cbn. rewrite app_nil_r. repeat split. now constructor.
  - apply appendsOnly_refl.
Qed.

Lemma keepsLog_setDeploymentTarget releaseId_ target_percent_ old_ new_ :
  keepsLog this (setDeploymentTarget ext this releaseId_ target_percent_ old_ new_).
Proof.
  apply keepsLog_create. repeat split. unfold totalPercent. cbn. lia.
Qed.

Lemma keepsLog_finishDeployment releaseId_ new_ :
  keepsLog this (finishDeployment ext this releaseId_ new_).
Proof. apply keepsLog_create. repeat split. Qed.

Lemma keepsLog_revertDeployment releaseId_ old_ :
  keepsLog this (revertDeployment ext this releaseId_ old_).
Proof. apply keepsLog_create. repeat split. Qed.

Create HintDb keepsLog.

#[local] Hint Resolve keepsLog_ret keepsLog_throw keepsLog_getRelease
  keepsLog_stageGet keepsLog_onStageStorage keepsLog_onReleaseHistory
  keepsLog_sleepOneSecond keepsLog_awaitEvent keepsLog_getWallTimes
  keepsLog_setDeploymentTarget keepsLog_finishDeployment
  keepsLog_revertDeployment : keepsLog.

Ltac keepsLog_step :=
  first
    [ solve [auto with keepsLog]
    | progress cbv zeta
    | apply keepsLog_bind; [| intros ?]
    | apply keepsLog_catchAndRethrow
    | match goal with
      | |- keepsLog _ (match ?x with _ => _ end) => destruct x
      | |- keepsLog _ (if ?b then _ else _) => destruct b
      | |- keepsLog _ (fun w => (Returned _, w)) => intros ?; apply appendsOnly_refl
      end ].

Lemma keepsLog_updateStagesStateBad releaseId_ stages_ state_ excludeCompleted :
  keepsLog this (updateStagesStateBad releaseId_ stages_ state_ excludeCompleted).
Proof.
  induction stages_ as [| planStage rest IH]; cbn [updateStagesStateBad];
    repeat keepsLog_step; exact IH.
Qed.
#[local] Hint Resolve keepsLog_updateStagesStateBad : keepsLog.

Lemma keepsLog_handleExternalCancellation releaseId_ currentStageOrder :
  keepsLog this (handleExternalCancellation ext this releaseId_ currentStageOrder).
Proof. unfold handleExternalCancellation. repeat keepsLog_step. Qed.
#[local] Hint Resolve keepsLog_handleExternalCancellation : keepsLog.

Lemma keepsLog_handleSLOViolation releaseId_ currentStageOrder currentStageId :
  keepsLog this (handleSLOViolation this releaseId_ currentStageOrder currentStageId).
Proof. unfold handleSLOViolation. repeat keepsLog_step. Qed.
#[local] Hint Resolve keepsLog_handleSLOViolation : keepsLog.

Lemma keepsLog_checkCancellation releaseId_ stageRef j :
  keepsLog this (checkCancellation ext this releaseId_ stageRef j).
Proof.
  induction j as [| j IH]; cbn [checkCancellation]; repeat keepsLog_step; exact IH.
Qed.
#[local] Hint Resolve keepsLog_checkCancellation : keepsLog.

Lemma keepsLog_soakRound releaseId_ stageRef release intervalTimeSeconds :
  keepsLog this (soakRound ext this releaseId_ stageRef release intervalTimeSeconds).
Proof. unfold soakRound. repeat keepsLog_step. Qed.
#[local] Hint Resolve keepsLog_soakRound : keepsLog.

Lemma keepsLog_soakRounds releaseId_ stageRef release intervalTimeSeconds i :
  keepsLog this
    (soakRounds ext this releaseId_ stageRef release intervalTimeSeconds i).
Proof.
  induction i as [| i IH]; cbn [soakRounds]; repeat keepsLog_step; exact IH.
Qed.
#[local] Hint Resolve keepsLog_soakRounds : keepsLog.

Lemma keepsLog_processStageSoak releaseId_ stageRef stagePlan :
  keepsLog this (processStageSoak ext this releaseId_ stageRef stagePlan).
Proof. unfold processStageSoak. repeat keepsLog_step. Qed.
#[local] Hint Resolve keepsLog_processStageSoak : keepsLog.

Lemma keepsLog_handleStageApproval stageRef stagePlan release releaseId_ :
  keepsLog this (handleStageApproval ext this stageRef stagePlan release releaseId_).
Proof.
  unfold handleStageApproval, updateRemainingStages. repeat keepsLog_step.
Qed.
#[local] Hint Resolve keepsLog_handleStageApproval : keepsLog.

Lemma keepsLog_processStages releaseId_ release stageRefs :
  keepsLog this (processStages ext this releaseId_ release stageRefs).
Proof.
  induction stageRefs as [| stageRef rest IH]; cbn [processStages];
    repeat keepsLog_step; exact IH.
Qed.
#[local] Hint Resolve keepsLog_processStages : keepsLog.

(** X24. Whatever the collaborators do and however it ends, a run of the
    workflow only adds to the deployments made and to the telemetry queries
    asked; and every deployment it makes is one of the worker and account
    of the workflow that hands out exactly 100 percent of the traffic. *)
Theorem run_appends_full_deployments w :
  exists made asked,
    deployments (snd (run ext this w)) = deployments w ++ made
    /\ queries (snd (run ext this w)) = queries w ++ asked
    /\ Forall (fun d => script_name d = workerName this
                        /\ account_id d = accountId this
                        /\ totalPercent d = 100%Z) made.
Proof.
  assert (Hrun : keepsLog this (run ext this)).
  { unfold run. cbn zeta. repeat keepsLog_step. }
  destruct (Hrun w) as (made & asked & Hmade & Hown & Hasked).
  exists made, asked. repeat split; assumption.
Qed.

Lemma create_outcome d w :
  exists o w',
    create ext d w = (o, w')
    /\ env w' = env w /\ clock w' = clock w
    /\ ((deploymentsCreate ext d = true /\ o = Returned tt
         /\ deployments w' = deployments w ++ [d])
        \/ (deploymentsCreate ext d = false /\ o = Thrown /\ w' = w)).
Proof.
  unfold create. destruct (deploymentsCreate ext d); eexists _, _;
    (split; [reflexivity |]); cbn; auto 8.
Qed.

Lemma create_returned d w w' :
  create ext d w = (Returned tt, w') ->
  env w' = env w /\ deployments w' = deployments w ++ [d].
Proof.
  unfold create. destruct (deploymentsCreate ext d); [| discriminate].
  intros [= <-]. now split.
Qed.

Lemma create_env d w o w' : create ext d w = (o, w') -> env w' = env w.
Proof.
  unfold create. destruct (deploymentsCreate ext d); now intros [= _ <-].
Qed.

(** The bulk update leaves alone every StageStorage that is not the one of
    a stage it is given. *)
Lemma updateStagesStateBad_elsewhere releaseId_ stages_ state_ excludeCompleted
    w o w' key :
  updateStagesStateBad releaseId_ stages_ state_ excludeCompleted w = (o, w') ->
  (forall planStage, In planStage stages_ ->
     key <> stageName releaseId_ (PlanStorage.order planStage)) ->
  Env.getStageStorage (env w') key = Env.getStageStorage (env w) key.
Proof.
  revert w. induction stages_ as [| planStage rest IH]; intros w;
    cbn [updateStagesStateBad].
  - now intros [= _ <-].
  - intros Hrun Hother. unfold bind at 1, stageGet at 1 in Hrun.
    assert (Hrest : forall p, In p rest ->
                      key <> stageName releaseId_ (PlanStorage.order p)).
    { intros p Hin. apply Hother. now right. }
    destruct (StageStorage.get _) as [data |]; [| now apply (IH w)].
    destruct (negb excludeCompleted
              || negb (StageStorage.startsWithDone (StageStorage.state data)));
      [| now apply (IH w)].
    unfold bind at 1 in Hrun.
    destruct (ReleaseWorkflowFacts.onStageStorage_frame
                (stageName releaseId_ (PlanStorage.order planStage))
                (fun now => StageStorage.updateStageState now state_ None) w)
      as (a & w1 & Hcall & _ & _ & Hframe).
    rewrite Hcall in Hrun. rewrite (IH w1 Hrun Hrest).
    apply Hframe. apply Hother. now left.
Qed.

(** After the bulk update to [done_cancelled], every stage it was given
    that has a record is in a [done_] state. *)
Lemma updateStagesStateBad_closes releaseId_ stages_ w w' planStage s' :
  updateStagesStateBad releaseId_ stages_ StageStorage.done_cancelled true w
  = (Returned tt, w') ->
  In planStage stages_ ->
  stageRecord w' (stageName releaseId_ (PlanStorage.order planStage)) = Some s' ->
  StageStorage.startsWithDone (StageStorage.state s') = true.
Proof.
  intros Hrun Hin Hafter.
  set (key := stageName releaseId_ (PlanStorage.order planStage)) in *.
  destruct (ReleaseWorkflowFacts.updateStagesStateBad_skips releaseId_ stages_
              StageStorage.done_cancelled w) as (w2 & Hrun2 & _ & Hkeep).
  rewrite Hrun in Hrun2. injection Hrun2 as <-.
  destruct (stageRecord w key) as [s |] eqn:Hbefore.
  - destruct (StageStorage.startsWithDone (StageStorage.state s)) eqn:Hdone.
    + unfold stageRecord in Hafter. rewrite Hkeep in Hafter.
      * fold (stageRecord w key) in Hafter. congruence.
      * intros s0 Hs0. congruence.
    + destruct (ReleaseWorkflowFacts.updateStagesStateBad_reaches releaseId_ stages_
                  StageStorage.done_cancelled w w' key s eq_refl Hrun Hbefore)
        as (s1 & Hs1 & Hstate1).
      { right. split; [exact Hdone |]. now exists planStage. }
      rewrite Hs1 in Hafter. injection Hafter as <-. now rewrite Hstate1.
  - unfold stageRecord in Hafter. rewrite Hkeep in Hafter.
    + fold (stageRecord w key) in Hafter. congruence.
    + intros s0 Hs0. congruence.
Qed.

(** X25. The handling of a cancellation from outside, once the release is
    found: every stage of its plan from the current one on that has a
    record not yet in a [done_] state becomes [done_cancelled], those
    already done and the stages before the current one keep their record,
    the release becomes [done_stopped_manually], and all traffic is sent
    back to the old version.  When the deployment API refuses that call the
    handler throws, with the stages and the release already closed. *)
Theorem external_cancellation_closes_the_release releaseId_ currentStageOrder w
    current :
  releaseRecord this w releaseId_ = Some current ->
  let revert :=
    {| script_name := workerName this;
       account_id := accountId this;
       versions := [ (100%Z, old_version current) ];
       annotation := "Workers HMD Release " +:+ releaseId_ +:+ " - reverted" |} in
  exists w',
    handleExternalCancellation ext this releaseId_ currentStageOrder w
    = (if deploymentsCreate ext revert then Returned tt else Thrown, w')
    /\ deployments w'
       = deployments w ++ (if deploymentsCreate ext revert then [revert] else [])
    /\ (exists stopped, releaseRecord this w' releaseId_ = Some stopped
          /\ state stopped = done_stopped_manually)
    /\ (forall planStage s,
          In planStage (PlanStorage.stages (plan_record current)) ->
          stageRecord w (stageName releaseId_ (PlanStorage.order planStage)) = Some s ->
          if StageStorage.startsWithDone (StageStorage.state s)
             || (PlanStorage.order planStage <? currentStageOrder)%Z
          then stageRecord w' (stageName releaseId_ (PlanStorage.order planStage))
               = Some s
          else exists s',
              stageRecord w' (stageName releaseId_ (PlanStorage.order planStage))
              = Some s'
              /\ StageStorage.state s' = StageStorage.done_cancelled).
Proof.
  intros Hrelease revert. unfold handleExternalCancellation.
  unfold bind at 1, getRelease at 1. fold (releaseRecord this w releaseId_).
  rewrite Hrelease.
  set (remainingStages := List.filter _ _).
  destruct (ReleaseWorkflowFacts.updateStagesStateBad_skips releaseId_ remainingStages
              StageStorage.done_cancelled w) as (w1 & Hbulk & Hframe1 & Hkeep).
  unfold bind at 1. rewrite Hbulk.
  destruct (ReleaseWorkflowFacts.onReleaseHistory_frame this
              (fun now => updateReleaseState now releaseId_ done_stopped_manually) w1)
    as (a & w2 & Hhist & _ & _ & Hdeployments2 & Hstages2 & Hafter).
  unfold bind at 1. rewrite Hhist.
  unfold revertDeployment. fold revert.
  destruct (create_outcome revert w2) as (o & w3 & Hcreate & Henv3 & _ & Hcases).
  rewrite Hcreate. exists w3.
  assert (Hdeployments1 : deployments w1 = deployments w) by apply Hframe1.
  assert (Hstages3 : forall key, stageRecord w3 key = stageRecord w1 key).
  { intros key. unfold stageRecord. rewrite Henv3.
    apply (ReleaseWorkflowFacts.stageRecord_same_stages _ _ _ Hstages2). }
  split; [| split; [| split]].
  - destruct Hcases as [(-> & -> & _) | (-> & -> & _)]; reflexivity.
  - destruct Hcases as [(-> & _ & ->) | (-> & _ & ->)];
      rewrite Hdeployments2, Hdeployments1; [reflexivity | now rewrite app_nil_r].
  - assert (Hrelease1 : releaseRecord this w1 releaseId_ = Some current).
    { now rewrite (ReleaseWorkflowFacts.onlyStagesDiffer_releaseRecord this w w1 _ Hframe1). }
    destruct (ReleaseHistoryFacts.updateReleaseState_getRelease (clock w1) releaseId_
                done_stopped_manually _ current Hrelease1) as (r' & Hr' & Hstate' & _).
    exists r'. split; [| exact Hstate']. unfold releaseRecord.
    rewrite Henv3, Hafter. exact Hr'.
  - intros planStage s Hin Hs. rewrite Hstages3.
    destruct (StageStorage.startsWithDone (StageStorage.state s)) eqn:Hdone;
      cbn [orb].
    + unfold stageRecord in *. rewrite Hkeep; [exact Hs |].
      intros s0 Hs0. congruence.
    + destruct (Z.ltb_spec (PlanStorage.order planStage) currentStageOrder)
        as [Hbefore | Hfrom].
      * unfold stageRecord.
        rewrite (updateStagesStateBad_elsewhere _ _ _ _ _ _ _ _ Hbulk); [exact Hs |].
        intros p Hp Heq. apply ReleaseWorkflowFacts.stageName_inj in Heq.
        subst remainingStages. apply filter_In in Hp as [_ Hle].
        apply Z.leb_le in Hle. lia.
      * eapply ReleaseWorkflowFacts.updateStagesStateBad_reaches;
          [reflexivity | exact Hbulk | exact Hs |].
        right. split; [exact Hdone |]. exists planStage. split; [| reflexivity].
        subst remainingStages. apply filter_In. split; [exact Hin |].
        now apply Z.leb_le.
Qed.

(** X26. A run that returns has sent all traffic to one version, with its
    last deployment: to the old version of the release read at the start
    when the release ended [done_stopped_manually] or [done_failed_slo], and
    otherwise to the new version, with the release [done_successful] if the
    history still holds it. *)
Theorem returned_run_settles_the_traffic w w' release :
  releaseRecord this w (releaseId this) = Some release ->
  run ext this w = (Returned tt, w') ->
  exists earlier last,
    deployments w' = earlier ++ [last]
    /\ script_name last = workerName this
    /\ account_id last = accountId this
    /\ ((versions last = [ (100%Z, old_version release) ]
         /\ exists settled, releaseRecord this w' (releaseId this) = Some settled
              /\ (state settled = done_stopped_manually
                  \/ state settled = done_failed_slo))
        \/ (versions last = [ (100%Z, new_version release) ]
            /\ match releaseRecord this w' (releaseId this) with
               | Some settled => state settled = done_successful
               | None => True
               end)).
Proof.
  intros Hrelease. unfold run. cbv zeta.
  unfold bind at 1, getRelease at 1. fold (releaseRecord this w (releaseId this)).
  rewrite Hrelease. unfold catchAndRethrow.
  match goal with
  | |- context [match ?body w with _ => _ end] =>
      destruct (body w) as [[[] | |] w1] eqn:Hbody
  end.
  2:{ match goal with
      | |- context [match ?handler w1 with _ => _ end] =>
          destruct (handler w1) as [[[] | |] w2]
      end; discriminate. }
  2:{ discriminate. }
  intros [= <-]. unfold bind at 1 in Hbody.
  destruct (onReleaseHistory this _ w) as [[started | |] wa]; try discriminate.
  unfold bind at 1 in Hbody.
  destruct (processStages ext this _ _ _ wa) as [[[] | |] wb]; try discriminate.
  unfold bind at 1, getRelease at 1 in Hbody.
  fold (releaseRecord this wb (releaseId this)) in Hbody.
  assert (Hrevert :
            forall settled,
              releaseRecord this wb (releaseId this) = Some settled ->
              state settled = done_stopped_manually \/ state settled = done_failed_slo ->
              revertDeployment ext this (releaseId this) (old_version release) wb
              = (Returned tt, w1) ->
              exists earlier last,
                deployments w1 = earlier ++ [last]
                /\ script_name last = workerName this
                /\ account_id last = accountId this
                /\ ((versions last = [ (100%Z, old_version release) ]
                     /\ exists settled0,
                          releaseRecord this w1 (releaseId this) = Some settled0
                          /\ (state settled0 = done_stopped_manually
                              \/ state settled0 = done_failed_slo))
                    \/ (versions last = [ (100%Z, new_version release) ]
                        /\ match releaseRecord this w1 (releaseId this) with
                           | Some settled0 => state settled0 = done_successful
                           | None => True
                           end))).
  { intros settled Hsettled Hstate Hcreate. unfold revertDeployment in Hcreate.
    apply create_returned in Hcreate as [Henv Hmade].
    eexists _, _. split; [exact Hmade |]. cbn. repeat split. left.
    split; [reflexivity |]. exists settled. unfold releaseRecord in *.
    rewrite Henv. now split. }
  destruct (releaseRecord this wb (releaseId this)) as [specific |] eqn:Hspecific;
    cbn [fmap option_fmap option_map] in Hbody.
  1: destruct (state specific) eqn:Hstate;
       try (eapply Hrevert; [reflexivity | rewrite Hstate; auto | exact Hbody]).
  all: unfold bind at 1 in Hbody;
    destruct (ReleaseWorkflowFacts.onReleaseHistory_frame this
                (fun now => updateReleaseState now (releaseId this) done_successful) wb)
      as (a & wc & Hhist & _ & _ & _ & _ & Hafter);
    rewrite Hhist in Hbody; unfold finishDeployment in Hbody;
    apply create_returned in Hbody as [Henv Hmade];
    eexists _, _; (split; [exact Hmade |]); cbn [script_name account_id versions];
    repeat split; right; (split; [reflexivity |]);
    unfold releaseRecord; rewrite Henv, Hafter.
  1-4: destruct (ReleaseHistoryFacts.updateReleaseState_getRelease (clock wb)
                   (releaseId this) done_successful _ specific Hspecific)
         as (r' & -> & Hstate' & _); exact Hstate'.
  rewrite ReleaseHistoryFacts.updateReleaseState_unknown
    by (apply ReleaseHistoryMore.getRelease_None_findIndex; exact Hspecific).
  cbn [snd]. unfold releaseRecord in Hspecific. now rewrite Hspecific.
Qed.

(** X27. A run that throws has closed the release as far as the history
    still holds it: the release is in the state [error], and every stage of
    its plan that has a record is in a [done_] state. *)
Theorem thrown_run_leaves_an_error w w' release :
  releaseRecord this w (releaseId this) = Some release ->
  run ext this w = (Thrown, w') ->
  match releaseRecord this w' (releaseId this) with
  | None => True
  | Some failed =>
      state failed = error
      /\ forall planStage s,
           In planStage (PlanStorage.stages (plan_record failed)) ->
           stageRecord w' (stageName (releaseId this) (PlanStorage.order planStage))
           = Some s ->
           StageStorage.startsWithDone (StageStorage.state s) = true
  end.
Proof.
  intros Hrelease. unfold run. cbv zeta.
  unfold bind at 1, getRelease at 1. fold (releaseRecord this w (releaseId this)).
  rewrite Hrelease. unfold catchAndRethrow.
  match goal with
  | |- context [match ?body w with _ => _ end] =>
      destruct (body w) as [[[] | |] w1]
  end; try discriminate.
  unfold bind at 1.
  assert (Hhandled :
            forall w2,
              (exists o w3,
                  revertDeployment ext this (releaseId this) (old_version release) w2
                  = (o, w3) /\ w' = w3) ->
              match releaseRecord this w2 (releaseId this) with
              | None => True
              | Some failed =>
                  state failed = error
                  /\ forall planStage s,
                      In planStage (PlanStorage.stages (plan_record failed)) ->
                      stageRecord w2
                        (stageName (releaseId this) (PlanStorage.order planStage))
                      = Some s ->
                      StageStorage.startsWithDone (StageStorage.state s) = true
              end ->
              match releaseRecord this w' (releaseId this) with
              | None => True
              | Some failed =>
                  state failed = error
                  /\ forall planStage s,
                      In planStage (PlanStorage.stages (plan_record failed)) ->
                      stageRecord w'
                        (stageName (releaseId this) (PlanStorage.order planStage))
                      = Some s ->
                      StageStorage.startsWithDone (StageStorage.state s) = true
              end).
  { intros w2 (o & w3 & Hcreate & ->) Hclosed. unfold revertDeployment in Hcreate.
    apply create_env in Hcreate as Henv.
    unfold releaseRecord, stageRecord in *. now rewrite Henv. }
  unfold bind at 1, getRelease at 1.
  fold (releaseRecord this w1 (releaseId this)).
  destruct (releaseRecord this w1 (releaseId this)) as [current |] eqn:Hcurrent.
  - destruct (ReleaseWorkflowFacts.updateStagesStateBad_skips (releaseId this)
                (PlanStorage.stages (plan_record current))
                StageStorage.done_cancelled w1) as (w2 & Hbulk & Hframe2 & _).
    unfold bind at 1. rewrite Hbulk.
    destruct (ReleaseWorkflowFacts.onReleaseHistory_frame this
                (fun now => updateReleaseState now (releaseId this) error) w2)
      as (a & w3 & Hhist & _ & _ & _ & Hstages3 & Hafter).
    unfold bind at 1. rewrite Hhist. unfold ret.
    destruct (revertDeployment ext this (releaseId this) (old_version release) w3)
      as [[[] | |] w4] eqn:Hcreate; intros [= <-];
      (apply (Hhandled w3); [eauto |]).
    all: assert (Hcurrent2 : releaseRecord this w2 (releaseId this) = Some current)
      by (now rewrite (ReleaseWorkflowFacts.onlyStagesDiffer_releaseRecord
                         this w1 w2 _ Hframe2)).
    all: destruct (ReleaseHistoryFacts.updateReleaseState_getRelease (clock w2)
                     (releaseId this) error _ current Hcurrent2)
      as (r' & Hr' & Hstate' & _ & Hplan' & _).
    all: unfold releaseRecord at 1; rewrite Hafter, Hr'.
    all: split; [exact Hstate' |]; rewrite Hplan'; intros planStage s Hin Hs.
    all: rewrite (ReleaseWorkflowFacts.stageRecord_same_stages _ _ _ Hstages3) in Hs.
    all: eapply updateStagesStateBad_closes; eassumption.
  - unfold ret.
    destruct (revertDeployment ext this (releaseId this) (old_version release) w1)
      as [[[] | |] w4] eqn:Hcreate; intros [= <-];
      (apply (Hhandled w1); [eauto |]); now rewrite Hcurrent.
Qed.

End WithCollaborators.
End ReleaseWorkflowMore.

Module PlanEditorFacts.
Import PlanStorage PlanEditor.

Lemma insertByOrder_Permutation stage sorted :
  Permutation (stage :: sorted) (insertByOrder stage sorted).
Proof.
  induction sorted as [| first rest IH]; cbn [insertByOrder]; [reflexivity |].
  destruct (order stage <=? order first)%Z; [reflexivity |].
  rewrite Permutation_swap. now apply Permutation_skip.
Qed.

Lemma sortByOrder_Permutation stages_ : Permutation stages_ (sortByOrder stages_).
Proof.
  induction stages_ as [| stage rest IH]; cbn; [reflexivity |].
  rewrite <- insertByOrder_Permutation. now apply Permutation_skip.
Qed.

Lemma insertByOrder_sorted stage sorted :
  StronglySorted (fun a b => (order a <= order b)%Z) sorted ->
  StronglySorted (fun a b => (order a <= order b)%Z) (insertByOrder stage sorted).
Proof.
  induction sorted as [| first rest IH]; cbn [insertByOrder]; intros Hsorted.
  - repeat constructor.
  - apply StronglySorted_inv in Hsorted as [Hrest Hfirst].
    destruct (Z.leb_spec (order stage) (order first)) as [Hle | Hgt].
    + constructor; [now constructor |]. constructor; [exact Hle |].
      eapply Forall_impl; [exact Hfirst |]. cbn. intros b Hb. lia.
    + constructor; [now apply IH |].
      rewrite <- insertByOrder_Permutation. constructor; [lia | exact Hfirst].
Qed.

Lemma sortByOrder_sorted stages_ :
  StronglySorted (fun a b => (order a <= order b)%Z) (sortByOrder stages_).
Proof.
  induction stages_ as [| stage rest IH]; cbn; [constructor |].
  now apply insertByOrder_sorted.
Qed.

Lemma insertByOrder_first stage sorted :
  Forall (fun b => (order stage <= order b)%Z) sorted ->
  insertByOrder stage sorted = stage :: sorted.
Proof.
  destruct sorted as [| first rest]; cbn [insertByOrder]; [reflexivity |].
  intros Hall. apply Forall_inv in Hall.
  now rewrite (proj2 (Z.leb_le _ _) Hall).
Qed.

Lemma sortByOrder_of_sorted stages_ :
  StronglySorted (fun a b => (order a <= order b)%Z) stages_ ->
  sortByOrder stages_ = stages_.
Proof.
  induction stages_ as [| stage rest IH]; [reflexivity |].
  change (sortByOrder (stage :: rest)) with (insertByOrder stage (sortByOrder rest)).
  intros Hsorted. apply StronglySorted_inv in Hsorted as [Hrest Hfirst].
  rewrite (IH Hrest). now apply insertByOrder_first.
Qed.

Lemma firstNotAscending_None i previous rest :
  firstNotAscending i previous rest = None <->
  StronglySorted (fun a b => (target_percent a < target_percent b)%Z)
    (previous :: rest).
Proof.
  revert i previous. induction rest as [| current rest' IH]; intros i previous;
    cbn [firstNotAscending].
  - split; [repeat constructor | reflexivity].
  - destruct (Z.leb_spec (target_percent current) (target_percent previous))
      as [Hle | Hlt].
    + split; [discriminate |]. intros Hsorted.
      apply StronglySorted_inv in Hsorted as [_ Hall].
      apply Forall_inv in Hall. lia.
    + rewrite IH. split.
      * intros Hsorted. constructor; [exact Hsorted |].
        constructor; [exact Hlt |].
        apply StronglySorted_inv in Hsorted as [_ Hall].
        eapply Forall_impl; [exact Hall |]. cbn. intros b Hb. lia.
      * intros Hsorted. now apply StronglySorted_inv in Hsorted as [Hrest _].
Qed.

Lemma firstNotAscending_Some i previous rest found :
  firstNotAscending i previous rest = Some found ->
  exists before a b after,
    previous :: rest = before ++ a :: b :: after
    /\ found = (i + length before)%nat
    /\ (target_percent b <= target_percent a)%Z.
Proof.
  revert i previous. induction rest as [| current rest' IH]; intros i previous;
    cbn [firstNotAscending]; [discriminate |].
  destruct (Z.leb_spec (target_percent current) (target_percent previous))
    as [Hle | Hlt].
  - intros [= <-]. exists [], previous, current, rest'.
    cbn. split; [reflexivity |]. split; [lia | exact Hle].
  - intros Hfound. destruct (IH _ _ Hfound) as (before & a & b & after & Heq & -> & Hle).
    exists (previous :: before), a, b, after. rewrite Heq.
    cbn. split; [reflexivity |]. split; [lia | exact Hle].
Qed.

(** X28. What the plan editor passes on to be saved.  The plan that
    [handleSave] hands to [onSave] has the stages of the edited plan, all
    of them and no other, sorted by order, with percentages that rise
    strictly from each stage to every later one; its other fields are
    those of the edited plan, without a time of saving.  Saving that plan
    again passes it on unchanged.  And when [handleSave] reports an error
    for a plan, two stages that follow each other in the order of the plan
    do not have rising percentages. *)
Theorem handleSave_passes_ascending_plans currentPlan :
  (forall validatedPlan,
      handleSave (Some currentPlan) = onSave validatedPlan ->
      Permutation (stages currentPlan) (stages validatedPlan)
      /\ StronglySorted (fun a b => (order a <= order b)%Z) (stages validatedPlan)
      /\ StronglySorted (fun a b => (target_percent a < target_percent b)%Z)
           (stages validatedPlan)
      /\ slos validatedPlan = slos currentPlan
      /\ worker_name validatedPlan = worker_name currentPlan
      /\ polling_fraction validatedPlan = polling_fraction currentPlan
      /\ time_last_saved validatedPlan = None
      /\ handleSave (Some validatedPlan) = onSave validatedPlan)
  /\ (forall message,
        handleSave (Some currentPlan) = saveValidationError message ->
        exists before a b after,
          sortByOrder (stages currentPlan) = before ++ a :: b :: after
          /\ (order a <= order b)%Z
          /\ (target_percent b <= target_percent a)%Z
          /\ message
             = "Stage " +:+ pretty (length before + 2)%nat
               +:+ " must have a higher target percentage than stage "
               +:+ pretty (length before + 1)%nat).
Proof.
  unfold handleSave. cbv zeta.
  pose proof (sortByOrder_Permutation (stages currentPlan)) as Hperm.
  pose proof (sortByOrder_sorted (stages currentPlan)) as Hsorted.
  destruct (sortByOrder (stages currentPlan)) as [| first rest] eqn:Hsort.
  - split; [| discriminate]. intros validatedPlan [= <-]. cbn.
    repeat split; try assumption; constructor.
  - destruct (firstNotAscending 1 first rest) as [i |] eqn:Hcheck.
    + split; [discriminate |]. intros message [= <-].
      destruct (firstNotAscending_Some _ _ _ _ Hcheck)
        as (before & a & b & after & Heq & -> & Hle).
      exists before, a, b, after. split; [exact Heq |]. split.
      * rewrite Heq in Hsorted. clear -Hsorted.
        induction before as [| x before IH]; cbn in Hsorted.
        -- apply StronglySorted_inv in Hsorted as [_ Hall].
           now apply Forall_inv in Hall.
        -- apply IH. now apply StronglySorted_inv in Hsorted as [Hrest _].
      * split; [exact Hle |].
        now replace (1 + length before + 1)%nat with (length before + 2)%nat by lia;
          replace (1 + length before)%nat with (length before + 1)%nat by lia.
    + split; [| discriminate]. intros validatedPlan [= <-].
      cbn [stages slos worker_name polling_fraction time_last_saved].
      apply firstNotAscending_None in Hcheck as Hascending.
      repeat split; try assumption.
      unfold handleSave.
      cbn [stages slos worker_name polling_fraction time_last_saved].
      rewrite (sortByOrder_of_sorted _ Hsorted). now rewrite Hcheck.
Qed.

End PlanEditorFacts.

Module TimeInputFacts.
Import TimeInput.


End TimeInputFacts.


(** * Examples *)
Module Examples.
#[local] Existing Instance Samples.plainFormat.

(** Doubles: 0.1 is not one, 0.5 and 3 are; 0.1 + 0.2 is not 0.3 but
    0.1 * 3 rounded; 90 * 0.7 is just below 63 and 10 * 0.3 is 3. *)
Example number_examples :
  Js.isDouble (1 # 10) = false
  /\ Js.isDouble (1 # 2) = true
  /\ Js.isDouble 3 = true
  /\ Js.number (1 # 10) = (3602879701896397 # 36028797018963968)%Q
  /\ Js.mul 90 (7 # 10) = (8866461766385663 # 140737488355328)%Q
  /\ Qfloor (Js.mul 90 (7 # 10)) = 62%Z
  /\ Js.mul 10 (3 # 10) = 3%Q
  /\ Js.mul 60 (1 # 2) = 30%Q
  /\ Js.div 60 30 = 2%Q
  /\ Js.sub 150 100 = 50%Q
  /\ Js.number (inject_Z (2 ^ 53 + 1)) = inject_Z (2 ^ 53).
Proof. repeat split; vm_compute; reflexivity. Qed.

(** Whole numbers in a template literal: digits below 10^21, the exponent
    form with the fewest digits from there on; the double nearest to
    123 * 10^20 is rendered as 1.23e+22. *)
Example integerToString_examples :
  Js.integerToString 0 = "0"
  /\ Js.integerToString 3 = "3"
  /\ Js.integerToString (-7) = "-7"
  /\ Js.integerToString (10 ^ 21 - 2 ^ 17) = "999999999999999868928"
  /\ Js.integerToString (10 ^ 21) = "1e+21"
  /\ Js.integerToString (2 ^ 70) = "1.1805916207174113e+21"
  /\ Js.integerToString (- 2 ^ 70) = "-1.1805916207174113e+21"
  /\ Js.integerToString (Qfloor (Js.number (inject_Z (123 * 10 ^ 20))))
     = "1.23e+22"
  /\ Api.getStageId "aaaaaaaa" 2 = "release-aaaaaaaa-order-2"
  /\ Api.getStageId "aaaaaaaa" (10 ^ 21) = "release-aaaaaaaa-order-1e+21"
  /\ Routes.isValidStageId (Api.getStageId "aaaaaaaa" (10 ^ 21)) = false.
Proof. repeat split; vm_compute; reflexivity. Qed.

(** The parser of the SLOs of a plan: a [null] entry makes it throw; a
    string entry, an object without latency and one with an unknown
    percentile are skipped. *)
Example parseSLOsFromPlan_examples :
  let p99 := SLOEvaluator.rawObject
               {| SLOEvaluator.raw_percentile := SLOEvaluator.rawString "p99";
                  SLOEvaluator.raw_latency_ms := SLOEvaluator.rawNumber 100 |} in
  SLOEvaluator.parseSLOsFromPlan [p99; SLOEvaluator.rawNull] = None
  /\ SLOEvaluator.parseSLOsFromPlan
       [ SLOEvaluator.rawPrimitive;
         SLOEvaluator.rawObject
           {| SLOEvaluator.raw_percentile := SLOEvaluator.rawString "p99";
              SLOEvaluator.raw_latency_ms := SLOEvaluator.rawOther |};
         SLOEvaluator.rawObject
           {| SLOEvaluator.raw_percentile := SLOEvaluator.rawString "p50";
              SLOEvaluator.raw_latency_ms := SLOEvaluator.rawNumber 100 |};
         SLOEvaluator.rawObject
           {| SLOEvaluator.raw_percentile := SLOEvaluator.rawString "p99";
              SLOEvaluator.raw_latency_ms := SLOEvaluator.rawString "100" |};
         p99 ]
     = Some [ {| SLOEvaluator.percentile := SLOEvaluator.P99;
                 SLOEvaluator.latency_ms := 100 |} ].
Proof. split; reflexivity. Qed.

(** C3, against the claim as stated. A stage that is [done_successful] is
    running again after [updateStageState("running")], and a release that
    is [done_successful] is running again, with a new start time, after
    [updateReleaseState(id, "running")]. *)
Lemma done_state_overwritten :
  let stage := Samples.stage "aaaaaaaa" 1 StageStorage.done_successful (Some 0%Z) 60 in
  let st := Samples.stageStorageOf stage in
  let st' := snd (StageStorage.updateStageState 120000 StageStorage.running None st) in
  let history :=
    Samples.historyOf [Samples.release "aaaaaaaa" ReleaseHistory.done_successful] in
  let history' :=
    ReleaseHistory.updateReleaseState 120000 "aaaaaaaa" ReleaseHistory.running history in
  StageStorage.startsWithDone (StageStorage.state stage) = true
  /\ StageStorage.state <$> StageStorage.main st' = Some StageStorage.running
  /\ fst history' = true
  /\ ReleaseHistory.state <$> ReleaseHistory.getRelease "aaaaaaaa" (snd history')
     = Some ReleaseHistory.running
  /\ ReleaseHistory.time_started <$> ReleaseHistory.getRelease "aaaaaaaa" (snd history')
     = Some (Some 120000%Z).
Proof. repeat split. Qed.

(** C4, against the claim as stated. [createRelease] with a [not_started]
    release in the history does not fail: it returns the new release and the
    history then holds two active releases. *)
Lemma createRelease_with_active_release :
  let history := Samples.historyOf [Samples.release "aaaaaaaa" ReleaseHistory.not_started] in
  let release := Samples.release "bbbbbbbb" ReleaseHistory.not_started in
  let result := ReleaseHistory.createRelease release history in
  ReleaseHistory.hasActiveRelease history = true
  /\ fst result = release
  /\ ReleaseHistory.getReleaseHistory (snd result)
     = [release; Samples.release "aaaaaaaa" ReleaseHistory.not_started]
  /\ length (List.filter ReleaseHistory.isActive
               (ReleaseHistory.getReleaseHistory (snd result))) = 2.
Proof. repeat split. Qed.

(** C5, against the claim as stated. A plan with stages at 50% and then 10%
    is accepted by [PUT /plan] and stored. *)
Lemma putPlan_descending_plan :
  let body := {| Api.put_connectionId := Some "connection";
                 Api.put_plan := Some Samples.descendingPlan |} in
  let result := Api.putPlan 5000 body Env.fresh in
  (exists plan, fst result = Api.jsonPlan 200 plan)
  /\ map PlanStorage.target_percent
       (PlanStorage.stages (fst (PlanStorage.get
                                   (Env.getPlanStorage (snd result) "connection"))))
     = [50%Z; 10%Z].
Proof. split; [eexists |]; reflexivity. Qed.

(** C8, against the claim as stated. [removeRelease] of a running release
    succeeds and removes it. *)
Lemma removeRelease_running_release :
  let history := Samples.historyOf [Samples.release "aaaaaaaa" ReleaseHistory.running] in
  let result := ReleaseHistory.removeRelease "aaaaaaaa" history in
  fst result = true /\ ReleaseHistory.getReleaseHistory (snd result) = [].
Proof. split; reflexivity. Qed.

(** Scenario A: the telemetry always passes and stage 1 is approved; the
    release ends [done_successful] with all traffic on the new version. *)
Example scenario_clean_rollout :
  Samples.outcomeOf (ReleaseWorkflow.run (Samples.scenarioCollaborators 80) Samples.this
               Samples.scenarioWorld)
  = (ReleaseWorkflow.Returned tt,
     [Some StageStorage.done_successful; Some StageStorage.done_successful],
     Some ReleaseHistory.done_successful,
     [ [(10%Z, "new"); (90%Z, "old")];
       [(100%Z, "new"); (0%Z, "old")];
       [(100%Z, "new")] ]).
Proof. vm_compute. reflexivity. Qed.

(** Scenario B: the telemetry reports p99 = 150 during the soak of stage 1;
    stage 1 is [done_failed], stage 2 [done_cancelled], the release
    [done_failed_slo], and the traffic is back on the old version. *)
Example scenario_slo_failure :
  Samples.outcomeOf (ReleaseWorkflow.run (Samples.scenarioCollaborators 150) Samples.this
               Samples.scenarioWorld)
  = (ReleaseWorkflow.Returned tt,
     [Some StageStorage.done_failed; Some StageStorage.done_cancelled],
     Some ReleaseHistory.done_failed_slo,
     [ [(10%Z, "new"); (90%Z, "old")]; [(100%Z, "old")] ]).
Proof. vm_compute. reflexivity. Qed.

(** C10 on a StageStorage that was never written. *)
Lemma uninitialized_stage_untouched_witness :
  StageStorage.get StageStorage.empty = None
  /\ (StageStorage.updateStageState 1000 StageStorage.running None StageStorage.empty
      = (None, StageStorage.empty)
      /\ StageStorage.progressStage 1000 StageStorage.approve StageStorage.empty
         = (None, StageStorage.empty)
      /\ StageStorage.addLog 1000 "note" StageStorage.empty
         = (None, StageStorage.empty)).
Proof.
  split; [reflexivity |].
  apply StageStorageFacts.uninitialized_stage_untouched. reflexivity.
Defined.

(** C6 on a stage started at instant 1000 whose ticker last wrote 3
    seconds, cancelled at instant 61000: no completion time, still 3
    seconds. *)
Lemma cancelled_stage_not_stamped_witness :
  let stage := Samples.stage "aaaaaaaa" 1 StageStorage.running (Some 1000%Z) 3 in
  let st := Samples.stageStorageOf stage in
  StageStorage.main st = Some stage
  /\ (StageStorage.state stage = StageStorage.running
      \/ StageStorage.state stage = StageStorage.awaiting_approval)
  /\ exists stored,
      StageStorage.main
        (snd (StageStorage.updateStageState 61000 StageStorage.done_cancelled None st))
      = Some stored
      /\ StageStorage.state stored = StageStorage.done_cancelled
      /\ StageStorage.time_done stored = None
      /\ StageStorage.time_elapsed stored = 3%Z.
Proof.
  intros stage st. split; [reflexivity |]. split; [left; reflexivity |].
  apply (StageStorageFacts.cancelled_stage_not_stamped 61000 stage st None);
    [reflexivity | left; reflexivity].
Defined.

(** C4 at the route: a second creation while release ["aaaaaaaa"] is
    running is answered 409 and changes nothing; a creation on a fresh
    environment succeeds. *)
Lemma postReleaseCreate_one_active_witness :
  let body := {| Api.create_connectionId := Some "connection";
                 Api.create_old_version := Some "old";
                 Api.create_new_version := Some "new" |} in
  Api.create_connectionId body = Some "connection"
  /\ SLOEvaluator.truthyString "connection" = true
  /\ ReleaseHistory.hasActiveRelease (Env.getReleaseHistory Samples.env "connection")
     = true
  /\ Api.postReleaseCreate 9000 "bbbbbbbb" body Samples.env
     = (Api.jsonMessage 409 "A release is already staged", Samples.env)
  /\ ReleaseHistory.hasActiveRelease (Env.getReleaseHistory Env.fresh "connection")
     = false
  /\ exists created,
      fst (Api.postReleaseCreate 9000 "bbbbbbbb" body Env.fresh)
      = Api.jsonRelease 200 created
      /\ ReleaseHistory.id created = "bbbbbbbb"
      /\ ReleaseHistory.state created = ReleaseHistory.not_started.
Proof.
  intros body. do 3 (split; [reflexivity |]).
  split.
  - apply (ApiFacts.postReleaseCreate_one_active 9000 "bbbbbbbb" body "connection"
             Samples.env); reflexivity.
  - split; [reflexivity |].
    destruct (proj1 (proj2 (ApiFacts.postReleaseCreate_one_active 9000 "bbbbbbbb"
                              body "connection" Env.fresh eq_refl eq_refl)) eq_refl)
      as (created & Hresponse & Hid & Hstate & _).
    exists created. repeat split; assumption.
Defined.

(** C5 at the route: the descending plan is stored as it is, and a body
    without a plan is answered 400. *)
Lemma putPlan_checks_shape_only_witness :
  let body := {| Api.put_connectionId := Some "connection";
                 Api.put_plan := Some Samples.descendingPlan |} in
  let empty := {| Api.put_connectionId := Some "connection"; Api.put_plan := None |} in
  SLOEvaluator.truthyString "connection" = true
  /\ (exists saved,
        Api.putPlan 5000 body Env.fresh
        = (Api.jsonPlan 200 saved, Env.setPlanStorage "connection" (Some saved) Env.fresh)
        /\ map PlanStorage.target_percent (PlanStorage.stages saved) = [50%Z; 10%Z])
  /\ exists message,
      Api.putPlan 5000 empty Env.fresh = (Api.jsonMessage 400 message, Env.fresh).
Proof.
  intros body empty. split; [reflexivity |]. split.
  - pose proof (proj1 (ApiFacts.putPlan_checks_shape_only 5000 body Env.fresh)
                  "connection"
                  (match Api.body_stages Samples.descendingPlan with
                   | Api.array items => items
                   | _ => []
                   end)
                  [] Samples.descendingPlan eq_refl eq_refl eq_refl eq_refl eq_refl)
      as Hput.
    eexists. split; [exact Hput | reflexivity].
  - apply (proj2 (ApiFacts.putPlan_checks_shape_only 5000 empty Env.fresh)).
    right. left. reflexivity.
Defined.

(** C8 at the route: with release ["aaaaaaaa"] running the deletion is
    answered 409 and nothing changes. *)
Lemma deleteReleaseActive_only_not_started_witness :
  SLOEvaluator.truthyString "connection" = true
  /\ ReleaseHistory.getActiveRelease (Env.getReleaseHistory Samples.env "connection")
     = Some (Samples.release "aaaaaaaa" ReleaseHistory.running)
  /\ exists message,
      Api.deleteReleaseActive (Some "connection") Samples.env
      = (Api.jsonMessage 409 message, Samples.env).
Proof.
  split; [reflexivity |]. split; [reflexivity |].
  apply (proj1 (proj2 (ApiFacts.deleteReleaseActive_only_not_started "connection"
                         Samples.env eq_refl))
           (Samples.release "aaaaaaaa" ReleaseHistory.running));
    [reflexivity | discriminate].
Defined.

(** C3 on the sample world: the bulk cancellation of the stages of the
    default plan leaves stage 3, which is [done_successful], as it is. *)
Lemma done_stages_skipped_by_bulk_update_witness :
  let key := Api.getStageId "aaaaaaaa" 3 in
  let stage := Samples.stage "aaaaaaaa" 3 StageStorage.done_successful None 0 in
  ReleaseWorkflow.stageRecord Samples.world key = Some stage
  /\ StageStorage.startsWithDone (StageStorage.state stage) = true
  /\ exists w',
      ReleaseWorkflow.updateStagesStateBad "aaaaaaaa"
        (PlanStorage.stages PlanStorage.defaultPlan) StageStorage.done_cancelled true
        Samples.world = (ReleaseWorkflow.Returned tt, w')
      /\ Env.getStageStorage (ReleaseWorkflow.env w') key
         = Env.getStageStorage (ReleaseWorkflow.env Samples.world) key.
Proof.
  intros key stage. split; [reflexivity |]. split; [reflexivity |].
  apply (proj1 ReleaseWorkflowFacts.done_stages_skipped_by_bulk_update
           "aaaaaaaa" _ StageStorage.done_cancelled Samples.world key stage);
    reflexivity.
Defined.

(** C1 on the sample world, with a telemetry that reports p999 = 150 against
    the threshold 100 of the default plan: the first of the two rounds of
    the soak of stage 1 fails, the soak says [exit], stage 1 is
    [done_failed], stage 2 [done_cancelled], the release [done_failed_slo]. *)
Lemma slo_violation_fails_release_witness :
  let ext := Samples.collaborators 150 in
  let release := Samples.release "aaaaaaaa" ReleaseHistory.running in
  let sloConfigs :=
    [ {| SLOEvaluator.percentile := SLOEvaluator.P999;
         SLOEvaluator.latency_ms := 100 |} ] in
  ReleaseWorkflow.releaseRecord Samples.this Samples.world "aaaaaaaa" = Some release
  /\ ReleaseWorkflow.intervalTimeSecondsOf Samples.firstPlanStage
       (ReleaseWorkflow.pollingFractionOf (Some release)) = 30%Z
  /\ Z.to_nat (Qfloor (Js.div (inject_Z (PlanStorage.soak_time Samples.firstPlanStage))
                         (inject_Z 30))) = 2
  /\ ReleaseWorkflow.checkCancellation ext Samples.this "aaaaaaaa" Samples.firstStage
       (Z.to_nat 30) Samples.world
     = (ReleaseWorkflow.Returned ReleaseWorkflow.continue, Samples.afterChecks)
  /\ ReleaseWorkflow.telemetryQuery ext
       (ReleaseWorkflow.clock Samples.afterChecks - 30 * 1000)%Z
       (ReleaseWorkflow.clock Samples.afterChecks) = Some (Samples.metrics 150)
  /\ SLOEvaluator.parseSLOsFromPlan
       (PlanStorage.slos (ReleaseHistory.plan_record release)) = Some sloConfigs
  /\ SLOEvaluator.passed (SLOEvaluator.evaluateSLOs sloConfigs (Samples.metrics 150))
     = false
  /\ ReleaseWorkflow.releaseRecord Samples.this Samples.afterChecks "aaaaaaaa"
     = Some release
  /\ ReleaseHistory.StageRef.id Samples.firstStage
     = ReleaseWorkflow.stageName "aaaaaaaa" 1
  /\ ReleaseWorkflow.stageRecord Samples.afterChecks
       (ReleaseHistory.StageRef.id Samples.firstStage)
     = Some (Samples.stage "aaaaaaaa" 1 StageStorage.running (Some 0%Z) 0)
  /\ exists w',
      ReleaseWorkflow.processStageSoak ext Samples.this "aaaaaaaa" Samples.firstStage
        Samples.firstPlanStage Samples.world
      = (ReleaseWorkflow.Returned ReleaseWorkflow.exit, w')
      /\ (StageStorage.state
            <$> ReleaseWorkflow.stageRecord w' (Api.getStageId "aaaaaaaa" 1)
          = Some StageStorage.done_failed)
      /\ (StageStorage.state
            <$> ReleaseWorkflow.stageRecord w' (Api.getStageId "aaaaaaaa" 2)
          = Some StageStorage.done_cancelled)
      /\ (StageStorage.state
            <$> ReleaseWorkflow.stageRecord w' (Api.getStageId "aaaaaaaa" 3)
          = Some StageStorage.done_successful)
      /\ (ReleaseHistory.state
            <$> ReleaseWorkflow.releaseRecord Samples.this w' "aaaaaaaa"
          = Some ReleaseHistory.done_failed_slo).
Proof.
  intros ext release sloConfigs.
  assert (Hinterval :
            ReleaseWorkflow.intervalTimeSecondsOf Samples.firstPlanStage
              (ReleaseWorkflow.pollingFractionOf (Some release)) = 30%Z)
    by (vm_compute; reflexivity).
  assert (Hrounds :
            Z.to_nat (Qfloor (Js.div
                                (inject_Z (PlanStorage.soak_time Samples.firstPlanStage))
                                (inject_Z 30))) = 2)
    by (vm_compute; reflexivity).
  assert (Hchecks :
            ReleaseWorkflow.checkCancellation ext Samples.this "aaaaaaaa"
              Samples.firstStage (Z.to_nat 30) Samples.world
            = (ReleaseWorkflow.Returned ReleaseWorkflow.continue, Samples.afterChecks))
    by (vm_compute; reflexivity).
  assert (Hrelease :
            ReleaseWorkflow.releaseRecord Samples.this Samples.afterChecks "aaaaaaaa"
            = Some release) by (vm_compute; reflexivity).
  assert (Hdata :
            ReleaseWorkflow.stageRecord Samples.afterChecks
              (ReleaseHistory.StageRef.id Samples.firstStage)
            = Some (Samples.stage "aaaaaaaa" 1 StageStorage.running (Some 0%Z) 0))
    by (vm_compute; reflexivity).
  do 10 (split; [first [assumption | reflexivity] |]).
  pose proof (ReleaseWorkflowFacts.slo_violation_fails_release ext Samples.this
                "aaaaaaaa" Samples.firstStage Samples.firstPlanStage release 0
                Samples.world Samples.world Samples.afterChecks (Samples.metrics 150)
                sloConfigs release
                (Samples.stage "aaaaaaaa" 1 StageStorage.running (Some 0%Z) 0)
                eq_refl) as Hclaim.
  cbv zeta in Hclaim. rewrite Hinterval, Hrounds in Hclaim.
  destruct (Hclaim ltac:(lia) eq_refl Hchecks eq_refl eq_refl eq_refl Hrelease
              eq_refl Hdata)
    as (w' & Hsoak & (failed & Hfailed & Hstate1) & Hlater & (r' & Hr' & Hstate) & _).
  exists w'. split; [exact Hsoak |]. split; [| split; [| split]].
  - change (Api.getStageId "aaaaaaaa" 1)
      with (ReleaseHistory.StageRef.id Samples.firstStage).
    now rewrite Hfailed, <- Hstate1.
  - pose proof (Hlater (PlanStorage.Build_PlanStage 2 "" 50 60 false)
                  (Samples.stage "aaaaaaaa" 2 StageStorage.queued None 0)) as H2.
    destruct H2 as (s' & Hs' & Hstate2);
      [right; left; reflexivity | reflexivity | vm_compute; reflexivity |].
    change (Api.getStageId "aaaaaaaa" 2) with (ReleaseWorkflow.stageName "aaaaaaaa" 2).
    cbn [ReleaseHistory.id release Samples.release PlanStorage.order] in Hs'.
    now rewrite Hs', <- Hstate2.
  - pose proof (Hlater (PlanStorage.Build_PlanStage 3 "" 100 60 false)
                  (Samples.stage "aaaaaaaa" 3 StageStorage.done_successful None 0)) as H3.
    cbn [ReleaseHistory.id release Samples.release PlanStorage.order] in H3.
    change (Api.getStageId "aaaaaaaa" 3) with (ReleaseWorkflow.stageName "aaaaaaaa" 3).
    rewrite H3; [reflexivity | right; right; left; reflexivity | reflexivity
                | vm_compute; reflexivity].
  - change (ReleaseHistory.id release) with "aaaaaaaa" in Hr'.
    now rewrite Hr', <- Hstate.
Defined.

(** C7 on the sample world, with a telemetry that always passes: the first
    stage of the default plan soaks 60 seconds at fraction 0.5, that is two
    rounds of 30 seconds. *)
Lemma soak_polling_rounds_witness :
  let ext := Samples.collaborators 80 in
  let release := Samples.release "aaaaaaaa" ReleaseHistory.running in
  let fraction :=
    Js.number (PlanStorage.polling_fraction (ReleaseHistory.plan_record release)) in
  ReleaseWorkflow.releaseRecord Samples.this Samples.world "aaaaaaaa" = Some release
  /\ (0 < fraction)%Q
  /\ (fraction <= 1)%Q
  /\ (0 < PlanStorage.soak_time Samples.firstPlanStage <= 2 ^ 51)%Z
  /\ exists w',
      ReleaseWorkflow.processStageSoak ext Samples.this "aaaaaaaa" Samples.firstStage
        Samples.firstPlanStage Samples.world
      = (ReleaseWorkflow.Returned ReleaseWorkflow.continue, w')
      /\ ReleaseWorkflow.clock w' = 60000%Z
      /\ length (ReleaseWorkflow.queries w') = 2.
Proof.
  intros ext release fraction.
  assert (Hpos : (0 < fraction)%Q) by (vm_compute; reflexivity).
  assert (Hle : (fraction <= 1)%Q) by (vm_compute; discriminate).
  assert (Hsoak : (0 < PlanStorage.soak_time Samples.firstPlanStage <= 2 ^ 51)%Z)
    by (cbn; lia).
  do 4 (split; [first [assumption | reflexivity] |]).
  pose proof (ReleaseWorkflowFacts.soak_polling_rounds ext Samples.this "aaaaaaaa"
                Samples.firstStage Samples.firstPlanStage release Samples.world
                eq_refl Hpos Hle Hsoak) as Hclaim.
  cbv zeta in Hclaim.
  destruct Hclaim as (_ & _ & _ & _ & _ & Hcomplete & _).
  destruct (ReleaseWorkflow.processStageSoak ext Samples.this "aaaaaaaa"
              Samples.firstStage Samples.firstPlanStage Samples.world)
    as [o w'] eqn:Hrun.
  assert (Ho : o = ReleaseWorkflow.Returned ReleaseWorkflow.continue).
  { apply (f_equal fst) in Hrun. cbn [fst] in Hrun. rewrite <- Hrun.
    vm_compute. reflexivity. }
  subst o. exists w'. split; [reflexivity |].
  destruct (Hcomplete w' eq_refl) as (Hclock & windows & Hqueries & Hcount & _).
  split; [rewrite Hclock; vm_compute; reflexivity |].
  rewrite Hqueries. cbn [ReleaseWorkflow.queries Samples.world app].
  apply Nat2Z.inj. rewrite Hcount. vm_compute. reflexivity.
Defined.

End Examples.

(** * Further examples *)
Module MoreExamples.
#[local] Existing Instance Samples.plainFormat.

(** X2 on the SLOs p99 <= 100 ms and median <= 20 ms. *)
Lemma parseSLOsFromPlan_roundtrip_witness :
  let sloConfigs :=
    [ {| SLOEvaluator.percentile := SLOEvaluator.P99;
         SLOEvaluator.latency_ms := 100 |};
      {| SLOEvaluator.percentile := SLOEvaluator.Median;
         SLOEvaluator.latency_ms := 20 |} ] in
  Forall (fun slo => (0 < SLOEvaluator.latency_ms slo)%Q) sloConfigs
  /\ SLOEvaluator.parseSLOsFromPlan (map Encoding.rawOfConfig sloConfigs)
     = Some sloConfigs.
Proof.
  intros sloConfigs.
  assert (Hpositive :
            Forall (fun slo => (0 < SLOEvaluator.latency_ms slo)%Q) sloConfigs).
  { repeat constructor. }
  split; [exact Hpositive |].
  exact (SLOEvaluatorMore.parseSLOsFromPlan_roundtrip sloConfigs Hpositive).
Defined.

(** X4 on the SLO p999 <= 100 ms: it passes at 80 ms, so it passes at
    50 ms. *)
Lemma evaluateSLOs_monotone_witness :
  let sloConfigs :=
    [ {| SLOEvaluator.percentile := SLOEvaluator.P999;
         SLOEvaluator.latency_ms := 100 |} ] in
  Encoding.metricsLe (Samples.metrics 50) (Samples.metrics 80)
  /\ SLOEvaluator.passed (SLOEvaluator.evaluateSLOs sloConfigs (Samples.metrics 80))
     = true
  /\ SLOEvaluator.passed (SLOEvaluator.evaluateSLOs sloConfigs (Samples.metrics 50))
     = true.
Proof.
  intros sloConfigs.
  assert (Hle : Encoding.metricsLe (Samples.metrics 50) (Samples.metrics 80)).
  { repeat split; vm_compute; discriminate. }
  split; [exact Hle |]. split; [reflexivity |].
  exact (SLOEvaluatorMore.evaluateSLOs_monotone sloConfigs _ _ Hle eq_refl).
Defined.

(** X5 on a queued stage started at instant 5000. *)
Lemma stage_start_stamped_from_queued_only_witness :
  let stage := Samples.stage "aaaaaaaa" 2 StageStorage.queued None 0 in
  let st := Samples.stageStorageOf stage in
  StageStorage.main st = Some stage
  /\ exists stored,
      StageStorage.main
        (snd (StageStorage.updateStageState 5000 StageStorage.running None st))
      = Some stored
      /\ StageStorage.state stored = StageStorage.running
      /\ StageStorage.time_started stored = Some 5000%Z.
Proof.
  intros stage st. split; [reflexivity |].
  destruct (StageStorageMore.stage_start_stamped_from_queued_only 5000 None st stage
              eq_refl) as (stored & Hstored & Hstate & Hqueued & _).
  exists stored. split; [exact Hstored |]. split; [exact Hstate |].
  exact (proj1 (Hqueued eq_refl)).
Defined.

(** X6 on a stage started at instant 1000 that succeeds at instant 61000:
    60 seconds. *)
Lemma stage_finish_stamped_witness :
  let stage := Samples.stage "aaaaaaaa" 1 StageStorage.running (Some 1000%Z) 3 in
  let st := Samples.stageStorageOf stage in
  StageStorage.main st = Some stage
  /\ StageStorage.state stage = StageStorage.running
  /\ exists stored,
      StageStorage.main
        (snd (StageStorage.updateStageState 61000 StageStorage.done_successful None st))
      = Some stored
      /\ StageStorage.time_done stored = Some 61000%Z
      /\ StageStorage.time_elapsed stored = 60%Z.
Proof.
  intros stage st. split; [reflexivity |]. split; [reflexivity |].
  destruct (StageStorageMore.stage_finish_stamped 61000 stage
              StageStorage.done_successful st None eq_refl
              (or_introl eq_refl) (or_introl eq_refl))
    as (stored & Hstored & _ & Hdone & Helapsed & _).
  exists stored. split; [exact Hstored |]. split; [exact Hdone |].
  exact (Helapsed 1000%Z eq_refl).
Defined.

(** X7 on a running stage. *)
Lemma addLog_appends_witness :
  let stage := Samples.stage "aaaaaaaa" 1 StageStorage.running (Some 1000%Z) 3 in
  let st := Samples.stageStorageOf stage in
  StageStorage.main st = Some stage
  /\ exists logged,
      fst (StageStorage.addLog 2000 "note" st) = Some logged
      /\ StageStorage.state logged = StageStorage.running
      /\ StageStorage.time_elapsed logged = 3%Z.
Proof.
  intros stage st. split; [reflexivity |].
  destruct (StageStorageMore.addLog_appends 2000 "note" st stage eq_refl)
    as (Hlog & _ & Hstate & _ & Helapsed & _).
  eexists. split; [rewrite Hlog; reflexivity |]. split; [exact Hstate | exact Helapsed].
Defined.

(** X8 on a stage cancelled at instant 61000 whose alarm fires at 62000. *)
Lemma cancelled_stage_stops_ticking_witness :
  let stage := Samples.stage "aaaaaaaa" 1 StageStorage.running (Some 1000%Z) 3 in
  let st := Samples.stageStorageOf stage in
  let cancelled :=
    snd (StageStorage.updateStageState 61000 StageStorage.done_cancelled None st) in
  StageStorage.main st = Some stage
  /\ StageStorage.state stage = StageStorage.running
  /\ StageStorage.main (StageStorage.alarm 62000 cancelled)
     = StageStorage.main cancelled
  /\ StageStorage.alarmAt (StageStorage.alarm 62000 cancelled) = None.
Proof.
  intros stage st cancelled. split; [reflexivity |]. split; [reflexivity |].
  destruct (StageStorageMore.cancelled_stage_stops_ticking 61000 62000 stage st None
              eq_refl (or_introl eq_refl)) as (_ & Hmain & Halarm & _).
  split; [exact Hmain | exact Halarm].
Defined.

(** X9 on a history that holds release ["aaaaaaaa"] and not
    ["bbbbbbbb"]. *)
Lemma updateReleaseState_touches_one_entry_witness :
  let st := Samples.historyOf [Samples.release "aaaaaaaa" ReleaseHistory.running] in
  ReleaseHistory.getRelease "bbbbbbbb" st = None
  /\ ReleaseHistory.updateReleaseState 5000 "bbbbbbbb" ReleaseHistory.done_successful st
     = (false, st)
  /\ ReleaseHistory.getRelease "aaaaaaaa" st
     = Some (Samples.release "aaaaaaaa" ReleaseHistory.running)
  /\ fst (ReleaseHistory.updateReleaseState 5000 "aaaaaaaa"
            ReleaseHistory.done_successful st) = true.
Proof.
  intros st. split; [reflexivity |]. split.
  - exact (proj1 (ReleaseHistoryMore.updateReleaseState_touches_one_entry 5000
                    "bbbbbbbb" ReleaseHistory.done_successful st) eq_refl).
  - split; [reflexivity |].
    exact (proj1 (proj2 (ReleaseHistoryMore.updateReleaseState_touches_one_entry 5000
                           "aaaaaaaa" ReleaseHistory.done_successful st)
                    _ eq_refl)).
Defined.

(** X10 on a release that is [done_successful] and is started again at
    instant 9000. *)
Lemma release_times_follow_transitions_witness :
  let r := Samples.release "aaaaaaaa" ReleaseHistory.done_successful in
  let st := Samples.historyOf [r] in
  ReleaseHistory.getRelease "aaaaaaaa" st = Some r
  /\ ReleaseHistory.state r <> ReleaseHistory.running
  /\ exists r',
      ReleaseHistory.getRelease "aaaaaaaa"
        (snd (ReleaseHistory.updateReleaseState 9000 "aaaaaaaa"
                ReleaseHistory.running st)) = Some r'
      /\ ReleaseHistory.time_started r' = Some 9000%Z.
Proof.
  intros r st.
  assert (Hstate : ReleaseHistory.state r <> ReleaseHistory.running) by discriminate.
  split; [reflexivity |]. split; [exact Hstate |].
  destruct (proj1 (ReleaseHistoryMore.release_times_follow_transitions 9000
                     "aaaaaaaa" st r eq_refl) Hstate)
    as (r' & Hr' & _ & Hstarted & _).
  exists r'. split; [exact Hr' | exact Hstarted].
Defined.

(** X12 on a history that holds release ["aaaaaaaa"], to which
    ["bbbbbbbb"] is added and removed again. *)
Lemma removeRelease_undoes_createRelease_witness :
  let st := Samples.historyOf [Samples.release "aaaaaaaa" ReleaseHistory.running] in
  let release := Samples.release "bbbbbbbb" ReleaseHistory.not_started in
  Forall (fun r => ReleaseHistory.id r <> ReleaseHistory.id release)
    (ReleaseHistory.getReleaseHistory st)
  /\ length (ReleaseHistory.getReleaseHistory st) < 100
  /\ ReleaseHistory.getReleaseHistory
       (snd (ReleaseHistory.removeRelease (ReleaseHistory.id release)
               (snd (ReleaseHistory.createRelease release st))))
     = ReleaseHistory.getReleaseHistory st.
Proof.
  intros st release.
  assert (Hfresh : Forall (fun r => ReleaseHistory.id r <> ReleaseHistory.id release)
                     (ReleaseHistory.getReleaseHistory st)).
  { repeat constructor. discriminate. }
  assert (Hroom : length (ReleaseHistory.getReleaseHistory st) < 100).
  { cbn. lia. }
  split; [exact Hfresh |]. split; [exact Hroom |].
  exact (proj1 (proj2 (ReleaseHistoryMore.removeRelease_undoes_createRelease
                         release st Hfresh Hroom))).
Defined.

(** X14 on release ["aaaaaaaa"] and order 3. *)
Lemma created_stage_ids_are_valid_witness :
  Routes.isValidId "aaaaaaaa" = true
  /\ Js.isDouble (inject_Z 3) = true
  /\ Routes.isValidStageId (Api.getStageId "aaaaaaaa" 3) = true.
Proof.
  split; [reflexivity |]. split; [reflexivity |].
  apply (RoutesFacts.created_stage_ids_are_valid "aaaaaaaa" 3 eq_refl eq_refl). lia.
Defined.

(** X15: the descending plan, saved at instant 5000, is stored and served
    with that time. *)
Lemma saved_plan_is_served_witness :
  let body := {| Api.put_connectionId := Some "connection";
                 Api.put_plan := Some Samples.descendingPlan |} in
  let env' := snd (Api.putPlan 5000 body Env.fresh) in
  (exists plan, Api.putPlanValidator body = inr ("connection", plan))
  /\ SLOEvaluator.truthyString "connection" = true
  /\ exists saved,
      Env.getPlanStorage env' "connection" = Some saved
      /\ fst (Routes.postPlan (Some "connection") env') = Api.jsonPlan 200 saved
      /\ PlanStorage.time_last_saved saved = Some 5000%Z.
Proof.
  intros body env'. split; [eexists; reflexivity |]. split; [reflexivity |].
  destruct (RoutesFacts.saved_plan_is_served 5000 body Env.fresh "connection" _
              eq_refl eq_refl) as (_ & Hstored & Hserved & _).
  eexists. split; [exact Hstored |]. split; [exact Hserved | reflexivity].
Defined.

(** X16: the first page of the releases of the sample connection. *)
Lemma release_page_is_bounded_and_filtered_witness :
  let body := {| Routes.list_connectionId := Some "connection";
                 Routes.list_limit := Some 10%Z;
                 Routes.list_offset := None;
                 Routes.list_since := None;
                 Routes.list_until := None;
                 Routes.list_state := Some "running" |} in
  let releases := [Samples.release "aaaaaaaa" ReleaseHistory.running] in
  Routes.postRelease body Samples.env = Routes.listed releases
  /\ (Z.of_nat (length releases) <= 10)%Z.
Proof.
  intros body releases. split; [reflexivity |].
  exact (proj1 (proj1 (RoutesFacts.release_page_is_bounded_and_filtered body
                         Samples.env releases eq_refl))).
Defined.

(** X17: starting the release that the scenario has created. *)
Lemma start_runs_the_staged_release_witness :
  let body := {| Routes.control_accountId := Some "account";
                 Routes.control_workerName := Some "my-worker";
                 Routes.control_apiToken := Some "token";
                 Routes.control_command := Some "start";
                 Routes.control_connectionId := "connection" |} in
  let env := ReleaseWorkflow.env Samples.scenarioWorld in
  (exists active,
      ReleaseHistory.getActiveRelease (Env.getReleaseHistory env "connection")
      = Some active
      /\ ReleaseHistory.id active = "aaaaaaaa"
      /\ ReleaseHistory.state active = ReleaseHistory.not_started)
  /\ exists calls env',
      Routes.postReleaseActive 3000 body env
      = (Api.text 200 "Release started successfully", calls, env')
      /\ length calls = 2
      /\ ReleaseHistory.state
           <$> ReleaseHistory.getRelease "aaaaaaaa"
                 (Env.getReleaseHistory env' "connection")
         = Some ReleaseHistory.running.
Proof.
  intros body env. split; [eexists; repeat split; reflexivity |].
  destruct (RoutesFacts.start_runs_the_staged_release 3000 body env _
              eq_refl eq_refl eq_refl eq_refl eq_refl eq_refl)
    as (env' & Hrun & (started & Hstarted & Hstate & _) & _).
  eexists _, env'. split; [exact Hrun |]. split; [reflexivity |].
  change (ReleaseHistory.id _) with "aaaaaaaa" in Hstarted.
  change (Routes.control_connectionId body) with "connection" in Hstarted.
  rewrite Hstarted. cbn. now rewrite Hstate.
Defined.

(** X18: stopping the running release of the sample connection, which has
    three stages. *)
Lemma stop_marks_the_release_and_denies_its_stages_witness :
  let body := {| Routes.control_accountId := Some "account";
                 Routes.control_workerName := Some "my-worker";
                 Routes.control_apiToken := Some "token";
                 Routes.control_command := Some "stop";
                 Routes.control_connectionId := "connection" |} in
  ReleaseHistory.getActiveRelease (Env.getReleaseHistory Samples.env "connection")
  = Some (Samples.release "aaaaaaaa" ReleaseHistory.running)
  /\ exists calls env',
      Routes.postReleaseActive 3000 body Samples.env
      = (Api.text 200 "Release stopping async", calls, env')
      /\ length calls = 3
      /\ Env.STAGE_STORAGE env' = Env.STAGE_STORAGE Samples.env.
Proof.
  intros body. split; [reflexivity |].
  destruct (RoutesFacts.stop_marks_the_release_and_denies_its_stages 3000 body
              Samples.env _ eq_refl eq_refl eq_refl eq_refl eq_refl eq_refl)
    as (env' & Hrun & _ & Hstages & _).
  eexists _, env'. split; [exact Hrun |]. split; [reflexivity | exact Hstages].
Defined.

(** X19: starting the release of the sample connection, which is already
    running, is refused and changes nothing. *)
Lemma refused_control_changes_nothing_witness :
  let body := {| Routes.control_accountId := Some "account";
                 Routes.control_workerName := Some "my-worker";
                 Routes.control_apiToken := Some "token";
                 Routes.control_command := Some "start";
                 Routes.control_connectionId := "connection" |} in
  let result := Routes.postReleaseActive 3000 body Samples.env in
  (forall answer, fst (fst result) <> Api.text 200 answer)
  /\ snd result = Samples.env /\ snd (fst result) = [].
Proof.
  intros body result.
  assert (Hrefused : forall answer, fst (fst result) <> Api.text 200 answer).
  { intros answer. discriminate. }
  split; [exact Hrefused |].
  destruct (RoutesFacts.refused_control_changes_nothing 3000 body Samples.env
              (fst (fst result)) (snd (fst result)) (snd result) eq_refl Hrefused)
    as (Henv & Hcalls & _).
  split; [exact Henv | exact Hcalls].
Defined.

(** X20: release ["bbbbbbbb"], created on a fresh environment, is served by
    id and as the active release. *)
Lemma created_release_is_served_witness :
  let body := {| Api.create_connectionId := Some "connection";
                 Api.create_old_version := Some "old";
                 Api.create_new_version := Some "new" |} in
  let result := Api.postReleaseCreate 9000 "bbbbbbbb" body Env.fresh in
  exists created,
    result = (Api.jsonRelease 200 created, snd result)
    /\ Routes.isValidId "bbbbbbbb" = true
    /\ Routes.postReleaseById "bbbbbbbb" (Some "connection") (snd result)
       = Api.jsonRelease 200 created
    /\ Routes.postReleaseActiveGet (Some "connection") (snd result)
       = inr (Some created).
Proof.
  intros body result. eexists. split; [reflexivity |]. split; [reflexivity |].
  exact (RoutesFacts.created_release_is_served 9000 "bbbbbbbb" body Env.fresh _
           (snd result) eq_refl eq_refl).
Defined.

(** X21: the second stage of that release is served as a queued record. *)
Lemma created_stages_are_served_witness :
  let body := {| Api.create_connectionId := Some "connection";
                 Api.create_old_version := Some "old";
                 Api.create_new_version := Some "new" |} in
  let result := Api.postReleaseCreate 9000 "bbbbbbbb" body Env.fresh in
  let stageRef := {| ReleaseHistory.StageRef.id := Api.getStageId "bbbbbbbb" 2;
                     ReleaseHistory.StageRef.order := 2 |} in
  exists created,
    result = (Api.jsonRelease 200 created, snd result)
    /\ In stageRef (ReleaseHistory.stages created)
    /\ Routes.isValidStageId (ReleaseHistory.StageRef.id stageRef) = true
    /\ StageStorage.state
         <$> match Routes.getStage (ReleaseHistory.StageRef.id stageRef) (snd result) with
             | inr stage => Some stage
             | inl _ => None
             end
       = Some StageStorage.queued.
Proof.
  intros body result stageRef. eexists.
  assert (Hin : In stageRef
                  (ReleaseHistory.stages
                     (Samples.release "bbbbbbbb" ReleaseHistory.not_started))).
  { right. left. reflexivity. }
  split; [reflexivity |]. split; [exact Hin |]. split; [reflexivity |].
  rewrite (RoutesFacts.created_stages_are_served 9000 "bbbbbbbb" body Env.fresh _
             (snd result) stageRef eq_refl Hin eq_refl).
  reflexivity.
Defined.

(** X22: denying the second stage of the sample release, which is still
    [queued]. *)
Lemma stage_command_closes_any_stage_witness :
  let stageId := Api.getStageId "aaaaaaaa" 2 in
  let stage := Samples.stage "aaaaaaaa" 2 StageStorage.queued None 0 in
  Routes.isValidStageId stageId = true
  /\ Routes.commandOf "deny" = Some StageStorage.deny
  /\ StageStorage.get (Env.getStageStorage Samples.env stageId) = Some stage
  /\ SLOEvaluator.truthyString (StageStorage.releaseId stage) = true
  /\ exists calls env',
      Routes.postStage 7000 stageId "deny" Samples.env
      = (Api.text 200 "Stage progressed successfully", calls, env')
      /\ StageStorage.state
           <$> StageStorage.get (Env.getStageStorage env' stageId)
         = Some StageStorage.done_cancelled.
Proof.
  intros stageId stage. do 4 (split; [reflexivity |]).
  destruct (RoutesFacts.stage_command_closes_any_stage 7000 stageId "deny"
              StageStorage.deny Samples.env stage eq_refl eq_refl eq_refl eq_refl)
    as (env' & Hrun & (closed & Hclosed & Hstate) & _).
  eexists _, env'. split; [exact Hrun |]. rewrite Hclosed. cbn. now rewrite Hstate.
Defined.

(** X23: approving a stage of a release that does not exist. *)
Lemma stage_command_on_missing_stage_witness :
  let stageId := Api.getStageId "cccccccc" 1 in
  Routes.isValidStageId stageId = true
  /\ Routes.commandOf "approve" = Some StageStorage.approve
  /\ StageStorage.get (Env.getStageStorage Samples.env stageId) = None
  /\ exists env',
      Routes.postStage 7000 stageId "approve" Samples.env
      = (Api.jsonMessage 404 "Stage not found", [], env')
      /\ StageStorage.get (Env.getStageStorage env' stageId) = None.
Proof.
  intros stageId. do 3 (split; [reflexivity |]).
  destruct (RoutesFacts.stage_command_on_missing_stage 7000 stageId "approve"
              StageStorage.approve Samples.env eq_refl eq_refl eq_refl)
    as (env' & Hrun & Hsame & _).
  exists env'. split; [exact Hrun |]. now rewrite Hsame.
Defined.

(** X25 on the sample world: stage 1 is running, stage 2 queued, stage 3
    done; the cancellation is handled at stage 1. *)
Lemma external_cancellation_closes_the_release_witness :
  let current := Samples.release "aaaaaaaa" ReleaseHistory.running in
  ReleaseWorkflow.releaseRecord Samples.this Samples.world "aaaaaaaa" = Some current
  /\ exists w',
      ReleaseWorkflow.handleExternalCancellation (Samples.collaborators 50)
        Samples.this "aaaaaaaa" 1 Samples.world
      = (ReleaseWorkflow.Returned tt, w')
      /\ map ReleaseWorkflow.versions (ReleaseWorkflow.deployments w')
         = [ [ (100%Z, "old") ] ]
      /\ ReleaseHistory.state
           <$> ReleaseWorkflow.releaseRecord Samples.this w' "aaaaaaaa"
         = Some ReleaseHistory.done_stopped_manually.
Proof.
  intros current. split; [reflexivity |].
  destruct (ReleaseWorkflowMore.external_cancellation_closes_the_release
              (Samples.collaborators 50) Samples.this "aaaaaaaa" 1 Samples.world
              current eq_refl)
    as (w' & Hrun & Hmade & (stopped & Hstopped & Hstate) & _).
  exists w'. split; [exact Hrun |]. split.
  - rewrite Hmade. reflexivity.
  - rewrite Hstopped. cbn. now rewrite Hstate.
Defined.

(** X26 on the clean rollout of the scenario. *)
Lemma returned_run_settles_the_traffic_witness :
  let ext := Samples.scenarioCollaborators 50 in
  let w' := snd (ReleaseWorkflow.run ext Samples.this Samples.scenarioWorld) in
  (exists release,
      ReleaseWorkflow.releaseRecord Samples.this Samples.scenarioWorld "aaaaaaaa"
      = Some release)
  /\ ReleaseWorkflow.run ext Samples.this Samples.scenarioWorld
     = (ReleaseWorkflow.Returned tt, w')
  /\ exists earlier last,
      ReleaseWorkflow.deployments w' = earlier ++ [last]
      /\ ReleaseWorkflow.script_name last = "my-worker".
Proof.
  intros ext w'. split; [eexists; reflexivity |].
  assert (Hrun : ReleaseWorkflow.run ext Samples.this Samples.scenarioWorld
                 = (ReleaseWorkflow.Returned tt, w')).
  { vm_compute. reflexivity. }
  split; [exact Hrun |].
  destruct (ReleaseWorkflowMore.returned_run_settles_the_traffic ext Samples.this
              Samples.scenarioWorld w' _ eq_refl Hrun)
    as (earlier & last & Hmade & Hscript & _).
  exists earlier, last. split; [exact Hmade | exact Hscript].
Defined.

(** X27 on the scenario with a deployment API that refuses every call. *)
Lemma thrown_run_leaves_an_error_witness :
  let ext :=
    {| ReleaseWorkflow.deploymentsCreate := fun _ => false;
       ReleaseWorkflow.telemetryQuery := fun _ _ => None;
       ReleaseWorkflow.whileAsleep := fun _ e => e;
       ReleaseWorkflow.waitForEvent := fun _ _ _ => None |} in
  let w' := snd (ReleaseWorkflow.run ext Samples.this Samples.scenarioWorld) in
  (exists release,
      ReleaseWorkflow.releaseRecord Samples.this Samples.scenarioWorld "aaaaaaaa"
      = Some release)
  /\ ReleaseWorkflow.run ext Samples.this Samples.scenarioWorld
     = (ReleaseWorkflow.Thrown, w')
  /\ match ReleaseWorkflow.releaseRecord Samples.this w' "aaaaaaaa" with
     | Some failed => ReleaseHistory.state failed = ReleaseHistory.error
     | None => True
     end.
Proof.
  intros ext w'. split; [eexists; reflexivity |].
  assert (Hrun : ReleaseWorkflow.run ext Samples.this Samples.scenarioWorld
                 = (ReleaseWorkflow.Thrown, w')).
  { vm_compute. reflexivity. }
  split; [exact Hrun |].
  pose proof (ReleaseWorkflowMore.thrown_run_leaves_an_error ext Samples.this
                Samples.scenarioWorld w' _ eq_refl Hrun) as Hleft.
  change (ReleaseWorkflow.releaseId Samples.this) with "aaaaaaaa" in Hleft.
  destruct (ReleaseWorkflow.releaseRecord Samples.this w' "aaaaaaaa");
    [exact (proj1 Hleft) | exact I].
Defined.

(** X28 on the default plan, which is passed on as it is but for the time
    of saving. *)
Lemma handleSave_passes_ascending_plans_witness :
  let validated :=
    {| PlanStorage.stages := PlanStorage.stages PlanStorage.defaultPlan;
       PlanStorage.slos := PlanStorage.slos PlanStorage.defaultPlan;
       PlanStorage.worker_name := "my-worker";
       PlanStorage.polling_fraction := 0.5;
       PlanStorage.time_last_saved := None |} in
  PlanEditor.handleSave (Some PlanStorage.defaultPlan) = PlanEditor.onSave validated
  /\ PlanEditor.handleSave (Some validated) = PlanEditor.onSave validated.
Proof.
  intros validated. split; [reflexivity |].
  apply (proj1 (PlanEditorFacts.handleSave_passes_ascending_plans
                  PlanStorage.defaultPlan) validated eq_refl).
Defined.


End MoreExamples.
